(** * Voice agent: call-turn orchestration, embedded from the JavaScript source

    The development follows [voice-agent/src/index.js] (webhook handlers, event
    classification, the de-duplication gate, the audio route),
    [voice-agent/src/twilio.js] (signature check, live-call redirect) and
    [openai.js] (strict WAV synthesis).

    Conventions of the embedding.
    - A JavaScript string is a [string]: one character per code unit, for code
      units up to 255.  [toLowerCase] and [trim] are the ECMAScript functions
      restricted to that range.
    - A form-encoded request body is a finite map from field names to string
      values ([gmap string string]); [body[k] != null] is [body !! k = Some _].
    - Process-wide mutable state ([greeted], [recentByCall], the audio
      directory) is threaded explicitly through a [World] record, together with
      the trace of calls made to the outside.
    - What the outside answers during one request (the clock, the chat and
      speech providers, the file system, the call-control API) is an explicit
      [Oracle] argument. *)

From Stdlib Require Import ZArith NArith String Ascii List Bool Lia.
From stdpp Require Import gmap strings list sorting.

Set Warnings "-register-all,-clear-no-such-hyp".

Local Open Scope string_scope.
Local Open Scope Z_scope.
Local Open Scope list_scope.

(** ** Strings *)

Module JsString.

Definition chr (n : nat) : string := String (ascii_of_nat n) EmptyString.

(** The double quote, the line feed: written by code, so that no literal of
    this file has to escape them. *)
Definition dq : string := chr 34.
Definition nl : string := chr 10.

(** [String.prototype.toLowerCase] on code units 0..255: A-Z and the
    Latin-1 capitals C0-DE (D7, the multiplication sign, apart). *)
Definition lower_unit (c : ascii) : ascii :=
  let n := nat_of_ascii c in
  if ((65 <=? n) && (n <=? 90))%nat then ascii_of_nat (n + 32)
  else if ((192 <=? n) && (n <=? 222) && negb (n =? 215))%nat then ascii_of_nat (n + 32)
  else c.

Fixpoint toLowerCase (s : string) : string :=
  match s with
  | EmptyString => EmptyString
  | String c t => String (lower_unit c) (toLowerCase t)
  end.

(** [s.startsWith(p)] *)
Fixpoint startsWith (p s : string) : bool :=
  match p, s with
  | EmptyString, _ => true
  | String a p', String b s' => Ascii.eqb a b && startsWith p' s'
  | String _ _, EmptyString => false
  end.

(** [s.includes(p)] *)
Fixpoint includes (p s : string) : bool :=
  startsWith p s ||
  match s with
  | EmptyString => false
  | String _ t => includes p t
  end.

(** [s.endsWith(p)] *)
Fixpoint endsWith (p s : string) : bool :=
  String.eqb p s ||
  match s with
  | EmptyString => false
  | String _ t => endsWith p t
  end.

(** ECMAScript white space and line terminators among code units 0..255. *)
Definition isWhite (c : ascii) : bool :=
  let n := nat_of_ascii c in
  ((9 <=? n) && (n <=? 13) || (n =? 32) || (n =? 160))%nat.

Fixpoint trimStart (s : string) : string :=
  match s with
  | EmptyString => EmptyString
  | String c t => if isWhite c then trimStart t else s
  end.

Fixpoint trimEnd (s : string) : string :=
  match s with
  | EmptyString => EmptyString
  | String c t =>
      match trimEnd t with
      | EmptyString => if isWhite c then EmptyString else String c EmptyString
      | t' => String c t'
      end
  end.

(** [s.trim()] *)
Definition trim (s : string) : string := trimEnd (trimStart s).

(** JavaScript truthiness of a string. *)
Definition truthy (s : string) : bool :=
  match s with EmptyString => false | _ => true end.

(** [a || b] on strings. *)
Definition or_else (a b : string) : string := if truthy a then a else b.

(** [`${x}`] for a value that may be [undefined]. *)
Definition template (o : option string) : string :=
  match o with Some s => s | None => "undefined" end.

(** [s.slice(start, end)] for integer arguments: a negative index counts from
    the end of the string, and both are brought into the string's bounds. *)
Definition slice (start end_ : Z) (s : string) : string :=
  let len := Z.of_nat (String.length s) in
  let within i := if (i <? 0)%Z then Z.max (len + i) 0 else Z.min i len in
  let from := within start in
  let to := within end_ in
  String.substring (Z.to_nat from) (Z.to_nat (Z.max (to - from) 0)) s.

(** [array.join('')] *)
Fixpoint concat_all (l : list string) : string :=
  match l with
  | [] => EmptyString
  | x :: r => x +:+ concat_all r
  end.

End JsString.
Import JsString.

(** ** Request bodies and the event classifier *)

Abbreviation Form := (gmap string string).

(** [pick(body, ...keys)]: the first key whose value is not null, as a string. *)
Fixpoint pick (body : Form) (keys : list string) : string :=
  match keys with
  | [] => EmptyString
  | k :: ks =>
      match body !! k with
      | Some v => v
      | None => pick body ks
      end
  end.

Definition finalKeys : list string := ["Final"; "final"].
Definition eventKeys : list string := ["TranscriptionEvent"; "event"; "EventType"].
Definition statusKeys : list string := ["TranscriptionStatus"; "Status"].

(** [isFinalEvent(body)] *)
Definition isFinalEvent (body : Form) : bool :=
  let finalFlag := toLowerCase (pick body finalKeys) in
  if String.eqb finalFlag "true" then true
  else
    let evt := toLowerCase (pick body eventKeys) in
    if includes "stopped" evt then true
    else
      let status := toLowerCase (pick body statusKeys) in
      if String.eqb status "completed" || String.eqb status "final" then true
      else false.

(** ** The de-duplication gate *)

Record Recent := { text : string; ts : Z }.

(** [shouldProcess(callSid, text)], with [Date.now()] and the map
    [recentByCall] made explicit; the second component is the map afterwards. *)
Definition shouldProcess (now : Z) (callSid txt : string)
    (recentByCall : gmap string Recent) : bool * gmap string Recent :=
  let prev := recentByCall !! callSid in
  match prev with
  | Some p =>
      if String.eqb (text p) txt && (now - ts p <? 5000)%Z
      then (false, recentByCall)
      else (true, <[callSid := {| text := txt; ts := now |}]> recentByCall)
  | None => (true, <[callSid := {| text := txt; ts := now |}]> recentByCall)
  end.

(** ** Byte buffers *)

Module Buffer.

Abbreviation t := (list Byte.byte).

Definition byte_of_nat (n : nat) : Byte.byte :=
  match Byte.of_N (N.of_nat n mod 256) with
  | Some b => b
  | None => Byte.x00
  end.

Definition nat_of_byte (b : Byte.byte) : nat := N.to_nat (Byte.to_N b).

(** [buf.slice(a, b)] for [0 <= a <= b]: the bytes at offsets [a .. b-1],
    cut at the end of the buffer. *)
Definition slice (a b : nat) (buf : t) : t := take (b - a) (drop a buf).

(** [buf.toString('ascii')].  Node's [Buffer] documentation, on the [ascii]
    encoding: decoding a buffer into a string unsets the highest bit of each
    byte before decoding as [latin1].  So every byte is taken modulo 128 and
    read as one code unit. *)
Definition toStringAscii (buf : t) : string :=
  string_of_list_ascii (map (fun b => ascii_of_nat (nat_of_byte b mod 128)) buf).

(** [Buffer.from(s, 'utf8')] on code units 0..255: one byte below 128, two
    bytes from 128 on. *)
Definition utf8_unit (c : ascii) : t :=
  let n := nat_of_ascii c in
  if (n <? 128)%nat then [byte_of_nat n]
  else [byte_of_nat (192 + n / 64); byte_of_nat (128 + n mod 64)].

Fixpoint fromString (s : string) : t :=
  match s with
  | EmptyString => []
  | String c r => utf8_unit c ++ fromString r
  end.

(** [Buffer.from(s, 'latin1')]: used for literal ASCII data. *)
Definition ofAscii (s : string) : t :=
  map (fun c => byte_of_nat (nat_of_ascii c)) (list_ascii_of_string s).

End Buffer.

(** ** Node's [crypto]: SHA-1, HMAC, base64, constant-time comparison *)

Module Crypto.

Definition w32 (x : Z) : Z := x mod 2 ^ 32.

Definition rotl (n x : Z) : Z :=
  w32 (Z.lor (Z.shiftl x n) (Z.shiftr x (32 - n))).

Definition zbyte (b : Byte.byte) : Z := Z.of_N (Byte.to_N b).

Definition byte_of_Z (z : Z) : Byte.byte := Buffer.byte_of_nat (Z.to_nat (z mod 256)).

(** Big-endian bytes of a number, [n] of them. *)
Fixpoint be_bytes (n : nat) (z : Z) : Buffer.t :=
  match n with
  | O => []
  | S n' => byte_of_Z (Z.shiftr z (8 * Z.of_nat n')) :: be_bytes n' z
  end.

Definition be_word (bs : Buffer.t) : Z :=
  fold_left (fun acc b => acc * 256 + zbyte b) bs 0.

(** Message padding: a one bit, zeros up to 56 modulo 64, the bit length on
    eight bytes. *)
Definition pad (msg : Buffer.t) : Buffer.t :=
  let len := length msg in
  let zeros := ((119 - len mod 64) mod 64)%nat in
  msg ++ [Byte.x80] ++ replicate zeros Byte.x00 ++ be_bytes 8 (8 * Z.of_nat len).

Fixpoint chunks (fuel : nat) (k : nat) (l : Buffer.t) : list Buffer.t :=
  match fuel with
  | O => []
  | S fuel' =>
      match l with
      | [] => []
      | _ => take k l :: chunks fuel' k (drop k l)
      end
  end.

(** The message schedule, most recent word first. *)
Fixpoint expand (n : nat) (ws : list Z) : list Z :=
  match n with
  | O => ws
  | S n' =>
      let w := rotl 1 (Z.lxor (Z.lxor (nth 2 ws 0) (nth 7 ws 0))
                              (Z.lxor (nth 13 ws 0) (nth 15 ws 0))) in
      expand n' (w :: ws)
  end.

Definition schedule (block : Buffer.t) : list Z :=
  rev (expand 64 (rev (map be_word (chunks 16 4 block)))).

Record Hash := { h0 : Z; h1 : Z; h2 : Z; h3 : Z; h4 : Z }.

Definition init : Hash :=
  {| h0 := 0x67452301; h1 := 0xEFCDAB89; h2 := 0x98BADCFE;
     h3 := 0x10325476; h4 := 0xC3D2E1F0 |}.

Definition round (t : nat) (w : Z) (s : Hash) : Hash :=
  let '(a, b, c, d, e) := (h0 s, h1 s, h2 s, h3 s, h4 s) in
  let '(f, k) :=
    if (t <? 20)%nat then
      (Z.lor (Z.land b c) (Z.land (Z.lxor b 0xFFFFFFFF) d), 0x5A827999)
    else if (t <? 40)%nat then
      (Z.lxor (Z.lxor b c) d, 0x6ED9EBA1)
    else if (t <? 60)%nat then
      (Z.lor (Z.lor (Z.land b c) (Z.land b d)) (Z.land c d), 0x8F1BBCDC)
    else
      (Z.lxor (Z.lxor b c) d, 0xCA62C1D6) in
  {| h0 := w32 (rotl 5 a + f + e + k + w); h1 := a; h2 := rotl 30 b;
     h3 := c; h4 := d |}.

Fixpoint rounds (t : nat) (ws : list Z) (s : Hash) : Hash :=
  match ws with
  | [] => s
  | w :: r => rounds (S t) r (round t w s)
  end.

Definition compress (s : Hash) (block : Buffer.t) : Hash :=
  let r := rounds 0 (schedule block) s in
  {| h0 := w32 (h0 s + h0 r); h1 := w32 (h1 s + h1 r); h2 := w32 (h2 s + h2 r);
     h3 := w32 (h3 s + h3 r); h4 := w32 (h4 s + h4 r) |}.

Definition sha1 (msg : Buffer.t) : Buffer.t :=
  let p := pad msg in
  let s := fold_left compress (chunks (length p) 64 p) init in
  be_bytes 4 (h0 s) ++ be_bytes 4 (h1 s) ++ be_bytes 4 (h2 s) ++
  be_bytes 4 (h3 s) ++ be_bytes 4 (h4 s).

Definition xor_with (k : Z) (bs : Buffer.t) : Buffer.t :=
  map (fun b => byte_of_Z (Z.lxor (zbyte b) k)) bs.

(** [createHmac('sha1', key).update(msg).digest()] *)
Definition hmac_sha1 (key msg : Buffer.t) : Buffer.t :=
  let k0 := if (64 <? length key)%nat then sha1 key else key in
  let k := k0 ++ replicate (64 - length k0) Byte.x00 in
  sha1 (xor_with 0x5c k ++ sha1 (xor_with 0x36 k ++ msg)).

Definition alphabet : string :=
  "ABCDEFGHIJKLMNOPQRSTUVWXYZabcdefghijklmnopqrstuvwxyz0123456789+/".

Definition sextet (z : Z) : ascii :=
  match String.get (Z.to_nat (z mod 64)) alphabet with
  | Some c => c
  | None => "="%char
  end.

(** [buf.toString('base64')] *)
Fixpoint base64 (bs : Buffer.t) : string :=
  match bs with
  | [] => EmptyString
  | [a] =>
      let n := zbyte a * 65536 in
      String (sextet (n / 262144)) (String (sextet (n / 4096)) "==")
  | [a; b] =>
      let n := zbyte a * 65536 + zbyte b * 256 in
      String (sextet (n / 262144)) (String (sextet (n / 4096))
        (String (sextet (n / 64)) "="))
  | a :: b :: c :: r =>
      let n := zbyte a * 65536 + zbyte b * 256 + zbyte c in
      String (sextet (n / 262144)) (String (sextet (n / 4096))
        (String (sextet (n / 64)) (String (sextet n) (base64 r))))
  end.

(** [crypto.timingSafeEqual(a, b)] on buffers of one length: every pair of
    bytes is combined, whatever the earlier ones gave. *)
Fixpoint timingSafeEqual_acc (acc : Z) (a b : Buffer.t) : Z :=
  match a, b with
  | x :: a', y :: b' => timingSafeEqual_acc (Z.lor acc (Z.lxor (zbyte x) (zbyte y))) a' b'
  | _, _ => acc
  end.

Definition timingSafeEqual (a b : Buffer.t) : bool :=
  timingSafeEqual_acc 0 a b =? 0.

End Crypto.

(** ** The signature verifier ([twilio.js]) *)

(** [!x] for a value that is a string or [undefined]. *)
Definition absent (o : option string) : bool :=
  match o with
  | Some s => negb (truthy s)
  | None => true
  end.

(** [headers[a] || headers[b]] *)
Definition header_or (headers : Form) (a b : string) : option string :=
  match headers !! a with
  | Some v => if truthy v then Some v else headers !! b
  | None => headers !! b
  end.

(** The order of [Array.prototype.sort] without a comparator: strings by code
    units. *)
Definition str_le (a b : string) : Prop := String.leb a b = true.

#[global] Instance str_le_dec (a b : string) : Decision (str_le a b).
Proof. unfold str_le. solve_decision. Defined.

(** [Object.keys(body).sort()] *)
Definition sortedKeys (body : Form) : list string :=
  merge_sort str_le (map fst (map_to_list body)).

(** [params.push(k + body[k])] over the sorted keys. *)
Definition signedParams (body : Form) : list string :=
  map (fun k => k +:+ default "undefined" (body !! k)) (sortedKeys body).

(** The string Twilio signs: the URL, then every key followed by its value. *)
Definition toSign (url : string) (body : option Form) : string :=
  url +:+ concat_all (match body with Some b => signedParams b | None => [] end).

Definition computedSignature (authToken url : string) (body : option Form) : string :=
  Crypto.base64
    (Crypto.hmac_sha1 (Buffer.fromString authToken) (Buffer.fromString (toSign url body))).

(** [validateTwilioSignature({ enabled, authToken, url, headers, body })] *)
Definition validateTwilioSignature (enabled : bool) (authToken url : option string)
    (headers : Form) (body : option Form) : bool :=
  if negb enabled then true
  else
    let sigHeader := header_or headers "x-twilio-signature" "X-Twilio-Signature" in
    if absent sigHeader || absent authToken || absent url then false
    else
      let computed := computedSignature (template authToken) (template url) body in
      let a := Buffer.fromString computed in
      let b := Buffer.fromString (template sigHeader) in
      (length a =? length b)%nat && Crypto.timingSafeEqual a b.

(** ** Decimal numbers in strings *)

Module Digits.

Definition isDigit (c : ascii) : bool :=
  let n := nat_of_ascii c in ((48 <=? n) && (n <=? 57))%nat.

(** [parseInt(s, 10)] on a string of decimal digits. *)
Definition parseInt (s : string) : Z :=
  fold_left (fun acc c => 10 * acc + Z.of_nat (nat_of_ascii c - 48))
            (list_ascii_of_string s) 0.

Definition digit (n : Z) : ascii := ascii_of_nat (48 + Z.to_nat n).

Fixpoint digits (fuel : nat) (n : Z) (acc : string) : string :=
  match fuel with
  | O => acc
  | S f =>
      let acc' := String (digit (n mod 10)) acc in
      if n <? 10 then acc' else digits f (n / 10) acc'
  end.

(** [`${n}`] for an integer. *)
Definition show (n : Z) : string :=
  if n <? 0 then "-" +:+ digits (S (Z.to_nat (Z.log2 (- n)))) (- n) EmptyString
  else digits (S (Z.to_nat (Z.log2 n))) n EmptyString.

(** The longest prefix of decimal digits (a greedy digit group of the
    pattern), and what follows it. *)
Fixpoint span_digits (s : string) : string * string :=
  match s with
  | String c t =>
      if isDigit c then let '(d, r) := span_digits t in (String c d, r)
      else (EmptyString, s)
  | EmptyString => (EmptyString, EmptyString)
  end.

Fixpoint allDigits (s : string) : bool :=
  match s with
  | EmptyString => true
  | String c t => isDigit c && allDigits t
  end.

End Digits.

(** ** JSON values, as [JSON.parse] returns them *)

Inductive JSONValue :=
| JNull
| JBool (b : bool)
| JNumber (nonzero : bool) (shown : string)
    (** a number, with what [ToBoolean] and [toString] give for it *)
| JString (s : string)
| JArray (items : list JSONValue)
| JObject (fields : list (string * JSONValue)).
    (** the members in source order; a later duplicate overrides an earlier one *)

(** The runtime's [JSON.parse]: [None] stands for a thrown [SyntaxError]. *)
Class JsonRuntime := JSON_parse : string -> option JSONValue.

Module Json.

(** What reading a property gives. *)
Inductive Read :=
| Undefined
| Value (v : JSONValue).

Fixpoint lookup_last (k : string) (fields : list (string * JSONValue)) : Read :=
  match fields with
  | [] => Undefined
  | (k', v) :: r =>
      match lookup_last k r with
      | Undefined => if String.eqb k k' then Value v else Undefined
      | found => found
      end
  end.

(** [obj[k]] for a name that no prototype defines: [None] is the [TypeError]
    raised on [null]. *)
Definition get (obj : JSONValue) (k : string) : option Read :=
  match obj with
  | JNull => None
  | JObject fields => Some (lookup_last k fields)
  | _ => Some Undefined
  end.

Definition truthy (p : Read) : bool :=
  match p with
  | Undefined => false
  | Value JNull => false
  | Value (JBool b) => b
  | Value (JNumber nz _) => nz
  | Value (JString s) => JsString.truthy s
  | Value (JArray _) => true
  | Value (JObject _) => true
  end.

Fixpoint join (sep : string) (l : list string) : string :=
  match l with
  | [] => EmptyString
  | [x] => x
  | x :: r => x +:+ sep +:+ join sep r
  end.

(** Whether the object has a member of its own called [toString].  A member
    read from JSON is never a function, so it hides [Object.prototype.toString]
    behind a value that cannot be called. *)
Definition ownToString (fields : list (string * JSONValue)) : bool :=
  match lookup_last "toString" fields with
  | Undefined => false
  | Value _ => true
  end.

(** [v.toString()], and the conversion [Array.prototype.join] applies to the
    elements of an array: [None] stands for the [TypeError] thrown for an
    object with a [toString] member of its own, at the top or inside an array.
    Inside an array [null] prints as the empty string. *)
Fixpoint toString (v : JSONValue) : option string :=
  match v with
  | JNull => Some "null"
  | JBool true => Some "true"
  | JBool false => Some "false"
  | JNumber _ s => Some s
  | JString s => Some s
  | JArray items =>
      match
        (fix elements (l : list JSONValue) : option (list string) :=
           match l with
           | [] => Some []
           | x :: r =>
               match (match x with JNull => Some EmptyString | _ => toString x end),
                     elements r with
               | Some a, Some b => Some (a :: b)
               | _, _ => None
               end
           end) items
      with
      | Some shown => Some (join "," shown)
      | None => None
      end
  | JObject fields => if ownToString fields then None else Some "[object Object]"
  end.

(** [(a || b || '').toString()] for two property reads; [None] when the call
    throws. *)
Definition firstTruthy (a b : Read) : option string :=
  match (if truthy a then a else if truthy b then b else Undefined) with
  | Value v => toString v
  | Undefined => Some EmptyString
  end.

End Json.

(** ** Numbers, as [JSON.parse] reads and prints them

    A number literal denotes a decimal fraction; the runtime keeps the
    binary64 value nearest to it, and prints that value with the fewest digits
    that read back as the same value. *)

Module Float64.

(** [a / b] rounded to the nearest integer, a tie to the even one. *)
Definition divNearestEven (a b : Z) : Z :=
  let q := a / b in
  let r := a mod b in
  if 2 * r <? b then q
  else if b <? 2 * r then q + 1
  else if Z.even q then q else q + 1.

(** [num / den / 2^e] as a fraction. *)
Definition scale2 (num den e : Z) : Z * Z :=
  if 0 <=? e then (num, den * 2 ^ e) else (num * 2 ^ (- e), den).

(** The double nearest to [num / den], for positive [num] and [den]: the
    pair [(m, e)] stands for [m * 2^e], with [2^52 <= m < 2^53], or with
    [e = -1074] and a smaller [m] (zero included) below the normal range;
    [None] stands for [Infinity]. *)
Definition nearest (num den : Z) : option (Z * Z) :=
  let e0 := Z.log2 num - Z.log2 den - 52 in
  let floorAt e := let '(a, b) := scale2 num den e in a / b in
  let e1 := if floorAt e0 <? 2 ^ 52 then e0 - 1
            else if 2 ^ 53 <=? floorAt e0 then e0 + 1 else e0 in
  let e2 := Z.max e1 (-1074) in
  let '(a, b) := scale2 num den e2 in
  let m := divNearestEven a b in
  let '(m', e') := if m =? 2 ^ 53 then (2 ^ 52, e2 + 1) else (m, e2) in
  if 971 <? e' then None else Some (m', e').

(** [s * 10^e] as a fraction. *)
Definition decimal (s e : Z) : Z * Z :=
  if 0 <=? e then (s * 10 ^ e, 1) else (s, 10 ^ (- e)).

Definition decDigits (a : Z) : Z := Z.of_nat (String.length (Digits.show a)).

(** The integer [p] with [10^p <= num / den < 10^(p + 1)]. *)
Definition floorLog10 (num den : Z) : Z :=
  let p := decDigits num - decDigits den in
  let '(a, b) := decimal 1 p in
  if a * den <=? num * b then p else p - 1.

(** Whether the decimal [s * 10^e] is read back as the double [(m, x)]. *)
Definition readsBack (s e m x : Z) : bool :=
  let '(a, b) := decimal s e in
  match nearest a b with
  | Some (m', x') => (m' =? m) && (x' =? x)
  | None => false
  end.

(** The decimal of [k] digits that is read back as the double [(m, x)], if
    there is one: of the two decimals of [k] digits around the double, the one
    that is read back, the nearer one when both are, the even one on a tie.
    The result is the digits as an integer and the exponent of ten. *)
Definition shortestAt (m x p k : Z) : option (Z * Z) :=
  let '(num, den) := scale2 m 1 (- x) in
  let e := p - k + 1 in
  let '(a, b) := decimal 1 e in
  let lo := (num * b) / (den * a) in
  let hi := lo + 1 in
  let okLo := readsBack lo e m x in
  let okHi := readsBack hi e m x in
  let twice := 2 * num * b in
  let mid := (2 * lo + 1) * den * a in
  let pickLo := if twice <? mid then true else if mid <? twice then false else Z.even lo in
  let norm s := if s =? 10 ^ k then (10 ^ (k - 1), e + 1) else (s, e) in
  if okLo && okHi then Some (norm (if pickLo then lo else hi))
  else if okLo then Some (norm lo)
  else if okHi then Some (norm hi)
  else None.

Fixpoint shortestFrom (fuel : nat) (m x p k : Z) : Z * Z :=
  match fuel with
  | O => (0, 0)
  | S f =>
      match shortestAt m x p k with
      | Some r => r
      | None => shortestFrom f m x p (k + 1)
      end
  end.

Definition zeros (n : Z) : string := string_of_list_ascii (replicate (Z.to_nat n) "0"%char).

(** [Number::toString] for the positive double [(m, x)]. *)
Definition show (m x : Z) : string :=
  let '(num, den) := scale2 m 1 (- x) in
  let p := floorLog10 num den in
  let '(s, e) := shortestFrom 17 m x p 1 in
  let ds := Digits.show s in
  let k := Z.of_nat (String.length ds) in
  let n := e + k in
  if (k <=? n) && (n <=? 21) then ds +:+ zeros (n - k)
  else if (0 <? n) && (n <=? 21) then
    String.substring 0 (Z.to_nat n) ds +:+ "." +:+
    String.substring (Z.to_nat n) (Z.to_nat (k - n)) ds
  else if (-6 <? n) && (n <=? 0) then "0." +:+ zeros (- n) +:+ ds
  else
    let e' := n - 1 in
    let tail := "e" +:+ (if e' <? 0 then "-" else "+") +:+ Digits.show (Z.abs e') in
    if k =? 1 then ds +:+ tail
    else String.substring 0 1 ds +:+ "." +:+ String.substring 1 (Z.to_nat (k - 1)) ds +:+ tail.

(** What [JSON.parse] makes of the literal [-? int . frac e exp]: whether the
    number is truthy, and its string form. *)
Definition ofLiteral (neg : bool) (int frac : string) (expNeg : bool) (exp : string)
    : bool * string :=
  let digits := int +:+ frac in
  let s := Digits.parseInt digits in
  let e := (if expNeg then - Digits.parseInt exp else Digits.parseInt exp)
           - Z.of_nat (String.length frac) in
  let sign := if neg then "-" else EmptyString in
  if s =? 0 then (false, "0")
  else
    let size := decDigits s + e in
    if 400 <? size then (true, sign +:+ "Infinity")
    else if size <? -400 then (false, "0")
    else
      let '(a, b) := decimal s e in
      match nearest a b with
      | None => (true, sign +:+ "Infinity")
      | Some (m, x) => if m =? 0 then (false, "0") else (true, sign +:+ show m x)
      end.

End Float64.

(** A reader for JSON text, for evaluating the classifier on concrete payloads.
    It covers the grammar of RFC 8259 with one limit: a [\u] escape must name
    a code unit up to 00FF, the strings here holding no others. *)
Module JsonText.

Definition isWs (c : ascii) : bool :=
  let n := nat_of_ascii c in ((n =? 32) || (n =? 9) || (n =? 10) || (n =? 13))%nat.

Fixpoint skipWs (s : string) : string :=
  match s with
  | String c t => if isWs c then skipWs t else s
  | EmptyString => EmptyString
  end.

Definition hexval (c : ascii) : option nat :=
  let n := nat_of_ascii c in
  if ((48 <=? n) && (n <=? 57))%nat then Some (n - 48)%nat
  else if ((65 <=? n) && (n <=? 70))%nat then Some (n - 55)%nat
  else if ((97 <=? n) && (n <=? 102))%nat then Some (n - 87)%nat
  else None.

Definition escape (c : ascii) : option ascii :=
  if Ascii.eqb c (ascii_of_nat 34) then Some (ascii_of_nat 34)
  else if Ascii.eqb c (ascii_of_nat 92) then Some (ascii_of_nat 92)
  else if Ascii.eqb c "/" then Some "/"%char
  else if Ascii.eqb c "b" then Some (ascii_of_nat 8)
  else if Ascii.eqb c "f" then Some (ascii_of_nat 12)
  else if Ascii.eqb c "n" then Some (ascii_of_nat 10)
  else if Ascii.eqb c "r" then Some (ascii_of_nat 13)
  else if Ascii.eqb c "t" then Some (ascii_of_nat 9)
  else None.

Definition cons_to (c : ascii) (r : option (string * string)) : option (string * string) :=
  match r with
  | Some (s, rest) => Some (String c s, rest)
  | None => None
  end.

(** The characters of a string literal, from after the opening quote to the
    closing one, and what follows. *)
Fixpoint stringBody (s : string) : option (string * string) :=
  match s with
  | EmptyString => None
  | String c t =>
      if Ascii.eqb c (ascii_of_nat 34) then Some (EmptyString, t)
      else if Ascii.eqb c (ascii_of_nat 92) then
        match t with
        | String e t' =>
            if Ascii.eqb e "u" then
              match t' with
              | String a (String b (String x (String y r))) =>
                  match hexval a, hexval b, hexval x, hexval y with
                  | Some 0%nat, Some 0%nat, Some hi, Some lo =>
                      cons_to (ascii_of_nat (16 * hi + lo)) (stringBody r)
                  | _, _, _, _ => None
                  end
              | _ => None
              end
            else
              match escape e with
              | Some c' => cons_to c' (stringBody t')
              | None => None
              end
        | EmptyString => None
        end
      else if (nat_of_ascii c <? 32)%nat then None
      else cons_to c (stringBody t)
  end.

(** A number literal: an optional minus sign; [0], or a digit from 1 to 9
    followed by digits; an optional fraction, a point and at least one digit;
    an optional exponent, [e] or [E], an optional sign and at least one
    digit. *)
Definition number (s : string) : option (JSONValue * string) :=
  let '(neg, s1) := match s with
                    | String c t => if Ascii.eqb c "-" then (true, t) else (false, s)
                    | EmptyString => (false, s)
                    end in
  let '(int, r1) := Digits.span_digits s1 in
  let wellFormed :=
    match int with
    | EmptyString => false
    | String c EmptyString => true
    | String c _ => negb (Ascii.eqb c "0")
    end in
  let '(frac, r2, fracOk) :=
    match r1 with
    | String c t =>
        if Ascii.eqb c "." then
          let '(f, r) := Digits.span_digits t in (f, r, truthy f)
        else (EmptyString, r1, true)
    | EmptyString => (EmptyString, r1, true)
    end in
  let '(expNeg, exp, r3, expOk) :=
    match r2 with
    | String c t =>
        if Ascii.eqb c "e" || Ascii.eqb c "E" then
          let '(minus, t') :=
            match t with
            | String c' t'' =>
                if Ascii.eqb c' "-" then (true, t'')
                else if Ascii.eqb c' "+" then (false, t'')
                else (false, t)
            | EmptyString => (false, t)
            end in
          let '(x, r) := Digits.span_digits t' in (minus, x, r, truthy x)
        else (false, EmptyString, r2, true)
    | EmptyString => (false, EmptyString, r2, true)
    end in
  if wellFormed && fracOk && expOk then
    let '(nonzero, shown) := Float64.ofLiteral neg int frac expNeg exp in
    Some (JNumber nonzero shown, r3)
  else None.

Section Loops.
Variable value : string -> option (JSONValue * string).

(** The elements of an array, from the first element to the closing
    bracket. *)
Fixpoint elements (fuel : nat) (s : string) (acc : list JSONValue)
    : option (list JSONValue * string) :=
  match fuel with
  | O => None
  | S f =>
      match value s with
      | Some (v, r) =>
          match skipWs r with
          | String c r' =>
              if Ascii.eqb c "," then elements f r' (v :: acc)
              else if Ascii.eqb c "]" then Some (rev (v :: acc), r')
              else None
          | EmptyString => None
          end
      | None => None
      end
  end.

(** The members of an object, from the first name to the closing brace. *)
Fixpoint members (fuel : nat) (s : string) (acc : list (string * JSONValue))
    : option (list (string * JSONValue) * string) :=
  match fuel with
  | O => None
  | S f =>
      match skipWs s with
      | String q s1 =>
          if Ascii.eqb q (ascii_of_nat 34) then
            match stringBody s1 with
            | Some (k, s2) =>
                match skipWs s2 with
                | String colon s3 =>
                    if Ascii.eqb colon ":" then
                      match value s3 with
                      | Some (v, r) =>
                          match skipWs r with
                          | String c r' =>
                              if Ascii.eqb c "," then members f r' ((k, v) :: acc)
                              else if Ascii.eqb c "}" then Some (rev ((k, v) :: acc), r')
                              else None
                          | EmptyString => None
                          end
                      | None => None
                      end
                    else None
                | EmptyString => None
                end
            | None => None
            end
          else None
      | EmptyString => None
      end
  end.
End Loops.

Fixpoint value (fuel : nat) (s : string) : option (JSONValue * string) :=
  match fuel with
  | O => None
  | S f =>
      match skipWs s with
      | EmptyString => None
      | String c t as s' =>
          if Ascii.eqb c "{" then
            match skipWs t with
            | String c' t' =>
                if Ascii.eqb c' "}" then Some (JObject [], t')
                else match members (value f) f t [] with
                     | Some (ms, r) => Some (JObject ms, r)
                     | None => None
                     end
            | EmptyString => None
            end
          else if Ascii.eqb c "[" then
            match skipWs t with
            | String c' t' =>
                if Ascii.eqb c' "]" then Some (JArray [], t')
                else match elements (value f) f t [] with
                     | Some (vs, r) => Some (JArray vs, r)
                     | None => None
                     end
            | EmptyString => None
            end
          else if Ascii.eqb c (ascii_of_nat 34) then
            match stringBody t with
            | Some (str, r) => Some (JString str, r)
            | None => None
            end
          else if startsWith "true" s' then Some (JBool true, String.substring 4 (String.length s') s')
          else if startsWith "false" s' then Some (JBool false, String.substring 5 (String.length s') s')
          else if startsWith "null" s' then Some (JNull, String.substring 4 (String.length s') s')
          else number s'
      end
  end.

(** The whole text must be one value, white space around it apart. *)
Definition parse (s : string) : option JSONValue :=
  match value (S (String.length s)) s with
  | Some (v, r) => match skipWs r with EmptyString => Some v | _ => None end
  | None => None
  end.

End JsonText.

Definition dataKeys : list string := ["TranscriptionData"; "transcriptionData"].
Definition textKeys : list string :=
  ["TranscriptionText"; "SpeechResult"; "utterance"; "transcript"; "text"].

(** [parseTranscriptionData(body)].  Whatever is thrown inside the [try] (by
    [JSON.parse], by reading a member of [null], or by [toString]) ends in the
    empty text. *)
Definition parseTranscriptionData `{JsonRuntime} (body : Form) : string :=
  let td := pick body dataKeys in
  if truthy td then
    match JSON_parse td with
    | Some obj =>
        match Json.get obj "transcript", Json.get obj "Transcript" with
        | Some a, Some b => default EmptyString (Json.firstTruthy a b)
        | _, _ => EmptyString
        end
    | None => EmptyString
    end
  else or_else (pick body textKeys) EmptyString.


(** ** The audio route: [GET|HEAD /audio/:file] *)

Inductive Method := GET | HEAD.

Inductive Payload :=
| NoBody
| Text (s : string)
| Bytes (b : Buffer.t).

Record Reply := {
  code : Z;
  headers : list (string * string);   (* those sent, in the order they were set *)
  payload : Payload
}.

Record AudioRequest := {
  method : Method;
  file : string;                      (* req.params.file *)
  range : option string               (* req.headers.range *)
}.

(** The pattern of the range header, anchored at both ends: the literal
    [bytes=], a possibly empty group of digits, a dash, a second possibly empty
    group of digits.  The result is the two captured groups. *)
Definition matchRange (range : string) : option (string * string) :=
  if startsWith "bytes=" range then
    let '(m1, r1) := Digits.span_digits (String.substring 6 (String.length range - 6) range) in
    match r1 with
    | String "-" r2 =>
        let '(m2, r3) := Digits.span_digits r2 in
        match r3 with
        | EmptyString => Some (m1, m2)
        | _ => None
        end
    | _ => None
    end
  else None.

Definition baseHeaders : list (string * string) :=
  [("Accept-Ranges", "bytes"); ("Cache-Control", "public, max-age=0");
   ("Content-Type", "audio/wav")].

(** [fs.createReadStream(full, { start, end })]: the bytes at offsets
    [start .. end], both included. *)
Definition readRange (start end_ : Z) (content : Buffer.t) : Buffer.t :=
  take (Z.to_nat (end_ - start + 1)) (drop (Z.to_nat start) content).

(** The handler, over the files of the audio directory.  The reply is what
    reaches the client.  The handler answers in two ways.  Where it ends with
    [reply.send] (400, 404, [HEAD], 416), the status and the headers set on the
    reply are written with the body.  Where it pipes the file into [reply.raw]
    (a [GET] that is served, whole or in part), the status set with
    [reply.code] is written and then the bytes; the headers set with
    [reply.header] ([Accept-Ranges], [Cache-Control], [Content-Type],
    [Content-Range], [Content-Length]) stay with the reply object, which
    writes them only in [send], so none of them is sent. *)
Definition serveAudio (audio : gmap string Buffer.t) (req : AudioRequest) : Reply :=
  if negb (truthy (file req)) || negb (endsWith ".wav" (file req)) || includes ".." (file req)
  then {| code := 400; headers := [("Content-Type", "text/plain")];
          payload := Text "Bad request" |}
  else
    match audio !! file req with
    | None => {| code := 404; headers := [("Content-Type", "text/plain")];
                 payload := Text "Not found" |}
    | Some content =>
        let total := Z.of_nat (length content) in
        let whole := {| code := 200; headers := []; payload := Bytes content |} in
        match method req with
        | HEAD => {| code := 200;
                     headers := baseHeaders ++ [("Content-Length", Digits.show total)];
                     payload := NoBody |}
        | GET =>
            match range req with
            | Some r =>
                if truthy r then
                  match matchRange r with
                  | Some (m1, m2) =>
                      let start := if truthy m1 then Digits.parseInt m1 else 0 in
                      let end_ := if truthy m2 then Digits.parseInt m2 else total - 1 in
                      if (end_ <? start) || (total <=? end_) then
                        {| code := 416;
                           headers := baseHeaders ++
                             [("Content-Range", "bytes */" +:+ Digits.show total)];
                           payload := NoBody |}
                      else
                        {| code := 206; headers := [];
                           payload := Bytes (readRange start end_ content) |}
                  | None => whole
                  end
                else whole
            | None => whole
            end
        end
    end.

(** ** Configuration, the world, and what the outside answers *)

Record Config := {
  host : option string;               (* process.env.VOICE_AGENT_HOST *)
  greeting : string;                  (* cfg.env.greeting *)
  validateSignature : bool;           (* cfg.env.twilio.validateSignature *)
  accountSid : option string;
  authToken : option string;
  apiKey : option string;
  chatModel : string;
  ttsModel : string;
  voice : string;
  system_prompt : string;
  max_response_chars : Z;             (* an integer, which a file may set negative *)
  language : string
}.

(** A call made to an outside service. *)
Inductive Call :=
| ChatRequest (model system user : string)
| SpeechRequest (model voice input : string)
| CallUpdate (url twiml : string).

Record World := {
  greeted : gset string;              (* const greeted = new Set() *)
  recentByCall : gmap string Recent;  (* const recentByCall = new Map() *)
  audio : gmap string Buffer.t;       (* the files of the audio directory *)
  calls : list Call                   (* calls made so far, oldest first *)
}.

Record HttpResponse := {
  ok : bool;
  status : Z;
  contentType : option string;        (* r.headers.get('content-type') *)
  body : Buffer.t
}.

Record ChatResponse := {
  chat_ok : bool;
  chat_status : Z;
  chat_content : option (option string)
    (* [None]: the body is not JSON; [Some None]: no content in the first
       choice; [Some (Some c)]: the content *)
}.

(** The answers of the outside during one request; [None] for a response is a
    [fetch] that rejects. *)
Record Oracle := {
  now : Z;                            (* Date.now() *)
  chat : option ChatResponse;
  speech : option HttpResponse;
  disk_ok : bool;                     (* whether writing a file succeeds *)
  fresh_id : string;                  (* the id [saveWav] draws *)
  callUpdate : option (bool * Z);     (* [r.ok] and [r.status] of the redirect *)
  disk_left : option nat
    (* what a write that fails leaves: [None] when it fails before the file is
       opened (the directory cannot be made, the file cannot be created);
       [Some n] when the file was created or truncated and the write stopped
       after [n] bytes *)
}.

Inductive Exn :=
| TransportError
| ChatError (st : Z)
| ChatMalformed
| TtsError (st : Z)
| TtsNonAudio
| TtsNotWav
| StorageError
| RedirectError (st : Z)
| TypeError.

Inductive Res (A : Type) :=
| Ok (a : A)
| Throw (e : Exn).
Arguments Ok {A} a.
Arguments Throw {A} e.

(** Computations over the world that may throw. *)
Definition M (A : Type) : Type := World -> Res A * World.

Definition ret {A} (a : A) : M A := fun w => (Ok a, w).
Definition throw {A} (e : Exn) : M A := fun w => (Throw e, w).
Definition bind {A B} (m : M A) (k : A -> M B) : M B :=
  fun w =>
    match m w with
    | (Ok a, w') => k a w'
    | (Throw e, w') => (Throw e, w')
    end.
(** [try { m } catch (e) { h(e) }] *)
Definition try_catch {A} (m : M A) (h : Exn -> M A) : M A :=
  fun w =>
    match m w with
    | (Ok a, w') => (Ok a, w')
    | (Throw e, w') => h e w'
    end.
Definition get_world : M World := fun w => (Ok w, w).
Definition emit (c : Call) : M unit :=
  fun w => (Ok tt, {| greeted := greeted w; recentByCall := recentByCall w;
                      audio := audio w; calls := calls w ++ [c] |}).
Definition writeFile (name : string) (content : Buffer.t) : M unit :=
  fun w => (Ok tt, {| greeted := greeted w; recentByCall := recentByCall w;
                      audio := <[name := content]> (audio w); calls := calls w |}).

Notation "'let!' x ':=' m 'in' k" := (bind m (fun x => k))
  (at level 10, x name, m at level 100, k at level 200).
Notation "'run!' m 'in' k" := (bind m (fun _ => k))
  (at level 10, m at level 100, k at level 200).

(** [absoluteUrl(host, rel)] *)
Definition absoluteUrl (host : option string) (rel : string) : string :=
  "https://" +:+ template host +:+ (if startsWith "/" rel then EmptyString else "/") +:+ rel.

Definition escapeChar (c : ascii) : string :=
  if Ascii.eqb c "<" then "&lt;"
  else if Ascii.eqb c ">" then "&gt;"
  else if Ascii.eqb c "&" then "&amp;"
  else if Ascii.eqb c (ascii_of_nat 34) then "&quot;"
  else if Ascii.eqb c "'" then "&apos;"
  else String c EmptyString.

(** [escapeXml(s)] *)
Fixpoint escapeXml (s : string) : string :=
  match s with
  | EmptyString => EmptyString
  | String c t => escapeChar c +:+ escapeXml t
  end.

Definition sp (n : nat) : string := string_of_list_ascii (replicate n " "%char).

Definition defaultGreeting : string := "Hello! How can I help?".

(** ** Speech synthesis and storage ([openai.js], [storage.js]) *)

(** [chatReply({ apiKey, model, system, user })] *)
Definition chatReply (o : Oracle) (model system user : string) : M string :=
  run! emit (ChatRequest model system user) in
  match chat o with
  | None => throw TransportError
  | Some r =>
      if negb (chat_ok r) then throw (ChatError (chat_status r))
      else
        match chat_content r with
        | None => throw ChatMalformed
        | Some None => ret EmptyString
        | Some (Some c) => ret (or_else (trim c) EmptyString)
        end
  end.

(** The test on the bytes: twelve bytes at least, [RIFF] at offset 0 and
    [WAVE] at offset 8, both read with the [ascii] decoding. *)
Definition looksLikeWav (buf : Buffer.t) : bool :=
  (12 <=? length buf)%nat &&
  String.eqb (Buffer.toStringAscii (Buffer.slice 0 4 buf)) "RIFF" &&
  String.eqb (Buffer.toStringAscii (Buffer.slice 8 12 buf)) "WAVE".

(** [synthesizeWavStrict({ apiKey, text, model, voice })]; the callers always
    pass a model and a voice, so the default parameters never apply. *)
Definition synthesizeWavStrict (o : Oracle) (txt model voice_ : string) : M Buffer.t :=
  run! emit (SpeechRequest model voice_ txt) in
  match speech o with
  | None => throw TransportError
  | Some r =>
      let ct := toLowerCase (match contentType r with Some c => or_else c EmptyString
                                                  | None => EmptyString end) in
      let buf := body r in
      if negb (ok r) then throw (TtsError (status r))
      else if negb (includes "audio" ct) then throw TtsNonAudio
      else if negb (looksLikeWav buf) then throw TtsNotWav
      else ret buf
  end.

(** [hasGreeting()] *)
Definition hasGreeting (w : World) : bool :=
  match audio w !! "greeting.wav" with Some _ => true | None => false end.

(** [ensureAudioDir(); fs.writeFileSync(file, buffer)] on the final name.  The
    write opens the file for writing, which creates or empties it, and then
    writes the bytes; nothing is written under another name first.  A write
    that fails throws, and leaves what it had written by then. *)
Definition writeFileSync (o : Oracle) (name : string) (content : Buffer.t) : M unit :=
  if disk_ok o then writeFile name content
  else
    run! match disk_left o with
         | Some n => writeFile name (take n content)
         | None => ret tt
         end in
    throw StorageError.

(** [saveGreeting(buffer)] *)
Definition saveGreeting (o : Oracle) (buf : Buffer.t) : M unit :=
  writeFileSync o "greeting.wav" buf.

(** [saveWav(buffer)]: the id is the clock in base 36, a dash and four random
    bytes in hexadecimal, here what the oracle draws. *)
Definition saveWav (o : Oracle) (buf : Buffer.t) : M string :=
  run! writeFileSync o (fresh_id o +:+ ".wav") buf in ret (fresh_id o).

(** [ensureGreetingWav(host)] *)
Definition ensureGreetingWav (cfg : Config) (o : Oracle) : M string :=
  let! w := get_world in
  run! (if negb (hasGreeting w) then
          let! wavBuf := synthesizeWavStrict o (or_else (greeting cfg) defaultGreeting)
                           (or_else (ttsModel cfg) "gpt-4o-mini-tts")
                           (or_else (voice cfg) "coral") in
          saveGreeting o wavBuf
        else ret tt) in
  ret (absoluteUrl (host cfg) "/audio/greeting.wav").

(** ** Call control ([twilio.js]) *)

(** The markup of [redirectCallToPlay], after [trim]. *)
Definition redirectTwiml (host_ : option string) (audioUrl : string) : string :=
  trim (nl +:+ sp 4 +:+ "<Response>" +:+ nl +:+
        sp 6 +:+ "<Play>" +:+ audioUrl +:+ "</Play>" +:+ nl +:+
        sp 6 +:+ "<Redirect method=" +:+ dq +:+ "POST" +:+ dq +:+ ">https://" +:+
          template host_ +:+ "/twilio/voice</Redirect>" +:+ nl +:+
        sp 4 +:+ "</Response>" +:+ nl +:+ sp 2).

(** [redirectCallToPlay({ accountSid, authToken, callSid, audioUrl })]: the
    function declares these four properties only, so a [resumeUrl] passed along
    is not read.  [process.env.VOICE_AGENT_HOST] is [host cfg]. *)
Definition redirectCallToPlay (cfg : Config) (o : Oracle)
    (callSid audioUrl resumeUrl : string) : M unit :=
  let url := "https://api.twilio.com/2010-04-01/Accounts/" +:+ template (accountSid cfg) +:+
             "/Calls/" +:+ callSid +:+ ".json" in
  let twiml := redirectTwiml (host cfg) audioUrl in
  run! emit (CallUpdate url twiml) in
  match callUpdate o with
  | None => throw TransportError
  | Some (ok_, st) => if negb ok_ then throw (RedirectError st) else ret tt
  end.

(** ** The webhook handlers ([index.js]) *)

Record Webhook := {
  rawUrl : string;                    (* req.raw.url *)
  reqHeaders : Form;                  (* req.headers *)
  reqBody : option Form               (* req.body *)
}.

(** [buildTranscriptionAttrs(callbackUrl)] *)
Definition buildTranscriptionAttrs (cfg : Config) (callbackUrl : string) : string :=
  "statusCallbackUrl=" +:+ dq +:+ escapeXml callbackUrl +:+ dq +:+ nl +:+
  sp 10 +:+ "languageCode=" +:+ dq +:+ escapeXml (or_else (language cfg) "en-US") +:+ dq +:+ nl +:+
  sp 10 +:+ "track=" +:+ dq +:+ "inbound_track" +:+ dq +:+ nl +:+
  sp 10 +:+ "transcriptionEngine=" +:+ dq +:+ "google" +:+ dq +:+ nl +:+
  sp 10 +:+ "partialResults=" +:+ dq +:+ "false" +:+ dq.

(** The signature gate that opens each of the three webhook handlers. *)
Definition signatureOk (cfg : Config) (req : Webhook) : bool :=
  if validateSignature cfg then
    validateTwilioSignature true (authToken cfg)
      (Some (absoluteUrl (host cfg) (rawUrl req))) (reqHeaders req) (reqBody req)
  else true.

Definition textReply (c : Z) (type_ body_ : string) : Reply :=
  {| code := c; headers := [("Content-Type", type_)]; payload := Text body_ |}.

(** [req.body?.[k]] *)
Definition field (b : option Form) (k : string) : option string :=
  match b with Some f => f !! k | None => None end.

(** [(a || b || '').toString()] on two fields. *)
Definition firstField (a b : option string) : string :=
  match a with
  | Some x => if truthy x then x else default EmptyString b
  | None => default EmptyString b
  end.

(** The markup of the call-start handler, after [trim]. *)
Definition voiceTwiml (greetingBlock transcriptionAttrs : string) : string :=
  trim (nl +:+ sp 6 +:+ "<Response>" +:+ nl +:+
        sp 8 +:+ greetingBlock +:+ nl +:+
        sp 8 +:+ "<Start>" +:+ nl +:+
        sp 10 +:+ "<Transcription " +:+ transcriptionAttrs +:+ " />" +:+ nl +:+
        sp 8 +:+ "</Start>" +:+ nl +:+
        sp 8 +:+ "<Pause length=" +:+ dq +:+ "60" +:+ dq +:+ "/>" +:+ nl +:+
        sp 6 +:+ "</Response>" +:+ nl +:+ sp 4).

(** The markup of the resume handler, after [trim]. *)
Definition resumeTwiml (transcriptionAttrs : string) : string :=
  trim (nl +:+ sp 6 +:+ "<Response>" +:+ nl +:+
        sp 8 +:+ "<Start>" +:+ nl +:+
        sp 10 +:+ "<Transcription " +:+ transcriptionAttrs +:+ " />" +:+ nl +:+
        sp 8 +:+ "</Start>" +:+ nl +:+
        sp 8 +:+ "<Pause length=" +:+ dq +:+ "60" +:+ dq +:+ "/>" +:+ nl +:+
        sp 6 +:+ "</Response>" +:+ nl +:+ sp 4).

(** [greeted.add(callSid)] *)
Definition addGreeted (callSid : string) : M unit :=
  fun w => (Ok tt, {| greeted := {[ callSid ]} ∪ greeted w; recentByCall := recentByCall w;
                      audio := audio w; calls := calls w |}).

(** [POST /twilio/voice] *)
Definition twilioVoice (cfg : Config) (o : Oracle) (req : Webhook) : M Reply :=
  try_catch
    (if negb (signatureOk cfg req) then
       ret (textReply 403 "text/plain" "Invalid Twilio signature")
     else
       let callSid := firstField (field (reqBody req) "CallSid") (field (reqBody req) "callSid") in
       let transcriptionCallback := absoluteUrl (host cfg) "/twilio/transcription" in
       let transcriptionAttrs := buildTranscriptionAttrs cfg transcriptionCallback in
       let! w := get_world in
       let shouldPlayGreeting := truthy callSid && negb (bool_decide (callSid ∈ greeted w)) in
       run! (if shouldPlayGreeting then addGreeted callSid else ret tt) in
       let! greetingBlock :=
         (if shouldPlayGreeting then
            try_catch
              (let! greetingUrl := ensureGreetingWav cfg o in
               ret ("<Play>" +:+ escapeXml greetingUrl +:+ "</Play>"))
              (fun _ =>
               ret ("<Say>" +:+ escapeXml (or_else (greeting cfg) defaultGreeting) +:+ "</Say>"))
          else ret EmptyString) in
       ret (textReply 200 "text/xml" (voiceTwiml greetingBlock transcriptionAttrs)))
    (fun _ => ret (textReply 500 "text/plain" "Server error")).

(** [POST /twilio/resume] *)
Definition twilioResume (cfg : Config) (req : Webhook) : M Reply :=
  try_catch
    (if negb (signatureOk cfg req) then
       ret (textReply 403 "text/plain" "Invalid Twilio signature")
     else
       let transcriptionCallback := absoluteUrl (host cfg) "/twilio/transcription" in
       let transcriptionAttrs := buildTranscriptionAttrs cfg transcriptionCallback in
       ret (textReply 200 "text/xml" (resumeTwiml transcriptionAttrs)))
    (fun _ => ret (textReply 500 "text/plain" "Server error")).

(** [shouldProcess] on the process-wide map. *)
Definition gate (now_ : Z) (callSid txt : string) : M bool :=
  fun w =>
    let '(b, m) := shouldProcess now_ callSid txt (recentByCall w) in
    (Ok b, {| greeted := greeted w; recentByCall := m; audio := audio w; calls := calls w |}).

(** Where a transcript event ends; each case is one log line of the source. *)
Inductive Outcome :=
| InvalidSignature    (* Invalid Twilio signature on /twilio/transcription *)
| NoCallSid           (* skip: no CallSid *)
| NonFinal            (* non-final ignored *)
| NoText              (* final had no text *)
| Blank               (* finalizeUtterance returns on a blank text *)
| Duplicate           (* duplicate final text dropped *)
| Replied             (* assistant reply generated and redirected *)
| Failed (e : Exn).   (* error in /twilio/transcription *)

(** [cfg.max_response_chars || 600] *)
Definition responseCap (cfg : Config) : Z :=
  if max_response_chars cfg =? 0 then 600 else max_response_chars cfg.

(** [finalizeUtterance({ callSid, text })] *)
Definition finalizeUtterance (cfg : Config) (o : Oracle) (callSid txt : string) : M Outcome :=
  if negb (truthy (trim txt)) then ret Blank
  else
    let! admitted := gate (now o) callSid txt in
    if negb admitted then ret Duplicate
    else
      let! answer := chatReply o (chatModel cfg) (system_prompt cfg) txt in
      let assistantText := slice 0 (responseCap cfg) answer in
      let! wavBuf := synthesizeWavStrict o assistantText (ttsModel cfg) (voice cfg) in
      let! id := saveWav o wavBuf in
      let playUrl := absoluteUrl (host cfg) ("/audio/" +:+ id +:+ ".wav") in
      let resumeUrl := absoluteUrl (host cfg) "/twilio/resume" in
      run! redirectCallToPlay cfg o callSid playUrl resumeUrl in
      ret Replied.

(** [POST /twilio/transcription]: the acknowledgement is sent first; the rest
    runs inside the handler's [try], whose [catch] only logs. *)
Definition twilioTranscription `{JsonRuntime} (cfg : Config) (o : Oracle) (req : Webhook)
    : M (Reply * Outcome) :=
  let ack := {| code := 204; headers := []; payload := NoBody |} in
  let! out :=
    try_catch
      (if negb (signatureOk cfg req) then ret InvalidSignature
       else
         match reqBody req with
         | None => throw TypeError
         | Some b =>
             let callSid := firstField (b !! "CallSid") (b !! "callSid") in
             let txt := trim (parseTranscriptionData b) in
             let isFinal := isFinalEvent b in
             if negb (truthy callSid) then ret NoCallSid
             else if negb isFinal then ret NonFinal
             else if negb (truthy txt) then ret NoText
             else finalizeUtterance cfg o callSid txt
         end)
      (fun e => ret (Failed e)) in
  ret (ack, out).

(** ** Sequences of events *)

Inductive Event :=
| CallStart (req : Webhook)
| Resume (req : Webhook)
| Transcript (req : Webhook)
| AudioGet (req : AudioRequest).

(** One request, handled against the world; a handler never throws. *)
Definition handle `{JsonRuntime} (cfg : Config) (o : Oracle) (ev : Event) (w : World)
    : Reply * World :=
  let fallback := textReply 500 "text/plain" "Server error" in
  match ev with
  | CallStart req =>
      match twilioVoice cfg o req w with (Ok r, w') => (r, w') | (Throw _, w') => (fallback, w') end
  | Resume req =>
      match twilioResume cfg req w with (Ok r, w') => (r, w') | (Throw _, w') => (fallback, w') end
  | Transcript req =>
      match twilioTranscription cfg o req w with
      | (Ok (r, _), w') => (r, w')
      | (Throw _, w') => (fallback, w')
      end
  | AudioGet req => (serveAudio (audio w) req, w)
  end.

Fixpoint run `{JsonRuntime} (cfg : Config) (evs : list (Oracle * Event)) (w : World)
    : list Reply * World :=
  match evs with
  | [] => ([], w)
  | (o, ev) :: rest =>
      let '(r, w') := handle cfg o ev w in
      let '(rs, w'') := run cfg rest w' in
      (r :: rs, w'')
  end.

(** Whether a reply carries a greeting block: a [Play] or a [Say] element. *)
Definition hasGreetingBlock (r : Reply) : bool :=
  match payload r with
  | Text t => includes "<Play>" t || includes "<Say>" t
  | _ => false
  end.

(** The requests to the chat provider in a trace: one per finalize that passed
    the gate. *)
Fixpoint chatCalls (cs : list Call) : nat :=
  match cs with
  | [] => O
  | ChatRequest _ _ _ :: r => S (chatCalls r)
  | _ :: r => chatCalls r
  end.

(** The call identifier the call-start handler reads from a request. *)
Definition callSidOf (req : Webhook) : string :=
  firstField (field (reqBody req) "CallSid") (field (reqBody req) "callSid").

(** A call-start event for the call [c]: one that passes the signature gate
    and carries [c] as its identifier. *)
Definition startsCall (cfg : Config) (c : string) (ev : Event) : bool :=
  match ev with
  | CallStart req => signatureOk cfg req && String.eqb (callSidOf req) c
  | _ => false
  end.

(** The markup [redirectCallToPlay] would send if it redirected to a given
    URL after the clip. *)
Definition playThenRedirect (audioUrl target : string) : string :=
  "<Response>" +:+ nl +:+
  sp 6 +:+ "<Play>" +:+ audioUrl +:+ "</Play>" +:+ nl +:+
  sp 6 +:+ "<Redirect method=" +:+ dq +:+ "POST" +:+ dq +:+ ">" +:+ target +:+ "</Redirect>" +:+ nl +:+
  sp 4 +:+ "</Response>".

(** ** Sample values *)

Module Sample.

Definition cfg : Config :=
  {| host := Some "voice.example.com";
     greeting := "Hello! How can I help?";
     validateSignature := false;
     accountSid := Some "AC1";
     authToken := Some "12345";
     apiKey := Some "sk-test";
     chatModel := "gpt-4.1-mini";
     ttsModel := "gpt-4o-mini-tts";
     voice := "coral";
     system_prompt := "You are a helpful, concise, friendly voice assistant.";
     max_response_chars := 600;
     language := "en-US" |}.

(** The same deployment with signature verification on. *)
Definition cfgSigned : Config :=
  {| host := Some "voice.example.com";
     greeting := "Hello! How can I help?";
     validateSignature := true;
     accountSid := Some "AC1";
     authToken := Some "12345";
     apiKey := Some "sk-test";
     chatModel := "gpt-4.1-mini";
     ttsModel := "gpt-4o-mini-tts";
     voice := "coral";
     system_prompt := "You are a helpful, concise, friendly voice assistant.";
     max_response_chars := 600;
     language := "en-US" |}.

(** A minimal container: [RIFF], four bytes of size, [WAVE]. *)
Definition wav : Buffer.t :=
  Buffer.ofAscii "RIFF" ++ replicate 4 Byte.x00 ++ Buffer.ofAscii "WAVEfmt ".

(** Twelve bytes that spell [RIFF] and [WAVE] only once the top bit of each
    letter is cleared: D2 C9 C6 C6, four zero bytes, D7 C1 D6 C5. *)
Definition highBitWav : Buffer.t :=
  [Byte.xd2; Byte.xc9; Byte.xc6; Byte.xc6; Byte.x00; Byte.x00; Byte.x00; Byte.x00;
   Byte.xd7; Byte.xc1; Byte.xd6; Byte.xc5].

Definition audioResponse (b : Buffer.t) : HttpResponse :=
  {| ok := true; status := 200; contentType := Some "audio/wav"; body := b |}.

(** Every provider answers well at time [t]. *)
Definition allWell (t : Z) : Oracle :=
  {| now := t;
     chat := Some {| chat_ok := true; chat_status := 200;
                     chat_content := Some (Some "Hi there") |};
     speech := Some (audioResponse wav);
     disk_ok := true;
     fresh_id := "m1k2j3-0a1b2c3d";
     callUpdate := Some (true, 200); disk_left := None |}.

(** The chat provider cannot be reached at time [t]. *)
Definition chatDown (t : Z) : Oracle :=
  {| now := t; chat := None; speech := Some (audioResponse wav); disk_ok := true;
     fresh_id := "m1k2j3-0a1b2c3d"; callUpdate := Some (true, 200); disk_left := None |}.

(** The call-control API answers 404 at time [t]. *)
Definition redirectRefused (t : Z) : Oracle :=
  {| now := t;
     chat := Some {| chat_ok := true; chat_status := 200;
                     chat_content := Some (Some "Hi there") |};
     speech := Some (audioResponse wav);
     disk_ok := true;
     fresh_id := "m1k2j3-0a1b2c3d";
     callUpdate := Some (false, 404); disk_left := None |}.

Definition world : World :=
  {| greeted := ∅; recentByCall := ∅; audio := ∅; calls := [] |}.

Definition post (b : Form) : Webhook :=
  {| rawUrl := "/twilio/voice"; reqHeaders := ∅; reqBody := Some b |}.

Definition quoted (s : string) : string := dq +:+ s +:+ dq.

Definition hundred : Buffer.t := replicate 100 Byte.x41.

End Sample.


(** ** Configuration loading ([config.js]) *)

(** The part of the YAML file the handlers read, when the file sets it; a file
    that cannot be read sets nothing.  The cap is read as an integer of either
    sign. *)
Record FileConfig := {
  file_system_prompt : option string;
  file_max_response_chars : option Z;
  file_language : option string
}.

(** [process.env.K || d] *)
Definition envOr (env : Form) (k d : string) : string :=
  match env !! k with
  | Some v => or_else v d
  | None => d
  end.

(** [loadConfig()], over the process environment and the parsed file.  The
    defaults come first, the file overrides them, and [env] is set last, so the
    file never reaches the settings read from the environment. *)
Definition loadConfig (env : Form) (fileCfg : FileConfig) : Config :=
  {| host := env !! "VOICE_AGENT_HOST";
     greeting := envOr env "GREETING_TEXT" "Hello! How can I help?";
     validateSignature :=
       String.eqb (toLowerCase (envOr env "TWILIO_VALIDATE_SIGNATURE" "true")) "true";
     accountSid := env !! "TWILIO_ACCOUNT_SID";
     authToken := env !! "TWILIO_AUTH_TOKEN";
     apiKey := env !! "OPENAI_API_KEY";
     chatModel := envOr env "OPENAI_CHAT_MODEL" "gpt-4.1-mini";
     ttsModel := envOr env "OPENAI_TTS_MODEL" "gpt-4o-mini-tts";
     voice := envOr env "OPENAI_TTS_VOICE" "coral";
     system_prompt :=
       default "You are a helpful, concise, friendly voice assistant."
               (file_system_prompt fileCfg);
     max_response_chars := default 600 (file_max_response_chars fileCfg);
     language := default "en-US" (file_language fileCfg) |}.

(** ** The debug endpoints ([index.js]) *)

(** The JSON object a debug endpoint answers with. *)
Record DebugReply := {
  dcode : Z;
  dok : bool;
  durl : option string;
  duserChars : option nat;
  dassistantChars : option nat;
  dbytes : option nat;
  derror : option Exn
}.

(** [POST /debug/generate-greeting] *)
Definition debugGenerateGreeting (cfg : Config) (o : Oracle) : M DebugReply :=
  try_catch
    (let! url := ensureGreetingWav cfg o in
     ret {| dcode := 200; dok := true; durl := Some url; duserChars := None;
            dassistantChars := None; dbytes := None; derror := None |})
    (fun e =>
     ret {| dcode := 500; dok := false; durl := None; duserChars := None;
            dassistantChars := None; dbytes := None; derror := Some e |}).

(** [(req.body && req.body.text) || 'This is a test of the voice agent.'] *)
Definition debugUserText (b : option Form) : string :=
  or_else (default EmptyString (field b "text")) "This is a test of the voice agent.".

(** [POST /debug/test-openai] *)
Definition debugTestOpenai (cfg : Config) (o : Oracle) (req : Webhook) : M DebugReply :=
  try_catch
    (let user := debugUserText (reqBody req) in
     let! assistantText := chatReply o (chatModel cfg) (system_prompt cfg) user in
     let! wav := synthesizeWavStrict o assistantText (ttsModel cfg) (voice cfg) in
     let! id := saveWav o wav in
     let url := absoluteUrl (host cfg) ("/audio/" +:+ id +:+ ".wav") in
     ret {| dcode := 200; dok := true; durl := Some url;
            duserChars := Some (String.length user);
            dassistantChars := Some (String.length assistantText);
            dbytes := Some (length wav); derror := None |})
    (fun e =>
     ret {| dcode := 500; dok := false; durl := None; duserChars := None;
            dassistantChars := None; dbytes := None; derror := Some e |}).

(** The calls of a trace that update a live call. *)
Fixpoint callUpdates (cs : list Call) : nat :=
  match cs with
  | [] => O
  | CallUpdate _ _ :: r => S (callUpdates r)
  | _ :: r => callUpdates r
  end.

(** The characters that open or close an element or an attribute value. *)
Definition isMarkupChar (c : ascii) : Prop :=
  c = "<"%char \/ c = ">"%char \/ c = ascii_of_nat 34 \/ c = "'"%char.

(** Whether the answer of the speech provider passes every check of
    [synthesizeWavStrict]. *)
Definition speechUsable (o : Oracle) : bool :=
  match speech o with
  | Some r =>
      ok r && includes "audio" (toLowerCase (default EmptyString (contentType r))) &&
      looksLikeWav (body r)
  | None => false
  end.

(** The world only grows: identifiers stay greeted, calls keep an entry in the
    de-duplication map, files stay in the audio directory, and the trace is
    extended at its end. *)
Definition grows (w w' : World) : Prop :=
  greeted w ⊆ greeted w' /\
  dom (recentByCall w) ⊆ dom (recentByCall w') /\
  dom (audio w) ⊆ dom (audio w') /\
  exists new : list Call, calls w' = calls w ++ new.

(** A computation under which the world only grows. *)
Local Abbreviation Growing m := (forall w, grows w (snd (m w))).

(** * Properties *)

#[local] Arguments String.append !_ _ /.

(** ** Strings *)

Lemma truthy_true_iff (s : string) : truthy s = true <-> s <> EmptyString.
Proof. destruct s; simpl; split; intros; congruence. Qed.

Lemma truthy_false_iff (s : string) : truthy s = false <-> s = EmptyString.
Proof. destruct s; simpl; split; intros; congruence. Qed.

Lemma append_nil_r (s : string) : s +:+ EmptyString = s.
Proof. induction s; simpl; congruence. Qed.

Lemma append_assoc (a b c : string) : (a +:+ b) +:+ c = a +:+ (b +:+ c).
Proof. induction a; simpl; congruence. Qed.

Lemma trimEnd_app (a b : string) :
  trimEnd b <> EmptyString -> trimEnd (a +:+ b) = a +:+ trimEnd b.
Proof.
  intros Hb. induction a as [|c a IH]; simpl; [reflexivity|].
  rewrite IH. destruct (a +:+ trimEnd b) eqn:E; [|reflexivity].
  destruct a; simpl in E; [congruence | discriminate].
Qed.

Lemma startsWith_app (p s : string) : startsWith p (p +:+ s) = true.
Proof. induction p; simpl; [reflexivity|]. rewrite Ascii.eqb_refl. exact IHp. Qed.

Lemma includes_cons (p : string) (c : ascii) (s : string) :
  includes p (String c s) = startsWith p (String c s) || includes p s.
Proof. reflexivity. Qed.

Lemma includes_app_r (p a b : string) :
  includes p b = true -> includes p (a +:+ b) = true.
Proof.
  intros H. induction a; simpl; [exact H|]. rewrite IHa. apply orb_true_r.
Qed.

Lemma includes_here (p s : string) : includes p (p +:+ s) = true.
Proof.
  destruct p; simpl; [destruct s; reflexivity|].
  rewrite Ascii.eqb_refl, startsWith_app. reflexivity.
Qed.

(** ** C3: finality classification *)

Lemma pick_absent (body : Form) (keys : list string) :
  Forall (fun k => body !! k = None) keys -> pick body keys = EmptyString.
Proof. induction 1 as [|k ks Hk _ IH]; simpl; [reflexivity|]. rewrite Hk. exact IH. Qed.

Lemma pick_first (body : Form) (k : string) (ks : list string) (v : string) :
  body !! k = Some v -> pick body (k :: ks) = v.
Proof. intros H. simpl. rewrite H. reflexivity. Qed.

(** C3. The three finality signals are read in order -- the final flag
    (first of [Final], [final]) lower-cased and equal to [true], then the event
    type (first of [TranscriptionEvent], [event], [EventType]) lower-cased and
    containing [stopped], then the status (first of [TranscriptionStatus],
    [Status]) lower-cased and equal to [completed] or [final] -- each one makes
    the event final whatever the other fields hold, the event is final only
    through one of them, and an event that carries none of the seven fields is
    not final. *)
Theorem isFinalEvent_classification (body : Form) :
  let finalFlag := toLowerCase (pick body finalKeys) in
  let evt := toLowerCase (pick body eventKeys) in
  let status_ := toLowerCase (pick body statusKeys) in
  (finalFlag = "true" -> isFinalEvent body = true) /\
  (includes "stopped" evt = true -> isFinalEvent body = true) /\
  (status_ = "completed" \/ status_ = "final" -> isFinalEvent body = true) /\
  (isFinalEvent body = true ->
     finalFlag = "true" \/ includes "stopped" evt = true \/
     status_ = "completed" \/ status_ = "final") /\
  (Forall (fun k => body !! k = None) (finalKeys ++ eventKeys ++ statusKeys) ->
     isFinalEvent body = false).
Proof.
  cbv zeta. unfold isFinalEvent.
  destruct (String.eqb_spec (toLowerCase (pick body finalKeys)) "true") as [Hf|Hf].
  { repeat split; auto. intros H.
    apply Forall_app in H as [H _]. rewrite (pick_absent _ _ H) in Hf. discriminate. }
  destruct (includes "stopped" (toLowerCase (pick body eventKeys))) eqn:He.
  { repeat split; auto. intros H.
    apply Forall_app in H as [_ H]. apply Forall_app in H as [H _].
    rewrite (pick_absent _ _ H) in He. discriminate. }
  destruct (String.eqb_spec (toLowerCase (pick body statusKeys)) "completed") as [Hc|Hc].
  { repeat split; auto. intros H.
    apply Forall_app in H as [_ H]. apply Forall_app in H as [_ H].
    rewrite (pick_absent _ _ H) in Hc. discriminate. }
  destruct (String.eqb_spec (toLowerCase (pick body statusKeys)) "final") as [Hl|Hl].
  { repeat split; auto. intros H.
    apply Forall_app in H as [_ H]. apply Forall_app in H as [_ H].
    rewrite (pick_absent _ _ H) in Hl. discriminate. }
  split; [intros; contradiction|]. split; [discriminate|].
  split; [intros [?|?]; contradiction|]. split; [discriminate|reflexivity].
Qed.

Lemma isFinalEvent_classification_witness :
  isFinalEvent (<[ "Final" := "TRUE" ]> {[ "TranscriptionEvent" := "transcription-content" ]}) = true /\
  isFinalEvent {[ "TranscriptionEvent" := "transcription-Stopped" ]} = true /\
  isFinalEvent {[ "Status" := "Completed" ]} = true /\
  isFinalEvent ({[ "CallSid" := "CA1" ]} : Form) = false.
Proof.
  split; [|split; [|split]].
  - destruct (isFinalEvent_classification
      (<[ "Final" := "TRUE" ]> {[ "TranscriptionEvent" := "transcription-content" ]}))
      as (H & _).
    apply H. vm_compute. reflexivity.
  - destruct (isFinalEvent_classification {[ "TranscriptionEvent" := "transcription-Stopped" ]})
      as (_ & H & _).
    apply H. vm_compute. reflexivity.
  - destruct (isFinalEvent_classification {[ "Status" := "Completed" ]}) as (_ & _ & H & _).
    apply H. left. vm_compute. reflexivity.
  - destruct (isFinalEvent_classification ({[ "CallSid" := "CA1" ]} : Form))
      as (_ & _ & _ & _ & H).
    apply H. repeat constructor.
Defined.

(** ** C2, C10: the de-duplication gate and finalize *)

Lemma shouldProcess_false_iff (now_ : Z) (callSid txt : string) (m : gmap string Recent) :
  fst (shouldProcess now_ callSid txt m) = false <->
  exists p, m !! callSid = Some p /\ text p = txt /\ now_ - ts p < 5000.
Proof.
  unfold shouldProcess. destruct (m !! callSid) as [p|] eqn:E; simpl.
  - destruct (String.eqb_spec (text p) txt) as [Ht|Ht]; simpl.
    + destruct (Z.ltb_spec (now_ - ts p) 5000) as [Hl|Hl]; simpl.
      * split; [|reflexivity]. intros _. exists p. auto.
      * split; [discriminate|]. intros (q & Hq & _ & Hlt). inversion Hq; subst. lia.
    + split; [discriminate|]. intros (q & Hq & Hqt & _). inversion Hq; subst. contradiction.
  - split; [discriminate|]. intros (q & Hq & _). discriminate.
Qed.

Lemma shouldProcess_false_same (now_ : Z) (callSid txt : string) (m : gmap string Recent) :
  fst (shouldProcess now_ callSid txt m) = false -> snd (shouldProcess now_ callSid txt m) = m.
Proof.
  unfold shouldProcess. destruct (m !! callSid) as [p|]; simpl; [|discriminate].
  destruct (String.eqb (text p) txt && (now_ - ts p <? 5000)); simpl; [reflexivity|discriminate].
Qed.

Lemma shouldProcess_true_insert (now_ : Z) (callSid txt : string) (m : gmap string Recent) :
  fst (shouldProcess now_ callSid txt m) = true ->
  snd (shouldProcess now_ callSid txt m) = <[callSid := {| text := txt; ts := now_ |}]> m.
Proof.
  unfold shouldProcess. destruct (m !! callSid) as [p|]; simpl; [|reflexivity].
  destruct (String.eqb (text p) txt && (now_ - ts p <? 5000)); simpl; [discriminate|reflexivity].
Qed.

Lemma chatCalls_app (a b : list Call) : chatCalls (a ++ b) = (chatCalls a + chatCalls b)%nat.
Proof.
  induction a as [|c a IH]; simpl; [reflexivity|]. destruct c; simpl; rewrite IH; reflexivity.
Qed.

(** Unfolds the computations of one finalize down to the oracle's answers. *)
Ltac unfold_pipeline :=
  unfold finalizeUtterance, chatReply, synthesizeWavStrict, saveWav, writeFileSync,
    redirectCallToPlay, gate, emit, writeFile, bind, ret, throw in *.

Ltac break_oracle :=
  repeat match goal with
    | |- context [match ?x with _ => _ end] =>
        match type of x with
        | option _ => destruct x eqn:?
        | bool => destruct x eqn:?
        | prod _ _ => is_var x; destruct x
        end; simpl
    end.

(** A finalize that the gate suppresses leaves the world as it is. *)
Lemma finalize_suppressed (cfg : Config) (o : Oracle) (callSid txt : string) (w : World) :
  trim txt <> EmptyString ->
  fst (shouldProcess (now o) callSid txt (recentByCall w)) = false ->
  finalizeUtterance cfg o callSid txt w = (Ok Duplicate, w).
Proof.
  intros Ht Hs. apply truthy_true_iff in Ht.
  pose proof (shouldProcess_false_same _ _ _ _ Hs) as Hm.
  unfold_pipeline. rewrite Ht. simpl.
  destruct (shouldProcess (now o) callSid txt (recentByCall w)) as [b m].
  simpl in Hs, Hm. subst b m. simpl. destruct w; reflexivity.
Qed.

(** A finalize that the gate admits stores the pair before anything else, sends
    exactly one request to the chat provider, and never touches the greeted
    set -- whatever the providers answer. *)
Lemma finalize_admitted (cfg : Config) (o : Oracle) (callSid txt : string) (w : World) :
  trim txt <> EmptyString ->
  fst (shouldProcess (now o) callSid txt (recentByCall w)) = true ->
  let '(res, w') := finalizeUtterance cfg o callSid txt w in
  recentByCall w' = <[callSid := {| text := txt; ts := now o |}]> (recentByCall w) /\
  greeted w' = greeted w /\
  chatCalls (calls w') = S (chatCalls (calls w)) /\
  res <> Ok Duplicate /\ res <> Ok Blank.
Proof.
  intros Ht Hs. apply truthy_true_iff in Ht.
  pose proof (shouldProcess_true_insert _ _ _ _ Hs) as Hm.
  unfold_pipeline. rewrite Ht. simpl.
  destruct (shouldProcess (now o) callSid txt (recentByCall w)) as [b m].
  simpl in Hs, Hm. subst b m. simpl.
  break_oracle; simpl;
    repeat split; try reflexivity; try discriminate;
    rewrite ?chatCalls_app; simpl; lia.
Qed.

(** A blank text never reaches the gate. *)
Lemma finalize_blank (cfg : Config) (o : Oracle) (callSid txt : string) (w : World) :
  trim txt = EmptyString -> finalizeUtterance cfg o callSid txt w = (Ok Blank, w).
Proof.
  intros Ht. unfold finalizeUtterance. rewrite Ht. reflexivity.
Qed.

(** C2. [shouldProcess] answers false exactly when [recentByCall] holds an
    entry for the call with the same text and less than 5000 ms old; a false
    answer leaves the map alone and a true answer stores the text with the
    current time.  Hence, for a text that is not blank and a first delivery
    that passes the gate, an identical delivery within 5000 ms of it is dropped
    without any request to the chat provider and without a change to the
    world, and a third one 5000 ms or more after the stored entry reaches the
    chat provider a second time. *)
Theorem shouldProcess_window :
  (forall (now_ : Z) (callSid txt : string) (m : gmap string Recent),
     let r := shouldProcess now_ callSid txt m in
     (fst r = false <->
        exists p, m !! callSid = Some p /\ text p = txt /\ now_ - ts p < 5000) /\
     (fst r = false -> snd r = m) /\
     (fst r = true -> snd r = <[callSid := {| text := txt; ts := now_ |}]> m)) /\
  (forall (cfg : Config) (o1 o2 o3 : Oracle) (callSid txt : string) (w : World),
     trim txt <> EmptyString ->
     fst (shouldProcess (now o1) callSid txt (recentByCall w)) = true ->
     now o2 - now o1 < 5000 ->
     5000 <= now o3 - now o1 ->
     let w1 := snd (finalizeUtterance cfg o1 callSid txt w) in
     let w2 := snd (finalizeUtterance cfg o2 callSid txt w1) in
     let w3 := snd (finalizeUtterance cfg o3 callSid txt w2) in
     chatCalls (calls w1) = S (chatCalls (calls w)) /\
     finalizeUtterance cfg o2 callSid txt w1 = (Ok Duplicate, w1) /\
     chatCalls (calls w2) = S (chatCalls (calls w)) /\
     chatCalls (calls w3) = S (S (chatCalls (calls w)))).
Proof.
  split.
  - intros now_ callSid txt m r. subst r. split; [apply shouldProcess_false_iff|].
    split; [apply shouldProcess_false_same | apply shouldProcess_true_insert].
  - intros cfg o1 o2 o3 callSid txt w Ht H1 H2 H3. cbv zeta.
    pose proof (finalize_admitted cfg o1 callSid txt w Ht H1) as A1.
    destruct (finalizeUtterance cfg o1 callSid txt w) as [res1 w1]. simpl.
    destruct A1 as (Hm1 & _ & Hc1 & _).
    assert (S2 : fst (shouldProcess (now o2) callSid txt (recentByCall w1)) = false).
    { apply shouldProcess_false_iff. eexists. rewrite Hm1, lookup_insert_eq.
      split; [reflexivity|]. simpl. split; [reflexivity|lia]. }
    rewrite (finalize_suppressed cfg o2 callSid txt w1 Ht S2). simpl.
    assert (S3 : fst (shouldProcess (now o3) callSid txt (recentByCall w1)) = true).
    { destruct (fst (shouldProcess (now o3) callSid txt (recentByCall w1))) eqn:E;
        [reflexivity|].
      apply shouldProcess_false_iff in E as (p & Hp & _ & Hlt).
      rewrite Hm1, lookup_insert_eq in Hp. inversion Hp; subst. simpl in Hlt. lia. }
    pose proof (finalize_admitted cfg o3 callSid txt w1 Ht S3) as A3.
    destruct (finalizeUtterance cfg o3 callSid txt w1) as [res3 w3]. simpl.
    destruct A3 as (_ & _ & Hc3 & _).
    repeat split; congruence.
Qed.

Lemma shouldProcess_window_witness :
  let w1 := snd (finalizeUtterance Sample.cfg (Sample.allWell 1000) "CA1" "hello" Sample.world) in
  let w2 := snd (finalizeUtterance Sample.cfg (Sample.allWell 3000) "CA1" "hello" w1) in
  let w3 := snd (finalizeUtterance Sample.cfg (Sample.allWell 6000) "CA1" "hello" w2) in
  chatCalls (calls w1) = 1%nat /\
  finalizeUtterance Sample.cfg (Sample.allWell 3000) "CA1" "hello" w1 = (Ok Duplicate, w1) /\
  chatCalls (calls w2) = 1%nat /\
  chatCalls (calls w3) = 2%nat.
Proof.
  destruct shouldProcess_window as [_ H].
  apply (H Sample.cfg (Sample.allWell 1000) (Sample.allWell 3000) (Sample.allWell 6000)
           "CA1" "hello" Sample.world).
  - vm_compute. discriminate.
  - vm_compute. reflexivity.
  - simpl. lia.
  - simpl. lia.
Defined.

(** C10. When a finalize throws -- at the chat, synthesis, storage or redirect
    step -- the gate had admitted the pair and the entry it stored for the call
    stays: the map holds the text with the time of the failed attempt, the
    greeted set is what it was, and the same text delivered again less than
    5000 ms after the failed attempt is dropped as a duplicate without any call
    to the outside and without any change to the world. *)
Theorem finalize_failure_keeps_admission (cfg : Config) (o : Oracle) (callSid txt : string)
    (w w' : World) (e : Exn) :
  trim txt <> EmptyString ->
  finalizeUtterance cfg o callSid txt w = (Throw e, w') ->
  recentByCall w' !! callSid = Some {| text := txt; ts := now o |} /\
  greeted w' = greeted w /\
  (forall o2 : Oracle, now o2 - now o < 5000 ->
     finalizeUtterance cfg o2 callSid txt w' = (Ok Duplicate, w')).
Proof.
  intros Ht Hf.
  destruct (fst (shouldProcess (now o) callSid txt (recentByCall w))) eqn:Hs.
  - pose proof (finalize_admitted cfg o callSid txt w Ht Hs) as A.
    rewrite Hf in A. destruct A as (Hm & Hg & _).
    assert (Hl : recentByCall w' !! callSid = Some {| text := txt; ts := now o |})
      by (rewrite Hm; apply lookup_insert_eq).
    split; [exact Hl|]. split; [exact Hg|].
    intros o2 Hlt. apply finalize_suppressed; [exact Ht|].
    apply shouldProcess_false_iff. eexists. split; [exact Hl|]. simpl. split; [reflexivity|lia].
  - rewrite (finalize_suppressed cfg o callSid txt w Ht Hs) in Hf. discriminate.
Qed.

Lemma finalize_failure_keeps_admission_witness :
  let w' := snd (finalizeUtterance Sample.cfg (Sample.redirectRefused 1000) "CA1" "hello"
                   Sample.world) in
  recentByCall w' !! "CA1" = Some {| text := "hello"; ts := 1000 |} /\
  greeted w' = greeted Sample.world /\
  (forall o2 : Oracle, now o2 - 1000 < 5000 ->
     finalizeUtterance Sample.cfg o2 "CA1" "hello" w' = (Ok Duplicate, w')).
Proof.
  apply (finalize_failure_keeps_admission Sample.cfg (Sample.redirectRefused 1000)
           "CA1" "hello" Sample.world _ (RedirectError 404)).
  - vm_compute. discriminate.
  - reflexivity.
Defined.

(** ** C4: the markup of the redirect *)

Lemma trimEnd_app_lit (a b b' : string) :
  trimEnd b = b' -> b' <> EmptyString -> trimEnd (a +:+ b) = a +:+ b'.
Proof. intros <- Hb. apply trimEnd_app. exact Hb. Qed.

(** The markup of the redirect: the clip, then a POST back to [/twilio/voice]. *)
Lemma redirectTwiml_eq (h : option string) (u : string) :
  redirectTwiml h u = playThenRedirect u ("https://" +:+ template h +:+ "/twilio/voice").
Proof.
  unfold redirectTwiml, playThenRedirect, trim.
  match goal with
  | |- context [trimStart (nl +:+ sp 4 +:+ "<Response>" +:+ ?r)] =>
      change (trimStart (nl +:+ sp 4 +:+ "<Response>" +:+ r)) with ("<Response>" +:+ r)
  end.
  set (A := "<Response>" +:+ nl +:+ sp 6 +:+ "<Play>" +:+ u +:+ "</Play>" +:+ nl +:+
            sp 6 +:+ "<Redirect method=" +:+ dq +:+ "POST" +:+ dq +:+ ">https://" +:+ template h).
  set (C := "/twilio/voice</Redirect>" +:+ nl +:+ sp 4 +:+ "</Response>" +:+ nl +:+ sp 2).
  set (C' := "/twilio/voice</Redirect>" +:+ nl +:+ sp 4 +:+ "</Response>").
  transitivity (trimEnd (A +:+ C)).
  { f_equal. unfold A, C. rewrite !append_assoc. reflexivity. }
  rewrite (trimEnd_app_lit A C C'); [| vm_compute; reflexivity | vm_compute; discriminate].
  unfold A, C'. rewrite !append_assoc. reflexivity.
Qed.

(** ** C6: what the synthesis accepts *)

(** The synthesis succeeds exactly when the provider answered, with a success
    status, a content type that contains [audio] once lower-cased, and bytes
    that pass [looksLikeWav]; it then returns the bytes as they came. *)
Lemma synthesizeWavStrict_ok_iff (o : Oracle) (txt model voice_ : string) (w : World)
    (buf : Buffer.t) :
  fst (synthesizeWavStrict o txt model voice_ w) = Ok buf <->
  exists r, speech o = Some r /\ ok r = true /\
    includes "audio" (toLowerCase (default EmptyString (contentType r))) = true /\
    looksLikeWav (body r) = true /\ buf = body r.
Proof.
  unfold synthesizeWavStrict, emit, bind, ret, throw. simpl.
  destruct (speech o) as [r|]; simpl.
  2: { split; [discriminate|]. intros (r & Hr & _). discriminate. }
  assert (Hct : match contentType r with Some c => or_else c EmptyString | None => EmptyString end
                = default EmptyString (contentType r)).
  { destruct (contentType r) as [c|]; simpl; [|reflexivity]. destruct c; reflexivity. }
  rewrite Hct. clear Hct.
  destruct (ok r) eqn:Hok; simpl.
  2: { split; [discriminate|]. intros (r' & Hr & Hk & _). inversion Hr; subst. congruence. }
  destruct (includes "audio" (toLowerCase (default EmptyString (contentType r)))) eqn:Hi; simpl.
  2: { split; [discriminate|]. intros (r' & Hr & _ & Hc & _). inversion Hr; subst. congruence. }
  destruct (looksLikeWav (body r)) eqn:Hl; simpl.
  2: { split; [discriminate|]. intros (r' & Hr & _ & _ & Hc & _). inversion Hr; subst. congruence. }
  split.
  - intros H. inversion H; subst. exists r. auto.
  - intros (r' & Hr & _ & _ & _ & ->). inversion Hr; subst. reflexivity.
Qed.

(** A buffer that carries the two tags as plain ASCII passes the test. *)
Lemma looksLikeWav_of_tags (buf : Buffer.t) :
  (12 <= length buf)%nat ->
  Buffer.slice 0 4 buf = Buffer.ofAscii "RIFF" ->
  Buffer.slice 8 12 buf = Buffer.ofAscii "WAVE" ->
  looksLikeWav buf = true.
Proof.
  intros Hlen H0 H8.
  do 12 (destruct buf as [|? buf]; [simpl in Hlen; lia|]).
  unfold Buffer.slice in H0, H8. simpl in H0, H8.
  inversion H0; inversion H8; subst. reflexivity.
Qed.

(** C6, at the failing input.  The provider answers 200 with content type
    [audio/wav] and the twelve bytes D2 C9 C6 C6 00 00 00 00 D7 C1 D6 C5.  The
    first four bytes are not the ASCII tag [RIFF] and the bytes 8 to 12 are not
    the ASCII tag [WAVE], yet the synthesis returns the buffer: the [ascii]
    decoding clears the top bit of every byte before the comparison. *)
Theorem synthesizeWavStrict_accepts_high_bit_tags :
  let r := Sample.audioResponse Sample.highBitWav in
  let o := {| now := 0; chat := None; speech := Some r; disk_ok := true;
              fresh_id := "id"; callUpdate := None; disk_left := None |} in
  Buffer.slice 0 4 (body r) <> Buffer.ofAscii "RIFF" /\
  Buffer.slice 8 12 (body r) <> Buffer.ofAscii "WAVE" /\
  fst (synthesizeWavStrict o "Hello" "gpt-4o-mini-tts" "coral" Sample.world)
    = Ok Sample.highBitWav.
Proof.
  cbv zeta. split; [vm_compute; discriminate|]. split; [vm_compute; discriminate|].
  vm_compute. reflexivity.
Qed.

(** The sample container passes the test. *)
Lemma looksLikeWav_sample : looksLikeWav Sample.wav = true.
Proof. vm_compute. reflexivity. Qed.

Lemma byte_of_nat_of_byte (b : Byte.byte) : Buffer.byte_of_nat (Buffer.nat_of_byte b) = b.
Proof.
  unfold Buffer.byte_of_nat, Buffer.nat_of_byte. rewrite N2Nat.id.
  pose proof (Byte.to_N_bounded b). rewrite N.mod_small by lia.
  rewrite Byte.of_to_N. reflexivity.
Qed.

Lemma seven_bit_letter (b : Byte.byte) (n : nat) :
  (Buffer.nat_of_byte b < 128)%nat -> (n < 128)%nat ->
  ascii_of_nat (Buffer.nat_of_byte b mod 128) = ascii_of_nat n ->
  b = Buffer.byte_of_nat n.
Proof.
  intros Hb Hn H. rewrite Nat.mod_small in H by exact Hb.
  apply (f_equal nat_of_ascii) in H. rewrite !nat_ascii_embedding in H by lia.
  rewrite <- H. symmetry. apply byte_of_nat_of_byte.
Qed.

(** On a buffer whose first twelve bytes are seven-bit, the test is the plain
    comparison of the two tags: there the byte check is as strict as it reads. *)
Lemma looksLikeWav_seven_bit (buf : Buffer.t) :
  Forall (fun b => (Buffer.nat_of_byte b < 128)%nat) (take 12 buf) ->
  looksLikeWav buf = true ->
  (12 <= length buf)%nat /\
  Buffer.slice 0 4 buf = Buffer.ofAscii "RIFF" /\
  Buffer.slice 8 12 buf = Buffer.ofAscii "WAVE".
Proof.
  intros H7 H. unfold looksLikeWav in H.
  apply andb_true_iff in H as [H H8]. apply andb_true_iff in H as [Hlen H0].
  apply Nat.leb_le in Hlen. apply String.eqb_eq in H0, H8.
  do 12 (destruct buf as [|? buf]; [simpl in Hlen; lia|]).
  split; [exact Hlen|].
  unfold Buffer.slice, Buffer.toStringAscii in *. cbn [take drop map string_of_list_ascii] in *.
  repeat match goal with
         | H : Forall _ (_ :: _) |- _ => apply Forall_cons in H as [? H]
         end.
  injection H0 as A0 A1 A2 A3. injection H8 as A8 A9 A10 A11.
  change "R"%char with (ascii_of_nat 82) in A0. change "I"%char with (ascii_of_nat 73) in A1.
  change "F"%char with (ascii_of_nat 70) in A2, A3.
  change "W"%char with (ascii_of_nat 87) in A8. change "A"%char with (ascii_of_nat 65) in A9.
  change "V"%char with (ascii_of_nat 86) in A10. change "E"%char with (ascii_of_nat 69) in A11.
  apply seven_bit_letter in A0, A1, A2, A3, A8, A9, A10, A11; try lia; try assumption.
  subst. split; reflexivity.
Qed.

(** ** C7: byte ranges on the audio route *)

Lemma span_digits_all (d : string) :
  Digits.allDigits d = true -> Digits.span_digits d = (d, EmptyString).
Proof.
  induction d as [|c d IH]; simpl; [reflexivity|].
  intros H. apply andb_true_iff in H as [Hc Hd]. rewrite Hc, (IH Hd). reflexivity.
Qed.

Lemma span_digits_dash (d r : string) :
  Digits.allDigits d = true ->
  Digits.span_digits (d +:+ String "-" r) = (d, String "-" r).
Proof.
  induction d as [|c d IH]; simpl; [reflexivity|].
  intros H. apply andb_true_iff in H as [Hc Hd]. rewrite Hc, (IH Hd). reflexivity.
Qed.

Lemma substring_all (s : string) : String.substring 0 (String.length s) s = s.
Proof. induction s; simpl; congruence. Qed.

Lemma matchRange_digits (m1 m2 : string) :
  Digits.allDigits m1 = true -> Digits.allDigits m2 = true ->
  matchRange ("bytes=" +:+ m1 +:+ "-" +:+ m2) = Some (m1, m2).
Proof.
  intros H1 H2. unfold matchRange.
  change (startsWith "bytes=" ("bytes=" +:+ m1 +:+ "-" +:+ m2)) with true. cbv iota.
  change (String.substring 6 (String.length ("bytes=" +:+ m1 +:+ "-" +:+ m2) - 6)
            ("bytes=" +:+ m1 +:+ "-" +:+ m2))
    with (String.substring 0 (String.length (m1 +:+ "-" +:+ m2) - 0) (m1 +:+ "-" +:+ m2)).
  rewrite Nat.sub_0_r, substring_all.
  change (m1 +:+ "-" +:+ m2) with (m1 +:+ String "-" m2).
  rewrite (span_digits_dash m1 m2 H1), (span_digits_all m2 H2). reflexivity.
Qed.

Lemma parseInt_acc_nonneg (l : list ascii) (acc : Z) :
  0 <= acc ->
  0 <= fold_left (fun a c => 10 * a + Z.of_nat (nat_of_ascii c - 48)) l acc.
Proof.
  revert acc. induction l as [|c l IH]; simpl; intros acc Ha; [exact Ha|].
  apply IH. lia.
Qed.

Lemma parseInt_nonneg (s : string) : 0 <= Digits.parseInt s.
Proof. apply parseInt_acc_nonneg. lia. Qed.

Lemma readRange_length (start end_ : Z) (content : Buffer.t) :
  0 <= start -> start <= end_ -> end_ < Z.of_nat (length content) ->
  Z.of_nat (length (readRange start end_ content)) = end_ - start + 1.
Proof.
  intros. unfold readRange. rewrite length_take, length_drop. lia.
Qed.

Lemma readRange_lookup (start end_ : Z) (content : Buffer.t) (i : nat) :
  0 <= start -> Z.of_nat i <= end_ - start ->
  readRange start end_ content !! i = content !! (Z.to_nat start + i)%nat.
Proof.
  intros. unfold readRange. rewrite lookup_take_lt by lia. apply lookup_drop.
Qed.

(** C7, as the code has it.  On a GET for an existing [.wav] file with a range
    header [bytes=m1-m2] (two groups of digits, either possibly empty), the
    start is [m1] or 0 and the end is [m2] or the last offset.  When
    [start <= end < size] the status is 206 and the body is exactly the
    [end - start + 1] bytes at offsets [start .. end], both included.
    Otherwise -- [start > end], or an end at or beyond the size, which is not
    clamped -- the reply is 416 with [Content-Range: bytes */size] and no body.
    In particular [bytes=0-9] on a file of 100 bytes gives status 206 and a
    body of 10 bytes, the first ten of the file. *)
Theorem serveAudio_range (files : gmap string Buffer.t) (f m1 m2 : string)
    (content : Buffer.t) :
  truthy f = true -> endsWith ".wav" f = true -> includes ".." f = false ->
  files !! f = Some content ->
  Digits.allDigits m1 = true -> Digits.allDigits m2 = true ->
  let total := Z.of_nat (length content) in
  let start := if truthy m1 then Digits.parseInt m1 else 0 in
  let end_ := if truthy m2 then Digits.parseInt m2 else total - 1 in
  let r := serveAudio files
             {| method := GET; file := f; range := Some ("bytes=" +:+ m1 +:+ "-" +:+ m2) |} in
  (start <= end_ < total ->
     code r = 206 /\
     payload r = Bytes (readRange start end_ content) /\
     Z.of_nat (length (readRange start end_ content)) = end_ - start + 1 /\
     (forall i : nat, Z.of_nat i <= end_ - start ->
        readRange start end_ content !! i = content !! (Z.to_nat start + i)%nat)) /\
  (end_ < start \/ total <= end_ ->
     code r = 416 /\
     headers r = baseHeaders ++ [("Content-Range", "bytes */" +:+ Digits.show total)] /\
     payload r = NoBody) /\
  (length content = 100%nat -> m1 = "0" -> m2 = "9" ->
     code r = 206 /\
     payload r = Bytes (take 10 content) /\
     length (take 10 content) = 10%nat).
Proof.
  intros Hf Hw Hd Hc H1 H2 total start end_ r.
  assert (Hstart : 0 <= start).
  { subst start. destruct (truthy m1); [apply parseInt_nonneg | lia]. }
  assert (Hr : r =
    if (end_ <? start) || (total <=? end_) then
      {| code := 416;
         headers := baseHeaders ++ [("Content-Range", "bytes */" +:+ Digits.show total)];
         payload := NoBody |}
    else
      {| code := 206; headers := []; payload := Bytes (readRange start end_ content) |}).
  { subst r. unfold serveAudio. cbn [file method range].
    rewrite Hf, Hw, Hd, Hc. cbn [negb orb].
    change (truthy ("bytes=" +:+ m1 +:+ "-" +:+ m2)) with true. cbv iota.
    rewrite (matchRange_digits m1 m2 H1 H2). reflexivity. }
  assert (Hserved : start <= end_ < total ->
     code r = 206 /\
     payload r = Bytes (readRange start end_ content) /\
     Z.of_nat (length (readRange start end_ content)) = end_ - start + 1 /\
     (forall i : nat, Z.of_nat i <= end_ - start ->
        readRange start end_ content !! i = content !! (Z.to_nat start + i)%nat)).
  { intros [Hse Het]. rewrite Hr.
    destruct (Z.ltb_spec end_ start); [lia|]. destruct (Z.leb_spec total end_); [lia|].
    cbn [orb code headers payload]. repeat split.
    - apply readRange_length; lia.
    - intros i Hi. apply readRange_lookup; lia. }
  split; [exact Hserved|]. split.
  - intros Hbad. rewrite Hr.
    destruct (Z.ltb_spec end_ start); destruct (Z.leb_spec total end_);
      cbn [orb code headers payload]; try (repeat split; fail); lia.
  - intros Hlen -> ->.
    assert (Hs : start = 0) by reflexivity.
    assert (He : end_ = 9) by reflexivity.
    assert (Ht : total = 100) by (subst total; rewrite Hlen; reflexivity).
    destruct Hserved as (Hcode & Hp & Hl & _); [lia|].
    split; [exact Hcode|]. split.
    + rewrite Hp, Hs, He. reflexivity.
    + rewrite length_take. lia.
Qed.

Lemma serveAudio_range_witness :
  let r := serveAudio {[ "reply.wav" := Sample.hundred ]}
             {| method := GET; file := "reply.wav"; range := Some "bytes=0-9" |} in
  code r = 206 /\
  payload r = Bytes (take 10 Sample.hundred) /\
  length (take 10 Sample.hundred) = 10%nat.
Proof.
  destruct (serveAudio_range {[ "reply.wav" := Sample.hundred ]} "reply.wav" "0" "9"
              Sample.hundred) as (_ & _ & H); try reflexivity.
  apply H; reflexivity.
Defined.

(** On the file of 100 bytes the range [bytes=0-199] is not cut down to
    [0-99]: the reply is 416 without a body. *)
Lemma range_beyond_size_not_clamped :
  let r := serveAudio {[ "reply.wav" := Sample.hundred ]}
             {| method := GET; file := "reply.wav"; range := Some "bytes=0-199" |} in
  code r = 416 /\
  headers r = baseHeaders ++ [("Content-Range", "bytes */100")] /\
  payload r = NoBody /\
  payload r <> Bytes (readRange 0 99 Sample.hundred).
Proof.
  cbv zeta. split; [vm_compute; reflexivity|]. split; [vm_compute; reflexivity|].
  split; [vm_compute; reflexivity|]. vm_compute. discriminate.
Qed.

(** ** C8: transcript text extraction *)

Lemma or_else_empty (s : string) : or_else s EmptyString = s.
Proof. destruct s; reflexivity. Qed.

(** C8, as the code has it.  The transcription data is the first of
    [TranscriptionData], [transcriptionData] that is present.  When it is not
    empty it is parsed as JSON, and nothing else is consulted: a parse failure
    gives the empty text; so does a payload that is not an object ([null], a
    boolean, a number, a string, an array); an object gives the string form of
    its [transcript] member when that is truthy, else of its [Transcript]
    member when that is truthy, else the empty text -- the two spellings only,
    so a member spelled otherwise (say [TRANSCRIPT]) is not read -- and the
    empty text when the chosen member has no string form (an object with a
    [toString] member of its own).  When the data is absent or empty the text
    is the first present of [TranscriptionText], [SpeechResult], [utterance],
    [transcript], [text]. *)
Theorem parseTranscriptionData_cases `{JsonRuntime} (body : Form) :
  let td := pick body dataKeys in
  (td <> EmptyString -> JSON_parse td = None ->
     parseTranscriptionData body = EmptyString) /\
  (td <> EmptyString ->
   forall v : JSONValue, JSON_parse td = Some v ->
     (forall fields : list (string * JSONValue), v <> JObject fields) ->
     parseTranscriptionData body = EmptyString) /\
  (td <> EmptyString ->
   forall fields : list (string * JSONValue), JSON_parse td = Some (JObject fields) ->
     let lower := Json.lookup_last "transcript" fields in
     let upper := Json.lookup_last "Transcript" fields in
     let chosen := if Json.truthy lower then lower
                   else if Json.truthy upper then upper else Json.Undefined in
     parseTranscriptionData body =
       match chosen with
       | Json.Value v => default EmptyString (Json.toString v)
       | Json.Undefined => EmptyString
       end /\
     (forall s : string, s <> EmptyString ->
        lower = Json.Value (JString s) ->
        parseTranscriptionData body = s) /\
     (forall s : string, s <> EmptyString ->
        Json.truthy lower = false ->
        upper = Json.Value (JString s) ->
        parseTranscriptionData body = s) /\
     (lower = Json.Undefined -> upper = Json.Undefined ->
      parseTranscriptionData body = EmptyString) /\
     (Json.truthy lower = false -> Json.truthy upper = false ->
      parseTranscriptionData body = EmptyString) /\
     (forall members : list (string * JSONValue),
        chosen = Json.Value (JObject members) ->
        parseTranscriptionData body =
          if Json.ownToString members then EmptyString else "[object Object]")) /\
  (td = EmptyString -> parseTranscriptionData body = pick body textKeys).
Proof.
  cbv zeta. unfold parseTranscriptionData. split; [|split; [|split]].
  - intros Ht Hp. apply truthy_true_iff in Ht. rewrite Ht, Hp. reflexivity.
  - intros Ht v Hp Hv. apply truthy_true_iff in Ht. rewrite Ht, Hp.
    destruct v; try reflexivity. exfalso. exact (Hv _ eq_refl).
  - intros Ht fields Hp. apply truthy_true_iff in Ht. rewrite Ht, Hp.
    cbn [Json.get]. unfold Json.firstTruthy.
    split.
    { destruct (if Json.truthy (Json.lookup_last "transcript" fields)
                then Json.lookup_last "transcript" fields
                else if Json.truthy (Json.lookup_last "Transcript" fields)
                     then Json.lookup_last "Transcript" fields else Json.Undefined);
        reflexivity. }
    split; [|split; [|split; [|split]]].
    + intros s Hs Hl. rewrite Hl. simpl.
      apply truthy_true_iff in Hs. rewrite Hs. reflexivity.
    + intros s Hs Hf Hl. rewrite Hl, Hf. simpl.
      apply truthy_true_iff in Hs. rewrite Hs. reflexivity.
    + intros H1 H2. rewrite H1, H2. reflexivity.
    + intros H1 H2. rewrite H1, H2. reflexivity.
    + intros members ->. cbn [Json.toString]. destruct (Json.ownToString members); reflexivity.
  - intros Ht. rewrite Ht. simpl. apply or_else_empty.
Qed.

Lemma parseTranscriptionData_cases_witness :
  @parseTranscriptionData JsonText.parse
    {[ "TranscriptionData" :=
         "{" +:+ Sample.quoted "Transcript" +:+ ":" +:+ Sample.quoted "hello there" +:+ "}" ]}
  = "hello there".
Proof.
  destruct (@parseTranscriptionData_cases JsonText.parse
    {[ "TranscriptionData" :=
         "{" +:+ Sample.quoted "Transcript" +:+ ":" +:+ Sample.quoted "hello there" +:+ "}" ]})
    as (_ & _ & H & _).
  destruct (H ltac:(vm_compute; discriminate) [("Transcript", JString "hello there")]
              ltac:(vm_compute; reflexivity)) as (_ & _ & H2 & _).
  apply H2; [discriminate | reflexivity | reflexivity].
Defined.

(** The transcript member is looked up under two spellings, not without regard
    to case: the payload [{"TRANSCRIPT":"hi"}] parses to an object with that
    member and yields the empty text.  And the fallback is taken not only when
    the transcription data is absent: an empty [TranscriptionData] field next
    to [TranscriptionText=hello] yields [hello]. *)
Lemma transcript_key_not_case_insensitive :
  let payload_ := "{" +:+ Sample.quoted "TRANSCRIPT" +:+ ":" +:+ Sample.quoted "hi" +:+ "}" in
  JsonText.parse payload_ = Some (JObject [("TRANSCRIPT", JString "hi")]) /\
  @parseTranscriptionData JsonText.parse {[ "TranscriptionData" := payload_ ]} = EmptyString /\
  @parseTranscriptionData JsonText.parse
    (<[ "TranscriptionData" := EmptyString ]> {[ "TranscriptionText" := "hello" ]}) = "hello".
Proof.
  cbv zeta. split; [vm_compute; reflexivity|]. split; vm_compute; reflexivity.
Qed.

(** The finer cases on concrete payloads: a payload as the transcription
    service sends it, with a confidence beside the transcript; a member that
    hides [toString] behind a number, on which the conversion throws; a payload
    that is a bare string; a member that is a plain object; a member that is a
    number. *)
Lemma parseTranscriptionData_samples :
  let data (td : string) : Form := {[ "TranscriptionData" := td ]} in
  let q := Sample.quoted in
  @parseTranscriptionData JsonText.parse
    (data ("{" +:+ q "transcript" +:+ ":" +:+ q "hello" +:+ "," +:+
           q "confidence" +:+ ":0.98}")) = "hello" /\
  @parseTranscriptionData JsonText.parse
    (data ("{" +:+ q "transcript" +:+ ":{" +:+ q "toString" +:+ ":1}}")) = EmptyString /\
  @parseTranscriptionData JsonText.parse (data (q "hello")) = EmptyString /\
  @parseTranscriptionData JsonText.parse
    (data ("{" +:+ q "transcript" +:+ ":{" +:+ q "a" +:+ ":1}}")) = "[object Object]" /\
  @parseTranscriptionData JsonText.parse
    (data ("{" +:+ q "transcript" +:+ ":0.50}")) = "0.5".
Proof. cbv zeta. repeat split; vm_compute; reflexivity. Qed.

(** ** C5: the signature verifier *)

Lemma zbyte_inj (a b : Byte.byte) : Crypto.zbyte a = Crypto.zbyte b -> a = b.
Proof.
  unfold Crypto.zbyte. intros H. apply N2Z.inj in H.
  pose proof (Byte.of_to_N a) as Ha. rewrite H, Byte.of_to_N in Ha. congruence.
Qed.

Lemma zbyte_nonneg (a : Byte.byte) : 0 <= Crypto.zbyte a.
Proof. unfold Crypto.zbyte. lia. Qed.

Lemma timingSafeEqual_acc_zero (a b : Buffer.t) (acc : Z) :
  length a = length b ->
  (Crypto.timingSafeEqual_acc acc a b = 0 <-> acc = 0 /\ a = b).
Proof.
  revert b acc. induction a as [|x a IH]; intros [|y b] acc Hlen; simpl in *; try discriminate.
  - split; [intros ->; auto | intros [-> _]; reflexivity].
  - rewrite IH by congruence. rewrite Z.lor_eq_0_iff. split.
    + intros [[-> Hx] ->]. apply Z.lxor_eq in Hx. apply zbyte_inj in Hx. subst. auto.
    + intros [-> Heq]. inversion Heq; subst. rewrite Z.lxor_nilpotent. auto.
Qed.

(** The comparison of the verifier -- the same length, then the constant-time
    comparison -- is equality of the two buffers. *)
Lemma constant_time_compare_eq (a b : Buffer.t) :
  (length a =? length b)%nat && Crypto.timingSafeEqual a b = true <-> a = b.
Proof.
  rewrite andb_true_iff, Nat.eqb_eq. unfold Crypto.timingSafeEqual. rewrite Z.eqb_eq. split.
  - intros [Hl H]. apply (timingSafeEqual_acc_zero a b 0 Hl) in H. tauto.
  - intros ->. split; [reflexivity|]. apply timingSafeEqual_acc_zero; auto.
Qed.

Lemma nat_of_byte_of_nat (n : nat) :
  (n < 256)%nat -> Buffer.nat_of_byte (Buffer.byte_of_nat n) = n.
Proof.
  intros Hn. unfold Buffer.nat_of_byte, Buffer.byte_of_nat.
  rewrite N.mod_small by lia.
  destruct (Byte.of_N (N.of_nat n)) as [b|] eqn:E.
  - apply Byte.to_of_N in E. rewrite E. lia.
  - apply Byte.of_N_None_iff in E. lia.
Qed.

Lemma nat_of_ascii_inj (a b : ascii) : nat_of_ascii a = nat_of_ascii b -> a = b.
Proof.
  intros H. rewrite <- (ascii_nat_embedding a), <- (ascii_nat_embedding b), H. reflexivity.
Qed.

Lemma utf8_unit_inj (a b : ascii) (r s : Buffer.t) :
  Buffer.utf8_unit a ++ r = Buffer.utf8_unit b ++ s -> a = b /\ r = s.
Proof.
  unfold Buffer.utf8_unit.
  pose proof (nat_ascii_bounded a) as Ha. pose proof (nat_ascii_bounded b) as Hb.
  assert (Hinj : nat_of_ascii a = nat_of_ascii b -> a = b) by apply nat_of_ascii_inj.
  remember (nat_of_ascii a) as n eqn:Dn. remember (nat_of_ascii b) as m eqn:Dm.
  clear Dn Dm.
  assert (Hn : (n / 64 < 4)%nat) by (apply Nat.Div0.div_lt_upper_bound; lia).
  assert (Hm : (m / 64 < 4)%nat) by (apply Nat.Div0.div_lt_upper_bound; lia).
  pose proof (Nat.mod_upper_bound n 64 ltac:(lia)) as Hn'.
  pose proof (Nat.mod_upper_bound m 64 ltac:(lia)) as Hm'.
  pose proof (Nat.div_mod_eq n 64) as En. pose proof (Nat.div_mod_eq m 64) as Em.
  remember (n / 64)%nat as nq. remember (n mod 64)%nat as nr.
  remember (m / 64)%nat as mq. remember (m mod 64)%nat as mr.
  remember (192 + nq)%nat as n1 eqn:En1. remember (128 + nr)%nat as n2 eqn:En2.
  remember (192 + mq)%nat as m1 eqn:Em1. remember (128 + mr)%nat as m2 eqn:Em2.
  destruct (Nat.ltb_spec n 128) as [L1|L1]; destruct (Nat.ltb_spec m 128) as [L2|L2];
    cbn [app]; intros Heq.
  - injection Heq as H1 H2.
    apply (f_equal Buffer.nat_of_byte) in H1. rewrite !nat_of_byte_of_nat in H1 by lia.
    split; [apply Hinj; exact H1 | exact H2].
  - injection Heq as H1 _.
    apply (f_equal Buffer.nat_of_byte) in H1. rewrite !nat_of_byte_of_nat in H1 by lia. lia.
  - injection Heq as H1 _.
    apply (f_equal Buffer.nat_of_byte) in H1. rewrite !nat_of_byte_of_nat in H1 by lia. lia.
  - injection Heq as H1 H2 H3.
    apply (f_equal Buffer.nat_of_byte) in H1. rewrite !nat_of_byte_of_nat in H1 by lia.
    apply (f_equal Buffer.nat_of_byte) in H2. rewrite !nat_of_byte_of_nat in H2 by lia.
    split; [apply Hinj; lia | exact H3].
Qed.

Lemma fromString_inj (a b : string) : Buffer.fromString a = Buffer.fromString b -> a = b.
Proof.
  revert b. induction a as [|c a IH]; intros [|d b] H; simpl in H.
  - reflexivity.
  - unfold Buffer.utf8_unit in H. destruct (nat_of_ascii d <? 128)%nat; discriminate.
  - unfold Buffer.utf8_unit in H. destruct (nat_of_ascii c <? 128)%nat; discriminate.
  - apply utf8_unit_inj in H as [-> H]. f_equal. apply IH. exact H.
Qed.

Lemma ascii_compare_trans_le (a b c : ascii) :
  Ascii.compare a b <> Gt -> Ascii.compare b c <> Gt -> Ascii.compare a c <> Gt.
Proof.
  unfold Ascii.compare. rewrite !N.compare_gt_iff. lia.
Qed.

Lemma str_compare_trans (a b c : string) :
  String.compare a b <> Gt -> String.compare b c <> Gt -> String.compare a c <> Gt.
Proof.
  revert b c. induction a as [|x a IH]; intros [|y b] [|z c]; simpl; try congruence.
  unfold Ascii.compare.
  destruct (N.compare_spec (N_of_ascii x) (N_of_ascii y)) as [E1|L1|G1]; try congruence;
  destruct (N.compare_spec (N_of_ascii y) (N_of_ascii z)) as [E2|L2|G2]; try congruence;
  destruct (N.compare_spec (N_of_ascii x) (N_of_ascii z)) as [E3|L3|G3]; try congruence;
    try lia; try (intros; discriminate).
  apply IH.
Qed.

Lemma str_le_iff (a b : string) : str_le a b <-> String.compare a b <> Gt.
Proof.
  unfold str_le, String.leb. destruct (String.compare a b); split; congruence.
Qed.

#[local] Instance str_le_total : Total str_le.
Proof. intros a b. apply String.leb_total. Qed.

#[local] Instance str_le_trans : Transitive str_le.
Proof. intros a b c. rewrite !str_le_iff. apply str_compare_trans. Qed.

(** The signed keys are the keys of the body, each once, in increasing order. *)
Lemma sortedKeys_spec (body : Form) :
  StronglySorted str_le (sortedKeys body) /\
  NoDup (sortedKeys body) /\
  (forall k : string, k ∈ sortedKeys body <-> is_Some (body !! k)).
Proof.
  unfold sortedKeys. split; [apply StronglySorted_merge_sort; apply _|].
  pose proof (merge_sort_Permutation str_le (map fst (map_to_list body))) as P.
  split.
  - rewrite P. apply NoDup_fst_map_to_list.
  - intros k. rewrite P. rewrite list_elem_of_fmap. split.
    + intros ([k' v] & -> & Hin). apply elem_of_map_to_list in Hin. simpl. eauto.
    + intros [v Hv]. exists (k, v). split; [reflexivity|]. apply elem_of_map_to_list. exact Hv.
Qed.

(** C5.  With the flag off the verifier answers true whatever else it is
    given.  With the flag on it answers false when the signature header, the
    token or the URL is missing or empty.  Otherwise it answers true exactly
    when the signature header equals, as a string of bytes, the base64 form of
    the HMAC-SHA1, keyed by the token, of the URL followed by every key of the
    body in increasing order, each key followed at once by its value. *)
Theorem validateTwilioSignature_spec :
  (forall (tok url : option string) (hdrs : Form) (body_ : option Form),
     validateTwilioSignature false tok url hdrs body_ = true) /\
  (forall (tok url : option string) (hdrs : Form) (body_ : option Form),
     absent (header_or hdrs "x-twilio-signature" "X-Twilio-Signature") = true \/
     absent tok = true \/ absent url = true ->
     validateTwilioSignature true tok url hdrs body_ = false) /\
  (forall (tok url sig : string) (hdrs : Form) (body_ : option Form),
     header_or hdrs "x-twilio-signature" "X-Twilio-Signature" = Some sig ->
     sig <> EmptyString -> tok <> EmptyString -> url <> EmptyString ->
     (validateTwilioSignature true (Some tok) (Some url) hdrs body_ = true <->
      Crypto.base64
        (Crypto.hmac_sha1 (Buffer.fromString tok)
           (Buffer.fromString
              (url +:+ concat_all
                 (match body_ with
                  | Some b => map (fun k => k +:+ default "undefined" (b !! k)) (sortedKeys b)
                  | None => []
                  end)))) = sig)) /\
  (forall b : Form,
     StronglySorted str_le (sortedKeys b) /\ NoDup (sortedKeys b) /\
     (forall k : string, k ∈ sortedKeys b <-> is_Some (b !! k))).
Proof.
  split; [reflexivity|]. split; [|split; [|apply sortedKeys_spec]].
  - intros tok url hdrs body_ H. unfold validateTwilioSignature. cbn [negb].
    destruct H as [H|[H|H]]; rewrite H; rewrite ?orb_true_r; reflexivity.
  - intros tok url sig hdrs body_ Hh Hs Ht Hu. unfold validateTwilioSignature. cbn [negb].
    rewrite Hh. unfold absent.
    apply truthy_true_iff in Hs, Ht, Hu. rewrite Hs, Ht, Hu. cbn [negb orb template].
    rewrite constant_time_compare_eq. split.
    + intros H. apply fromString_inj in H. exact H.
    + intros H. f_equal. exact H.
Qed.

(** The request of Twilio's documentation: the token [12345], the URL
    [https://mycompany.com/myapp.php?foo=1&bar=2] and five form fields. *)
Lemma validateTwilioSignature_spec_witness :
  validateTwilioSignature true (Some "12345")
    (Some "https://mycompany.com/myapp.php?foo=1&bar=2")
    {[ "x-twilio-signature" := "RSOYDt4T1cUTdK1PDd93/VVr8B8=" ]}
    (Some (<[ "To" := "+18005551212" ]> (<[ "From" := "+14158675309" ]>
           (<[ "Digits" := "1234" ]> (<[ "Caller" := "+14158675309" ]>
           {[ "CallSid" := "CA1234567890ABCDE" ]}))))) = true.
Proof.
  destruct validateTwilioSignature_spec as (_ & _ & H & _).
  apply (H "12345" "https://mycompany.com/myapp.php?foo=1&bar=2" "RSOYDt4T1cUTdK1PDd93/VVr8B8=").
  - vm_compute. reflexivity.
  - discriminate.
  - discriminate.
  - discriminate.
  - vm_compute. reflexivity.
Defined.

(** ** C1, C9: the greeting, once per call *)

(** The markup of the call-start handler once trimmed. *)
Lemma voiceTwiml_eq (g attrs : string) :
  voiceTwiml g attrs =
  "<Response>" +:+ nl +:+
  sp 8 +:+ g +:+ nl +:+
  sp 8 +:+ "<Start>" +:+ nl +:+
  sp 10 +:+ "<Transcription " +:+ attrs +:+ " />" +:+ nl +:+
  sp 8 +:+ "</Start>" +:+ nl +:+
  sp 8 +:+ "<Pause length=" +:+ dq +:+ "60" +:+ dq +:+ "/>" +:+ nl +:+
  sp 6 +:+ "</Response>".
Proof.
  unfold voiceTwiml, trim.
  match goal with
  | |- context [trimStart (nl +:+ sp 6 +:+ "<Response>" +:+ ?r)] =>
      change (trimStart (nl +:+ sp 6 +:+ "<Response>" +:+ r)) with ("<Response>" +:+ r)
  end.
  set (A := "<Response>" +:+ nl +:+ sp 8 +:+ g +:+ nl +:+ sp 8 +:+ "<Start>" +:+ nl +:+
            sp 10 +:+ "<Transcription " +:+ attrs).
  set (C := " />" +:+ nl +:+ sp 8 +:+ "</Start>" +:+ nl +:+
            sp 8 +:+ "<Pause length=" +:+ dq +:+ "60" +:+ dq +:+ "/>" +:+ nl +:+
            sp 6 +:+ "</Response>" +:+ nl +:+ sp 4).
  set (C' := " />" +:+ nl +:+ sp 8 +:+ "</Start>" +:+ nl +:+
             sp 8 +:+ "<Pause length=" +:+ dq +:+ "60" +:+ dq +:+ "/>" +:+ nl +:+
             sp 6 +:+ "</Response>").
  transitivity (trimEnd (A +:+ C)).
  { f_equal. unfold A, C. rewrite !append_assoc. reflexivity. }
  rewrite (trimEnd_app_lit A C C'); [| vm_compute; reflexivity | vm_compute; discriminate].
  unfold A, C'. rewrite !append_assoc. reflexivity.
Qed.

Lemma includes_skip_char (f c : ascii) (p s : string) :
  Ascii.eqb f c = false -> includes (String f p) (String c s) = includes (String f p) s.
Proof. intros H. rewrite includes_cons. simpl. rewrite H. reflexivity. Qed.

(** Escaped text opens no element: a pattern that begins with [<] does not
    start inside it. *)
Lemma includes_escapeXml (p x s : string) :
  includes (String "<" p) (escapeXml x +:+ s) = includes (String "<" p) s.
Proof.
  induction x as [|c x IH]; [reflexivity|].
  cbn [escapeXml]. rewrite append_assoc. unfold escapeChar.
  destruct (Ascii.eqb_spec c "<"); [simpl; exact IH|].
  destruct (Ascii.eqb_spec c ">"); [simpl; exact IH|].
  destruct (Ascii.eqb_spec c "&"); [simpl; exact IH|].
  destruct (Ascii.eqb_spec c (ascii_of_nat 34)); [simpl; exact IH|].
  destruct (Ascii.eqb_spec c "'"); [simpl; exact IH|].
  cbn [String.append]. rewrite includes_skip_char; [exact IH|].
  apply Ascii.eqb_neq. congruence.
Qed.


Lemma no_block_without_greeting (cfg : Config) (url : string) :
  hasGreetingBlock
    (textReply 200 "text/xml" (voiceTwiml EmptyString (buildTranscriptionAttrs cfg url))) = false.
Proof.
  unfold hasGreetingBlock, textReply. cbn [payload]. rewrite voiceTwiml_eq.
  unfold buildTranscriptionAttrs. rewrite !append_assoc.
  apply orb_false_iff. split.
  - do 2 (simpl; rewrite includes_escapeXml). reflexivity.
  - do 2 (simpl; rewrite includes_escapeXml). reflexivity.
Qed.

Lemma block_with_play (u attrs : string) :
  hasGreetingBlock
    (textReply 200 "text/xml" (voiceTwiml ("<Play>" +:+ u +:+ "</Play>") attrs)) = true.
Proof.
  unfold hasGreetingBlock, textReply. cbn [payload]. rewrite voiceTwiml_eq.
  apply orb_true_iff. left.
  apply (includes_app_r "<Play>" ("<Response>" +:+ nl +:+ sp 8)).
  rewrite !append_assoc. apply includes_here.
Qed.

Lemma block_with_say (u attrs : string) :
  hasGreetingBlock
    (textReply 200 "text/xml" (voiceTwiml ("<Say>" +:+ u +:+ "</Say>") attrs)) = true.
Proof.
  unfold hasGreetingBlock, textReply. cbn [payload]. rewrite voiceTwiml_eq.
  apply orb_true_iff. right.
  apply (includes_app_r "<Say>" ("<Response>" +:+ nl +:+ sp 8)).
  rewrite !append_assoc. apply includes_here.
Qed.

(** What the call-start handler does, by cases. *)
Lemma voice_rejected (cfg : Config) (o : Oracle) (req : Webhook) (w : World) :
  signatureOk cfg req = false ->
  twilioVoice cfg o req w = (Ok (textReply 403 "text/plain" "Invalid Twilio signature"), w).
Proof. intros H. unfold twilioVoice, try_catch, ret. rewrite H. reflexivity. Qed.

Lemma voice_no_greeting (cfg : Config) (o : Oracle) (req : Webhook) (w : World) :
  signatureOk cfg req = true ->
  callSidOf req = EmptyString \/ callSidOf req ∈ greeted w ->
  twilioVoice cfg o req w =
    (Ok (textReply 200 "text/xml"
           (voiceTwiml EmptyString
              (buildTranscriptionAttrs cfg (absoluteUrl (host cfg) "/twilio/transcription")))),
     w).
Proof.
  intros Hs Hc. unfold twilioVoice, try_catch, bind, get_world, ret. rewrite Hs.
  fold (callSidOf req). cbn [negb].
  assert (Hp : truthy (callSidOf req) && negb (bool_decide (callSidOf req ∈ greeted w)) = false).
  { destruct Hc as [->|Hin]; [reflexivity|].
    rewrite (bool_decide_eq_true_2 _ Hin). apply andb_false_r. }
  rewrite Hp. reflexivity.
Qed.

Lemma voice_greeting (cfg : Config) (o : Oracle) (req : Webhook) (w : World) :
  signatureOk cfg req = true ->
  callSidOf req <> EmptyString -> callSidOf req ∉ greeted w ->
  exists (g : string) (w' : World),
    twilioVoice cfg o req w =
      (Ok (textReply 200 "text/xml"
             (voiceTwiml g
                (buildTranscriptionAttrs cfg (absoluteUrl (host cfg) "/twilio/transcription")))),
       w') /\
    greeted w' = {[ callSidOf req ]} ∪ greeted w /\
    recentByCall w' = recentByCall w /\
    (g = "<Play>" +:+ escapeXml (absoluteUrl (host cfg) "/audio/greeting.wav") +:+ "</Play>" \/
     g = "<Say>" +:+ escapeXml (or_else (greeting cfg) defaultGreeting) +:+ "</Say>").
Proof.
  intros Hs Hc Hn. unfold twilioVoice, try_catch, bind, get_world, ret. rewrite Hs.
  fold (callSidOf req). cbn [negb].
  apply truthy_true_iff in Hc. rewrite Hc, (bool_decide_eq_false_2 _ Hn). cbn [negb andb].
  unfold addGreeted, ensureGreetingWav, synthesizeWavStrict, saveGreeting, writeFileSync,
    writeFile, emit, bind, get_world, ret, throw, hasGreeting.
  cbn [audio greeted recentByCall calls].
  destruct (audio w !! "greeting.wav"); cbn [negb].
  { eexists; eexists. split; [reflexivity|]. cbn [greeted recentByCall]. auto. }
  destruct (speech o) as [r|]; cbn [negb].
  2: { eexists; eexists. split; [reflexivity|]. cbn [greeted recentByCall]. auto. }
  destruct (ok r); cbn [negb].
  2: { eexists; eexists. split; [reflexivity|]. cbn [greeted recentByCall]. auto. }
  destruct (includes "audio" _); cbn [negb].
  2: { eexists; eexists. split; [reflexivity|]. cbn [greeted recentByCall]. auto. }
  destruct (looksLikeWav (body r)); cbn [negb].
  2: { eexists; eexists. split; [reflexivity|]. cbn [greeted recentByCall]. auto. }
  destruct (disk_ok o); [|destruct (disk_left o)].
  all: eexists; eexists; (split; [reflexivity|]); cbn [greeted recentByCall]; auto.
Qed.

Lemma finalize_greeted (cfg : Config) (o : Oracle) (callSid txt : string) (w : World) :
  greeted (snd (finalizeUtterance cfg o callSid txt w)) = greeted w.
Proof.
  unfold_pipeline.
  destruct (truthy (trim txt)); simpl; [|reflexivity].
  destruct (shouldProcess (now o) callSid txt (recentByCall w)) as [[|] m]; simpl;
    [|reflexivity].
  break_oracle; reflexivity.
Qed.

Lemma transcription_greeted `{JsonRuntime} (cfg : Config) (o : Oracle) (req : Webhook)
    (w : World) :
  greeted (snd (twilioTranscription cfg o req w)) = greeted w.
Proof.
  unfold twilioTranscription, try_catch, bind, ret, throw.
  destruct (signatureOk cfg req); simpl; [|reflexivity].
  destruct (reqBody req) as [b|]; simpl; [|reflexivity].
  destruct (truthy (firstField (b !! "CallSid") (b !! "callSid"))); simpl; [|reflexivity].
  destruct (isFinalEvent b); simpl; [|reflexivity].
  destruct (truthy (trim (parseTranscriptionData b))); simpl; [|reflexivity].
  pose proof (finalize_greeted cfg o (firstField (b !! "CallSid") (b !! "callSid"))
                (trim (parseTranscriptionData b)) w) as Hg.
  destruct (finalizeUtterance cfg o _ _ w) as [[out|e] w']; simpl in *; exact Hg.
Qed.

(** What one request does to the greeted set: a call-start that passes the
    signature gate with a fresh, non-empty identifier adds that identifier;
    nothing else changes the set. *)
Lemma handle_greeted `{JsonRuntime} (cfg : Config) (o : Oracle) (ev : Event) (w : World) :
  greeted (snd (handle cfg o ev w)) =
    match ev with
    | CallStart req =>
        if signatureOk cfg req && truthy (callSidOf req)
        then {[ callSidOf req ]} ∪ greeted w else greeted w
    | _ => greeted w
    end.
Proof.
  destruct ev as [req|req|req|req]; unfold handle.
  - destruct (signatureOk cfg req) eqn:Hs; cbn [andb].
    + destruct (truthy (callSidOf req)) eqn:Ht.
      * destruct (decide (callSidOf req ∈ greeted w)) as [Hin|Hn].
        -- rewrite (voice_no_greeting cfg o req w Hs (or_intror Hin)). simpl. set_solver.
        -- apply truthy_true_iff in Ht.
           destruct (voice_greeting cfg o req w Hs Ht Hn) as (g & w' & -> & Hg & _).
           simpl. exact Hg.
      * apply truthy_false_iff in Ht.
        rewrite (voice_no_greeting cfg o req w Hs (or_introl Ht)). reflexivity.
    + rewrite (voice_rejected cfg o req w Hs). reflexivity.
  - unfold twilioResume, try_catch, ret.
    destruct (negb (signatureOk cfg req)); reflexivity.
  - pose proof (transcription_greeted cfg o req w) as Hg.
    destruct (twilioTranscription cfg o req w) as [[[r out]|e] w']; exact Hg.
  - reflexivity.
Qed.

Lemma handle_greeted_mono `{JsonRuntime} (cfg : Config) (o : Oracle) (ev : Event) (w : World)
    (c : string) :
  c ∈ greeted w -> c ∈ greeted (snd (handle cfg o ev w)).
Proof.
  intros Hc. rewrite handle_greeted. destruct ev; try exact Hc.
  destruct (signatureOk cfg req && truthy (callSidOf req)); set_solver.
Qed.

Lemma handle_greeted_other `{JsonRuntime} (cfg : Config) (o : Oracle) (ev : Event) (w : World)
    (c : string) :
  startsCall cfg c ev = false -> c ∉ greeted w -> c ∉ greeted (snd (handle cfg o ev w)).
Proof.
  intros Hs Hc. rewrite handle_greeted. destruct ev; try exact Hc.
  simpl in Hs. destruct (signatureOk cfg req); cbn [andb] in *; [|exact Hc].
  destruct (truthy (callSidOf req)); [|exact Hc].
  apply String.eqb_neq in Hs. set_solver.
Qed.

Lemma run_cons `{JsonRuntime} (cfg : Config) (o : Oracle) (ev : Event)
    (rest : list (Oracle * Event)) (w : World) :
  run cfg ((o, ev) :: rest) w =
    (fst (handle cfg o ev w) :: fst (run cfg rest (snd (handle cfg o ev w))),
     snd (run cfg rest (snd (handle cfg o ev w)))).
Proof.
  simpl. destruct (handle cfg o ev w) as [r w']. simpl.
  destruct (run cfg rest w') as [rs w'']. reflexivity.
Qed.

Lemma run_greeted_mono `{JsonRuntime} (cfg : Config) (evs : list (Oracle * Event)) (w : World)
    (c : string) :
  c ∈ greeted w -> c ∈ greeted (snd (run cfg evs w)).
Proof.
  revert w. induction evs as [|[o ev] rest IH]; intros w Hc; [exact Hc|].
  rewrite run_cons. simpl. apply IH. apply handle_greeted_mono. exact Hc.
Qed.

Lemma run_greeted_other `{JsonRuntime} (cfg : Config) (evs : list (Oracle * Event)) (w : World)
    (c : string) :
  Forall (fun oe => startsCall cfg c (snd oe) = false) evs ->
  c ∉ greeted w -> c ∉ greeted (snd (run cfg evs w)).
Proof.
  intros Hall. revert w. induction Hall as [|[o ev] rest Hev _ IH]; intros w Hc; [exact Hc|].
  rewrite run_cons. simpl. apply IH. apply handle_greeted_other; assumption.
Qed.

Lemma handle_callstart_block `{JsonRuntime} (cfg : Config) (o : Oracle) (req : Webhook)
    (w : World) :
  hasGreetingBlock (fst (handle cfg o (CallStart req) w)) =
    signatureOk cfg req && truthy (callSidOf req) &&
    negb (bool_decide (callSidOf req ∈ greeted w)).
Proof.
  unfold handle.
  destruct (signatureOk cfg req) eqn:Hs; cbn [andb].
  - destruct (truthy (callSidOf req)) eqn:Ht; cbn [andb].
    + destruct (decide (callSidOf req ∈ greeted w)) as [Hin|Hn].
      * rewrite (voice_no_greeting cfg o req w Hs (or_intror Hin)).
        rewrite (bool_decide_eq_true_2 _ Hin). apply no_block_without_greeting.
      * apply truthy_true_iff in Ht.
        destruct (voice_greeting cfg o req w Hs Ht Hn) as (g & w' & -> & _ & _ & [->| ->]);
          rewrite (bool_decide_eq_false_2 _ Hn); [apply block_with_play | apply block_with_say].
    + apply truthy_false_iff in Ht.
      rewrite (voice_no_greeting cfg o req w Hs (or_introl Ht)).
      apply no_block_without_greeting.
  - rewrite (voice_rejected cfg o req w Hs). reflexivity.
Qed.

(** C1.  Take a call identifier [c], not empty and not yet greeted, and a
    sequence of requests of any kind: first some that contain no call-start
    for [c], then a call-start for [c], then any requests at all, then another
    call-start for [c].  The first call-start finds [c] absent, inserts it and
    answers with a greeting block; [c] is still in the set when the later
    call-start arrives, which leaves the set as it is and answers without a
    greeting block. *)
Theorem greeting_once `{JsonRuntime} (cfg : Config) (c : string)
    (pre mid : list (Oracle * Event)) (o1 o2 : Oracle) (req1 req2 : Webhook) (w : World) :
  c <> EmptyString ->
  c ∉ greeted w ->
  Forall (fun oe => startsCall cfg c (snd oe) = false) pre ->
  startsCall cfg c (CallStart req1) = true ->
  startsCall cfg c (CallStart req2) = true ->
  let w0 := snd (run cfg pre w) in
  let r1 := fst (handle cfg o1 (CallStart req1) w0) in
  let w1 := snd (handle cfg o1 (CallStart req1) w0) in
  let w2 := snd (run cfg mid w1) in
  let r2 := fst (handle cfg o2 (CallStart req2) w2) in
  let w3 := snd (handle cfg o2 (CallStart req2) w2) in
  (c ∉ greeted w0) /\
  greeted w1 = {[ c ]} ∪ greeted w0 /\ hasGreetingBlock r1 = true /\
  (c ∈ greeted w2) /\
  greeted w3 = greeted w2 /\ hasGreetingBlock r2 = false.
Proof.
  intros Hc Hw Hpre H1 H2. cbv zeta.
  simpl in H1, H2. apply andb_true_iff in H1 as [S1 E1], H2 as [S2 E2].
  apply String.eqb_eq in E1, E2.
  assert (Ht1 : truthy (callSidOf req1) = true) by (apply truthy_true_iff; congruence).
  assert (Ht2 : truthy (callSidOf req2) = true) by (apply truthy_true_iff; congruence).
  pose proof (run_greeted_other cfg pre w c Hpre Hw) as H0.
  split; [exact H0|].
  assert (G1 : greeted (snd (handle cfg o1 (CallStart req1) (snd (run cfg pre w)))) =
               {[ c ]} ∪ greeted (snd (run cfg pre w))).
  { rewrite handle_greeted, S1, Ht1, E1. reflexivity. }
  split; [exact G1|]. split.
  { rewrite handle_callstart_block, S1, Ht1, E1. rewrite (bool_decide_eq_false_2 _ H0).
    reflexivity. }
  assert (G2 : c ∈ greeted (snd (run cfg mid
                 (snd (handle cfg o1 (CallStart req1) (snd (run cfg pre w))))))).
  { apply run_greeted_mono. rewrite G1. set_solver. }
  split; [exact G2|]. split.
  - rewrite handle_greeted, S2, Ht2, E2. cbn [andb]. set_solver.
  - rewrite handle_callstart_block, S2, Ht2, E2. rewrite (bool_decide_eq_true_2 _ G2).
    reflexivity.
Qed.

Lemma greeting_once_witness :
  let start := CallStart (Sample.post {[ "CallSid" := "CA1" ]}) in
  let mid := [(Sample.allWell 2000,
               Transcript (Sample.post (<[ "Final" := "true" ]>
                 (<[ "TranscriptionText" := "hello" ]> {[ "CallSid" := "CA1" ]}))))] in
  let r1 := fst (@handle JsonText.parse Sample.cfg (Sample.allWell 1000) start Sample.world) in
  let w1 := snd (@handle JsonText.parse Sample.cfg (Sample.allWell 1000) start Sample.world) in
  let w2 := snd (@run JsonText.parse Sample.cfg mid w1) in
  let r2 := fst (@handle JsonText.parse Sample.cfg (Sample.allWell 9000) start w2) in
  let w3 := snd (@handle JsonText.parse Sample.cfg (Sample.allWell 9000) start w2) in
  ("CA1" ∉ greeted Sample.world) /\
  greeted w1 = {[ "CA1" ]} ∪ greeted Sample.world /\ hasGreetingBlock r1 = true /\
  ("CA1" ∈ greeted w2) /\
  greeted w3 = greeted w2 /\ hasGreetingBlock r2 = false.
Proof.
  apply (@greeting_once JsonText.parse Sample.cfg "CA1" []
           [(Sample.allWell 2000,
             Transcript (Sample.post (<[ "Final" := "true" ]>
               (<[ "TranscriptionText" := "hello" ]> {[ "CallSid" := "CA1" ]}))))]
           (Sample.allWell 1000) (Sample.allWell 9000)
           (Sample.post {[ "CallSid" := "CA1" ]}) (Sample.post {[ "CallSid" := "CA1" ]})
           Sample.world).
  - discriminate.
  - apply not_elem_of_empty.
  - constructor.
  - vm_compute. reflexivity.
  - vm_compute. reflexivity.
Defined.

(** C9.  Call-start requests without a call identifier -- no [CallSid] or
    [callSid] field, or empty ones -- never change the greeted set and are
    never answered with a greeting block, however many of them arrive; and a
    call-start that is answered with a greeting block carries an identifier
    that is not empty. *)
Theorem empty_callSid_never_greets `{JsonRuntime} (cfg : Config) :
  (forall (evs : list (Oracle * Event)) (w : World),
     Forall (fun oe => exists req, snd oe = CallStart req /\ callSidOf req = EmptyString) evs ->
     greeted (snd (run cfg evs w)) = greeted w /\
     Forall (fun r => hasGreetingBlock r = false) (fst (run cfg evs w))) /\
  (forall (o : Oracle) (req : Webhook) (w : World),
     hasGreetingBlock (fst (handle cfg o (CallStart req) w)) = true ->
     callSidOf req <> EmptyString).
Proof.
  split.
  - intros evs w Hall. revert w.
    induction Hall as [|[o ev] rest (req & Hev & Hc) _ IH]; intros w.
    + split; [reflexivity | constructor].
    + simpl in Hev. subst ev. rewrite run_cons. cbn [fst snd].
      assert (Hg : greeted (snd (handle cfg o (CallStart req) w)) = greeted w).
      { rewrite handle_greeted, Hc. cbn [truthy]. rewrite andb_false_r. reflexivity. }
      destruct (IH (snd (handle cfg o (CallStart req) w))) as [IHg IHr].
      split; [congruence|]. constructor; [|exact IHr].
      rewrite handle_callstart_block, Hc. cbn [truthy]. rewrite andb_false_r. reflexivity.
  - intros o req w Hb. rewrite handle_callstart_block in Hb.
    apply andb_true_iff in Hb as [Hb _]. apply andb_true_iff in Hb as [_ Hb].
    apply truthy_true_iff. exact Hb.
Qed.

Lemma empty_callSid_never_greets_witness :
  let evs := [(Sample.allWell 1000, CallStart (Sample.post ∅));
              (Sample.allWell 2000, CallStart (Sample.post {[ "CallSid" := EmptyString ]}));
              (Sample.allWell 3000, CallStart (Sample.post {[ "From" := "+14158675309" ]}))] in
  greeted (snd (@run JsonText.parse Sample.cfg evs Sample.world)) = greeted Sample.world /\
  Forall (fun r => hasGreetingBlock r = false)
         (fst (@run JsonText.parse Sample.cfg evs Sample.world)).
Proof.
  destruct (@empty_callSid_never_greets JsonText.parse Sample.cfg) as [H _].
  apply H. repeat constructor.
  - exists (Sample.post ∅). split; reflexivity.
  - exists (Sample.post {[ "CallSid" := EmptyString ]}). split; reflexivity.
  - exists (Sample.post {[ "From" := "+14158675309" ]}). split; reflexivity.
Defined.

(** ** C4: where the redirect returns *)

Ltac break_oracle_in H :=
  repeat match type of H with
    | context [match ?x with _ => _ end] =>
        match type of x with
        | option _ => destruct x eqn:?
        | bool => destruct x eqn:?
        | prod _ _ => is_var x; destruct x
        end; simpl in H
    end.

(** C4, as the code has it.  After a finalize that ends with the reply
    redirected, the trace has grown by exactly the chat request, the speech
    request and one call update; the markup of that update plays the URL of the
    artifact just written under the drawn id and then redirects, by POST, to
    the call-start path [/twilio/voice] of the configured host.  That endpoint
    answers a call already in the greeted set without a greeting block. *)
Theorem finalize_redirect_markup `{JsonRuntime} (cfg : Config) (o : Oracle)
    (callSid txt : string) (w w' : World) :
  finalizeUtterance cfg o callSid txt w = (Ok Replied, w') ->
  (exists (answer : string) (r : HttpResponse),
    let playUrl := absoluteUrl (host cfg) ("/audio/" +:+ fresh_id o +:+ ".wav") in
    speech o = Some r /\
    audio w' !! (fresh_id o +:+ ".wav") = Some (body r) /\
    calls w' = calls w ++
      [ChatRequest (chatModel cfg) (system_prompt cfg) txt;
       SpeechRequest (ttsModel cfg) (voice cfg) (slice 0 (responseCap cfg) answer);
       CallUpdate ("https://api.twilio.com/2010-04-01/Accounts/" +:+
                   template (accountSid cfg) +:+ "/Calls/" +:+ callSid +:+ ".json")
                  (playThenRedirect playUrl (absoluteUrl (host cfg) "/twilio/voice"))]) /\
  (forall (o' : Oracle) (req : Webhook),
     callSidOf req ∈ greeted w ->
     hasGreetingBlock (fst (handle cfg o' (CallStart req) w')) = false).
Proof.
  intros Hf. split.
  2: { intros o' req Hin. rewrite handle_callstart_block.
       pose proof (finalize_greeted cfg o callSid txt w) as Hg. rewrite Hf in Hg.
       simpl in Hg. rewrite Hg, (bool_decide_eq_true_2 _ Hin). apply andb_false_r. }
  cbv zeta. rewrite <- (redirectTwiml_eq (host cfg)).
  unfold_pipeline.
  destruct (truthy (trim txt)); simpl in Hf; [|discriminate].
  destruct (shouldProcess (now o) callSid txt (recentByCall w)) as [b m].
  destruct b; simpl in Hf; [|discriminate].
  break_oracle_in Hf; try discriminate.
  all: inversion Hf; subst; clear Hf.
  all: first
    [ eexists; eexists; split; [reflexivity|]; split; [apply lookup_insert_eq|];
      cbn [calls]; rewrite <- !app_assoc; reflexivity
    | exists EmptyString; eexists; split; [reflexivity|]; split; [apply lookup_insert_eq|];
      cbn [calls]; rewrite <- !app_assoc; reflexivity ].
Qed.

Lemma finalize_redirect_markup_witness :
  let w' := snd (finalizeUtterance Sample.cfg (Sample.allWell 1000) "CA1" "hello" Sample.world) in
  (exists (answer : string) (r : HttpResponse),
    speech (Sample.allWell 1000) = Some r /\
    audio w' !! "m1k2j3-0a1b2c3d.wav" = Some (body r) /\
    calls w' =
      [ChatRequest "gpt-4.1-mini" "You are a helpful, concise, friendly voice assistant." "hello";
       SpeechRequest "gpt-4o-mini-tts" "coral" (slice 0 600 answer);
       CallUpdate "https://api.twilio.com/2010-04-01/Accounts/AC1/Calls/CA1.json"
         (playThenRedirect "https://voice.example.com/audio/m1k2j3-0a1b2c3d.wav"
            "https://voice.example.com/twilio/voice")]) /\
  (forall (o' : Oracle) (req : Webhook),
     callSidOf req ∈ greeted Sample.world ->
     hasGreetingBlock (fst (@handle JsonText.parse Sample.cfg o' (CallStart req) w')) = false).
Proof.
  apply (@finalize_redirect_markup JsonText.parse Sample.cfg (Sample.allWell 1000)
           "CA1" "hello" Sample.world).
  reflexivity.
Defined.

(** The markup sent for the sample call names the call-start path and nowhere
    the resume path: the claim that the call returns to the resume endpoint
    fails on it. *)
Lemma redirect_returns_to_voice_not_resume :
  exists (w' : World) (url twiml : string),
    finalizeUtterance Sample.cfg (Sample.allWell 1000) "CA1" "hello" Sample.world
      = (Ok Replied, w') /\
    last (calls w') = Some (CallUpdate url twiml) /\
    twiml <> playThenRedirect "https://voice.example.com/audio/m1k2j3-0a1b2c3d.wav"
               (absoluteUrl (host Sample.cfg) "/twilio/resume") /\
    includes "/twilio/resume" twiml = false /\
    includes "https://voice.example.com/twilio/voice</Redirect>" twiml = true.
Proof.
  eexists. eexists. eexists. split; [vm_compute; reflexivity|].
  split; [vm_compute; reflexivity|].
  split; [vm_compute; discriminate|].
  split; vm_compute; reflexivity.
Qed.

(** ** The scenario of the specification, end to end *)

(** A call starts and is greeted; it starts again (a redirect back) and is not;
    a final transcript reaches the chat and speech providers and redirects the
    call; the same transcript half a second later reaches nobody. *)
Lemma end_to_end_scenario :
  let start := CallStart (Sample.post {[ "CallSid" := "CA1" ]}) in
  let said := Transcript (Sample.post (<[ "Final" := "true" ]>
                (<[ "TranscriptionText" := "hello" ]> {[ "CallSid" := "CA1" ]}))) in
  let result := @run JsonText.parse Sample.cfg
                  [(Sample.allWell 1000, start); (Sample.allWell 2000, start);
                   (Sample.allWell 3000, said); (Sample.allWell 3500, said)]
                  Sample.world in
  map hasGreetingBlock (fst result) = [true; false; false; false] /\
  map code (fst result) = [200; 200; 204; 204] /\
  greeted (snd result) = {[ "CA1" ]} ∪ ∅ /\
  calls (snd result) =
    [SpeechRequest "gpt-4o-mini-tts" "coral" "Hello! How can I help?";
     ChatRequest "gpt-4.1-mini" "You are a helpful, concise, friendly voice assistant." "hello";
     SpeechRequest "gpt-4o-mini-tts" "coral" "Hi there";
     CallUpdate "https://api.twilio.com/2010-04-01/Accounts/AC1/Calls/CA1.json"
       (playThenRedirect "https://voice.example.com/audio/m1k2j3-0a1b2c3d.wav"
          "https://voice.example.com/twilio/voice")].
Proof.
  cbv zeta. split; [vm_compute; reflexivity|]. split; [vm_compute; reflexivity|].
  split; [reflexivity|]. vm_compute. reflexivity.
Qed.

(** * Further properties of the code *)

(** ** Escaping and field lookup *)

Lemma list_ascii_app (a b : string) :
  list_ascii_of_string (a +:+ b) = list_ascii_of_string a ++ list_ascii_of_string b.
Proof. induction a as [|c a IH]; simpl; [reflexivity|]. rewrite IH. reflexivity. Qed.

Lemma escapeChar_no_markup (c0 c : ascii) :
  isMarkupChar c -> ~ In c (list_ascii_of_string (escapeChar c0)).
Proof.
  intros Hc. unfold escapeChar.
  destruct (Ascii.eqb_spec c0 "<"); [destruct Hc as [->|[->|[->| ->]]]; simpl; intuition discriminate|].
  destruct (Ascii.eqb_spec c0 ">"); [destruct Hc as [->|[->|[->| ->]]]; simpl; intuition discriminate|].
  destruct (Ascii.eqb_spec c0 "&"); [destruct Hc as [->|[->|[->| ->]]]; simpl; intuition discriminate|].
  destruct (Ascii.eqb_spec c0 (ascii_of_nat 34));
    [destruct Hc as [->|[->|[->| ->]]]; simpl; intuition discriminate|].
  destruct (Ascii.eqb_spec c0 "'"); [destruct Hc as [->|[->|[->| ->]]]; simpl; intuition discriminate|].
  simpl. intros [->|[]]. destruct Hc as [->|[->|[->| ->]]]; congruence.
Qed.

(** X1.  Escaped text carries no angle bracket, no double quote and no
    apostrophe, whatever the input: it cannot close the attribute or the
    element it is placed in. *)
Theorem escapeXml_no_markup (s : string) (c : ascii) :
  isMarkupChar c -> ~ In c (list_ascii_of_string (escapeXml s)).
Proof.
  intros Hc. induction s as [|c0 s IH]; [intros []|].
  cbn [escapeXml]. rewrite list_ascii_app, in_app_iff. intros [H|H]; [|exact (IH H)].
  exact (escapeChar_no_markup c0 c Hc H).
Qed.

Lemma escapeXml_no_markup_witness :
  ~ In (ascii_of_nat 34)
      (list_ascii_of_string (escapeXml ("en" +:+ dq +:+ "><Play>x</Play>"))).
Proof.
  apply (escapeXml_no_markup ("en" +:+ dq +:+ "><Play>x</Play>") (ascii_of_nat 34)).
  right. right. left. reflexivity.
Defined.

Lemma escapeChar_inj (c d : ascii) (x y : string) :
  escapeChar c +:+ x = escapeChar d +:+ y -> c = d /\ x = y.
Proof.
  unfold escapeChar.
  destruct (Ascii.eqb_spec c "<"); destruct (Ascii.eqb_spec d "<");
    [intros H; simpl in H; injection H; intros; subst; auto| | |].
  all: destruct (Ascii.eqb_spec c ">"); destruct (Ascii.eqb_spec d ">").
  all: destruct (Ascii.eqb_spec c "&"); destruct (Ascii.eqb_spec d "&").
  all: destruct (Ascii.eqb_spec c (ascii_of_nat 34)); destruct (Ascii.eqb_spec d (ascii_of_nat 34)).
  all: destruct (Ascii.eqb_spec c "'"); destruct (Ascii.eqb_spec d "'").
  all: intros H; simpl in H; try discriminate H; subst; try congruence.
  all: try (injection H; intros; subst; split; congruence).
Qed.

Lemma escapeXml_inj (a b : string) : escapeXml a = escapeXml b -> a = b.
Proof.
  revert b. induction a as [|c a IH]; intros [|d b] H; simpl in H.
  - reflexivity.
  - exfalso. unfold escapeChar in H.
    repeat match type of H with context [if ?t then _ else _] => destruct t end;
      discriminate H.
  - exfalso. unfold escapeChar in H.
    repeat match type of H with context [if ?t then _ else _] => destruct t end;
      discriminate H.
  - apply escapeChar_inj in H as [-> H]. f_equal. apply IH. exact H.
Qed.

(** X2.  Escaping loses nothing: two different texts have different escaped
    forms, so a text that already looks escaped is escaped again and not
    confused with the text it spells. *)
Theorem escapeXml_injective (a b : string) : a <> b -> escapeXml a <> escapeXml b.
Proof. intros Hne H. apply Hne. apply escapeXml_inj. exact H. Qed.

Lemma escapeXml_injective_witness : escapeXml "a<b" <> escapeXml "a&lt;b".
Proof. apply (escapeXml_injective "a<b" "a&lt;b"). discriminate. Defined.

Lemma pick_insert_other (body : Form) (keys : list string) (k v : string) :
  ~ In k keys -> pick (<[k := v]> body) keys = pick body keys.
Proof.
  induction keys as [|k0 keys IH]; simpl; [reflexivity|].
  intros Hn. assert (k <> k0) by (intros ->; apply Hn; left; reflexivity).
  rewrite lookup_insert_ne by assumption. rewrite IH by tauto. reflexivity.
Qed.

Lemma pick_delete_other (body : Form) (keys : list string) (k : string) :
  ~ In k keys -> pick (delete k body) keys = pick body keys.
Proof.
  induction keys as [|k0 keys IH]; simpl; [reflexivity|].
  intros Hn. assert (k <> k0) by (intros ->; apply Hn; left; reflexivity).
  rewrite lookup_delete_ne by assumption. rewrite IH by tauto. reflexivity.
Qed.

(** X3.  The classifier reads fourteen field names and nothing else: adding,
    changing or removing any other field of the payload changes neither the
    finality of the event nor the text extracted from it. *)
Theorem classifier_ignores_other_fields `{JsonRuntime} (body : Form) (k v : string) :
  ~ In k (finalKeys ++ eventKeys ++ statusKeys ++ dataKeys ++ textKeys) ->
  isFinalEvent (<[k := v]> body) = isFinalEvent body /\
  parseTranscriptionData (<[k := v]> body) = parseTranscriptionData body /\
  isFinalEvent (delete k body) = isFinalEvent body /\
  parseTranscriptionData (delete k body) = parseTranscriptionData body.
Proof.
  intros Hn. rewrite !in_app_iff in Hn.
  unfold isFinalEvent, parseTranscriptionData.
  rewrite !pick_insert_other, !pick_delete_other by tauto. auto.
Qed.

Lemma classifier_ignores_other_fields_witness :
  isFinalEvent (<[ "AccountSid" := "AC1" ]> {[ "Final" := "true" ]}) =
    isFinalEvent {[ "Final" := "true" ]} /\
  @parseTranscriptionData JsonText.parse (<[ "AccountSid" := "AC1" ]> {[ "Final" := "true" ]}) =
    @parseTranscriptionData JsonText.parse {[ "Final" := "true" ]} /\
  isFinalEvent (delete "AccountSid" ({[ "Final" := "true" ]} : Form)) =
    isFinalEvent {[ "Final" := "true" ]} /\
  @parseTranscriptionData JsonText.parse (delete "AccountSid" ({[ "Final" := "true" ]} : Form)) =
    @parseTranscriptionData JsonText.parse {[ "Final" := "true" ]}.
Proof.
  apply (@classifier_ignores_other_fields JsonText.parse {[ "Final" := "true" ]} "AccountSid" "AC1").
  simpl. intuition discriminate.
Defined.

(** ** The audio route beyond satisfiable ranges *)

Lemma startsWith_split (p s : string) :
  startsWith p s = true -> s = p +:+ String.substring (String.length p) (String.length s - String.length p) s.
Proof.
  revert s. induction p as [|a p IH]; intros s H.
  - simpl. rewrite Nat.sub_0_r, substring_all. reflexivity.
  - destruct s as [|b s]; simpl in H; [discriminate|].
    apply andb_true_iff in H as [Hab Hp]. apply Ascii.eqb_eq in Hab. subst b.
    simpl. f_equal. apply IH. exact Hp.
Qed.

Lemma span_digits_split (s d r : string) :
  Digits.span_digits s = (d, r) -> s = d +:+ r /\ Digits.allDigits d = true.
Proof.
  revert d r. induction s as [|c s IH]; intros d r H; simpl in H.
  - inversion H; subst. auto.
  - destruct (Digits.isDigit c) eqn:Hc.
    + destruct (Digits.span_digits s) as [d' r'] eqn:E. inversion H; subst.
      destruct (IH d' r eq_refl) as [-> Hd]. simpl. rewrite Hc, Hd. auto.
    + inversion H; subst. auto.
Qed.

Lemma matchRange_some (r m1 m2 : string) :
  matchRange r = Some (m1, m2) ->
  r = "bytes=" +:+ m1 +:+ "-" +:+ m2 /\
  Digits.allDigits m1 = true /\ Digits.allDigits m2 = true.
Proof.
  unfold matchRange. destruct (startsWith "bytes=" r) eqn:Hp; [|discriminate].
  apply startsWith_split in Hp.
  set (rest := String.substring (String.length "bytes=") (String.length r - String.length "bytes=") r) in *.
  change (String.substring 6 (String.length r - 6) r) with rest.
  destruct (Digits.span_digits rest) as [d1 r1] eqn:E1.
  apply span_digits_split in E1 as [Hrest Hd1].
  destruct r1 as [|c r2]; [discriminate|].
  destruct (Ascii.eqb_spec c "-"); [subst c|].
  2: { destruct c as [[] [] [] [] [] [] [] []]; try discriminate; congruence. }
  destruct (Digits.span_digits r2) as [d2 r3] eqn:E2.
  apply span_digits_split in E2 as [Hr2 Hd2].
  destruct r3; intros H; inversion H; subst m1 m2.
  rewrite append_nil_r in Hr2. subst r2.
  split; [|auto]. rewrite Hp, Hrest. reflexivity.
Qed.

(** X4.  The range pattern accepts exactly the headers made of [bytes=], a
    possibly empty run of decimal digits, one dash and a second possibly empty
    run of digits, with nothing before, between or after; it captures the two
    runs. *)
Theorem matchRange_exact (r m1 m2 : string) :
  matchRange r = Some (m1, m2) <->
  r = "bytes=" +:+ m1 +:+ "-" +:+ m2 /\
  Digits.allDigits m1 = true /\ Digits.allDigits m2 = true.
Proof.
  split; [apply matchRange_some|].
  intros (-> & H1 & H2). apply matchRange_digits; assumption.
Qed.

Lemma matchRange_exact_witness : matchRange "bytes=10-" = Some ("10", EmptyString).
Proof.
  apply (matchRange_exact "bytes=10-" "10" EmptyString). repeat split; reflexivity.
Defined.

Lemma readRange_segment (start end_ : Z) (content : Buffer.t) :
  exists pre post : Buffer.t, content = pre ++ readRange start end_ content ++ post.
Proof.
  unfold readRange.
  exists (take (Z.to_nat start) content),
         (drop (Z.to_nat (end_ - start + 1)) (drop (Z.to_nat start) content)).
  rewrite take_drop, take_drop. reflexivity.
Qed.

(** X5.  Whatever the request, bytes are served only from a file that exists
    in the audio directory under a name that ends in [.wav] and contains no
    [..], and the bytes served are a contiguous piece of that file: the route
    never reads outside the name it validated nor past the file. *)
Theorem serveAudio_serves_only_validated (files : gmap string Buffer.t) (req : AudioRequest)
    (b : Buffer.t) :
  payload (serveAudio files req) = Bytes b ->
  endsWith ".wav" (file req) = true /\
  includes ".." (file req) = false /\
  method req = GET /\
  exists content pre post : Buffer.t,
    files !! file req = Some content /\ content = pre ++ b ++ post.
Proof.
  unfold serveAudio.
  destruct (truthy (file req)); cbn [negb orb]; [|discriminate].
  destruct (endsWith ".wav" (file req)); cbn [negb orb]; [|discriminate].
  destruct (includes ".." (file req)); [discriminate|].
  destruct (files !! file req) as [content|]; [|discriminate].
  assert (Hwhole : Bytes content = Bytes b ->
            true = true /\ false = false /\ GET = GET /\
            exists c pre post : Buffer.t, Some content = Some c /\ c = pre ++ b ++ post).
  { intros H. inversion H; subst. repeat split.
    exists b, [], []. rewrite app_nil_r. auto. }
  destruct (method req); [|discriminate].
  destruct (range req) as [r|]; [|exact Hwhole].
  destruct (truthy r); [|exact Hwhole].
  destruct (matchRange r) as [[m1 m2]|]; [|exact Hwhole].
  match goal with |- context [if ?c then _ else _] => destruct c end; [discriminate|].
  cbn [payload]. intros H. inversion H; subst. repeat split.
  match goal with
  | |- context [readRange ?s ?e content] =>
      destruct (readRange_segment s e content) as (pre & post & Hseg);
      exists content, pre, post; auto
  end.
Qed.

Lemma serveAudio_serves_only_validated_witness :
  endsWith ".wav" "reply.wav" = true /\
  includes ".." "reply.wav" = false /\
  GET = GET /\
  exists content pre post : Buffer.t,
    ({[ "reply.wav" := Sample.hundred ]} : gmap string Buffer.t) !! "reply.wav" = Some content /\
    content = pre ++ replicate 10 Byte.x41 ++ post.
Proof.
  apply (serveAudio_serves_only_validated {[ "reply.wav" := Sample.hundred ]}
           {| method := GET; file := "reply.wav"; range := Some "bytes=0-9" |}
           (replicate 10 Byte.x41)).
  reflexivity.
Defined.

(** X6.  A GET whose range header is not of the single-range form (another
    unit, several ranges, stray characters) is answered with status 200 and
    the whole file as the body: the header is ignored, not refused. *)
Theorem serveAudio_unparsed_range (files : gmap string Buffer.t) (f r : string)
    (content : Buffer.t) :
  truthy f = true -> endsWith ".wav" f = true -> includes ".." f = false ->
  files !! f = Some content ->
  (forall m1 m2 : string,
     Digits.allDigits m1 = true -> Digits.allDigits m2 = true ->
     r <> "bytes=" +:+ m1 +:+ "-" +:+ m2) ->
  let reply := serveAudio files {| method := GET; file := f; range := Some r |} in
  code reply = 200 /\ payload reply = Bytes content.
Proof.
  intros H1 H2 H3 H4 Hn. cbv zeta. unfold serveAudio. cbn [file method range].
  rewrite H1, H2, H3, H4. cbn [negb orb].
  destruct (truthy r); [|split; reflexivity].
  destruct (matchRange r) as [[m1 m2]|] eqn:E; [|split; reflexivity].
  apply matchRange_some in E as (-> & Hd1 & Hd2).
  exfalso. exact (Hn m1 m2 Hd1 Hd2 eq_refl).
Qed.

Lemma serveAudio_unparsed_range_witness :
  let reply := serveAudio {[ "reply.wav" := Sample.hundred ]}
                 {| method := GET; file := "reply.wav"; range := Some "bytes=0-9,20-29" |} in
  code reply = 200 /\ payload reply = Bytes Sample.hundred.
Proof.
  apply (serveAudio_unparsed_range {[ "reply.wav" := Sample.hundred ]} "reply.wav"
           "bytes=0-9,20-29" Sample.hundred); try reflexivity.
  intros m1 m2 Hd1 Hd2 E.
  pose proof (matchRange_digits m1 m2 Hd1 Hd2) as Hm. rewrite <- E in Hm.
  vm_compute in Hm. discriminate Hm.
Defined.

Lemma serveAudio_ranged (files : gmap string Buffer.t) (f m1 m2 : string)
    (content : Buffer.t) :
  truthy f = true -> endsWith ".wav" f = true -> includes ".." f = false ->
  files !! f = Some content ->
  Digits.allDigits m1 = true -> Digits.allDigits m2 = true ->
  let total := Z.of_nat (length content) in
  let start := if truthy m1 then Digits.parseInt m1 else 0 in
  let end_ := if truthy m2 then Digits.parseInt m2 else total - 1 in
  serveAudio files {| method := GET; file := f; range := Some ("bytes=" +:+ m1 +:+ "-" +:+ m2) |} =
    if (end_ <? start) || (total <=? end_) then
      {| code := 416;
         headers := baseHeaders ++ [("Content-Range", "bytes */" +:+ Digits.show total)];
         payload := NoBody |}
    else
      {| code := 206; headers := []; payload := Bytes (readRange start end_ content) |}.
Proof.
  intros Hf Hw Hd Hc H1 H2. cbv zeta. unfold serveAudio. cbn [file method range].
  rewrite Hf, Hw, Hd, Hc. cbn [negb orb].
  change (truthy ("bytes=" +:+ m1 +:+ "-" +:+ m2)) with true. cbv iota.
  rewrite (matchRange_digits m1 m2 H1 H2). reflexivity.
Qed.

(** X7.  No range can be satisfied on an empty file: every single-range
    request on a file of zero bytes, open-ended ones included, is answered 416
    with [Content-Range: bytes */0]. *)
Theorem serveAudio_empty_file (files : gmap string Buffer.t) (f m1 m2 : string) :
  truthy f = true -> endsWith ".wav" f = true -> includes ".." f = false ->
  files !! f = Some [] ->
  Digits.allDigits m1 = true -> Digits.allDigits m2 = true ->
  serveAudio files {| method := GET; file := f; range := Some ("bytes=" +:+ m1 +:+ "-" +:+ m2) |} =
    {| code := 416; headers := baseHeaders ++ [("Content-Range", "bytes */0")];
       payload := NoBody |}.
Proof.
  intros Hf Hw Hd Hc H1 H2.
  rewrite (serveAudio_ranged files f m1 m2 [] Hf Hw Hd Hc H1 H2). cbn [length Z.of_nat].
  pose proof (parseInt_nonneg m1). pose proof (parseInt_nonneg m2).
  destruct (truthy m1); destruct (truthy m2);
    match goal with
    | |- (if (?e <? ?s) || (?t <=? ?e) then _ else _) = _ =>
        destruct (Z.ltb_spec e s); destruct (Z.leb_spec t e); cbn [orb]; try reflexivity; lia
    end.
Qed.

Lemma serveAudio_empty_file_witness :
  serveAudio {[ "empty.wav" := [] ]}
    {| method := GET; file := "empty.wav"; range := Some "bytes=0-" |} =
    {| code := 416; headers := baseHeaders ++ [("Content-Range", "bytes */0")];
       payload := NoBody |}.
Proof.
  apply (serveAudio_empty_file {[ "empty.wav" := [] ]} "empty.wav" "0" EmptyString);
    reflexivity.
Defined.

(** X8.  A range without a start, [bytes=-N], is read as [bytes=0-N]: when
    [N] is within the file the reply is 206 with the first [N + 1] bytes, not
    the last [N] bytes. *)
Theorem serveAudio_suffix_range_is_prefix (files : gmap string Buffer.t) (f m2 : string)
    (content : Buffer.t) :
  truthy f = true -> endsWith ".wav" f = true -> includes ".." f = false ->
  files !! f = Some content ->
  Digits.allDigits m2 = true -> m2 <> EmptyString ->
  Digits.parseInt m2 < Z.of_nat (length content) ->
  let r := serveAudio files {| method := GET; file := f; range := Some ("bytes=-" +:+ m2) |} in
  code r = 206 /\ payload r = Bytes (take (S (Z.to_nat (Digits.parseInt m2))) content).
Proof.
  intros Hf Hw Hd Hc H2 Hne Hlt. cbv zeta.
  change ("bytes=-" +:+ m2) with ("bytes=" +:+ EmptyString +:+ "-" +:+ m2).
  rewrite (serveAudio_ranged files f EmptyString m2 content Hf Hw Hd Hc eq_refl H2).
  apply truthy_true_iff in Hne. rewrite Hne. cbn [truthy].
  pose proof (parseInt_nonneg m2).
  destruct (Z.ltb_spec (Digits.parseInt m2) 0); [lia|].
  destruct (Z.leb_spec (Z.of_nat (length content)) (Digits.parseInt m2)); [lia|].
  cbn [orb code payload]. split; [reflexivity|].
  unfold readRange. rewrite drop_0. do 2 f_equal. lia.
Qed.

Lemma serveAudio_suffix_range_is_prefix_witness :
  let r := serveAudio {[ "reply.wav" := Sample.hundred ]}
             {| method := GET; file := "reply.wav"; range := Some "bytes=-9" |} in
  code r = 206 /\ payload r = Bytes (take 10 Sample.hundred).
Proof.
  apply (serveAudio_suffix_range_is_prefix {[ "reply.wav" := Sample.hundred ]} "reply.wav" "9"
           Sample.hundred); try reflexivity.
  discriminate.
Defined.



(** ** The transcript and resume handlers *)

Lemma trimEnd_cons (c : ascii) (t : string) :
  trimEnd (String c t) =
    match trimEnd t with
    | EmptyString => if isWhite c then EmptyString else String c EmptyString
    | t' => String c t'
    end.
Proof. reflexivity. Qed.

Lemma trimEnd_idem (s : string) : trimEnd (trimEnd s) = trimEnd s.
Proof.
  induction s as [|c t IH]; [reflexivity|].
  rewrite trimEnd_cons. destruct (trimEnd t) as [|c' t'] eqn:E.
  - destruct (isWhite c) eqn:Hc; [reflexivity|]. rewrite trimEnd_cons. cbn [trimEnd].
    rewrite Hc. reflexivity.
  - rewrite trimEnd_cons, IH. reflexivity.
Qed.

Lemma trimEnd_keeps_head (c : ascii) (t : string) :
  isWhite c = false -> exists t', trimEnd (String c t) = String c t'.
Proof.
  intros Hc. rewrite trimEnd_cons. destruct (trimEnd t); rewrite ?Hc; eauto.
Qed.

Lemma trimStart_fixed (c : ascii) (t : string) :
  isWhite c = false -> trimStart (String c t) = String c t.
Proof. intros Hc. cbn [trimStart]. rewrite Hc. reflexivity. Qed.

Lemma trimStart_head (s : string) :
  trimStart s = EmptyString \/
  exists c t, trimStart s = String c t /\ isWhite c = false.
Proof.
  induction s as [|c t IH]; [left; reflexivity|].
  cbn [trimStart]. destruct (isWhite c) eqn:Hc; [exact IH|]. right. eauto.
Qed.

Lemma trim_idem (s : string) : trim (trim s) = trim s.
Proof.
  unfold trim. destruct (trimStart_head s) as [E|(c & t & E & Hc)]; rewrite E.
  - reflexivity.
  - destruct (trimEnd_keeps_head c t Hc) as (t' & E'). rewrite E'.
    rewrite (trimStart_fixed c t' Hc), <- E'. apply trimEnd_idem.
Qed.

Lemma finalize_trace (cfg : Config) (o : Oracle) (callSid txt : string) (w : World) :
  calls (snd (finalizeUtterance cfg o callSid txt w)) = calls w \/
  exists rest : list Call,
    calls (snd (finalizeUtterance cfg o callSid txt w)) =
      calls w ++ ChatRequest (chatModel cfg) (system_prompt cfg) txt :: rest.
Proof.
  unfold_pipeline.
  destruct (truthy (trim txt)); simpl; [|left; reflexivity].
  destruct (shouldProcess (now o) callSid txt (recentByCall w)) as [[|] m]; simpl;
    [|left; reflexivity].
  right. break_oracle; cbn [calls snd]; rewrite <- ?app_assoc; eexists; reflexivity.
Qed.

Lemma transcription_eq `{JsonRuntime} (cfg : Config) (o : Oracle) (req : Webhook) (w : World) :
  twilioTranscription cfg o req w =
    let ack := {| code := 204; headers := []; payload := NoBody |} in
    if negb (signatureOk cfg req) then (Ok (ack, InvalidSignature), w)
    else
      match reqBody req with
      | None => (Ok (ack, Failed TypeError), w)
      | Some b =>
          let c := firstField (b !! "CallSid") (b !! "callSid") in
          let t := trim (parseTranscriptionData b) in
          if negb (truthy c) then (Ok (ack, NoCallSid), w)
          else if negb (isFinalEvent b) then (Ok (ack, NonFinal), w)
          else if negb (truthy t) then (Ok (ack, NoText), w)
          else
            match finalizeUtterance cfg o c t w with
            | (Ok out, w') => (Ok (ack, out), w')
            | (Throw e, w') => (Ok (ack, Failed e), w')
            end
      end.
Proof.
  unfold twilioTranscription, try_catch, bind, ret, throw. cbv zeta.
  destruct (signatureOk cfg req); cbn [negb]; [|reflexivity].
  destruct (reqBody req) as [b|]; [|reflexivity].
  destruct (truthy (firstField (b !! "CallSid") (b !! "callSid"))); cbn [negb]; [|reflexivity].
  destruct (isFinalEvent b); cbn [negb]; [|reflexivity].
  destruct (truthy (trim (parseTranscriptionData b))); cbn [negb]; [|reflexivity].
  destruct (finalizeUtterance cfg o _ _ w) as [[out|e] w']; reflexivity.
Qed.

Lemma finalize_cases (cfg : Config) (o : Oracle) (callSid txt : string) (w : World) :
  (trim txt = EmptyString /\ finalizeUtterance cfg o callSid txt w = (Ok Blank, w)) \/
  finalizeUtterance cfg o callSid txt w = (Ok Duplicate, w) \/
  (exists w', finalizeUtterance cfg o callSid txt w = (Ok Replied, w')) \/
  (exists e w', finalizeUtterance cfg o callSid txt w = (Throw e, w')).
Proof.
  destruct (trim txt) as [|c0 t0] eqn:Ht.
  { left. split; [reflexivity|]. apply finalize_blank. exact Ht. }
  assert (Hne : trim txt <> EmptyString) by (rewrite Ht; discriminate).
  right.
  destruct (fst (shouldProcess (now o) callSid txt (recentByCall w))) eqn:Hs.
  2: { left. apply finalize_suppressed; assumption. }
  right. unfold_pipeline. rewrite Ht. cbn [truthy negb].
  destruct (shouldProcess (now o) callSid txt (recentByCall w)) as [b m].
  simpl in Hs. subst b. cbn [negb].
  break_oracle; eauto.
Qed.

(** X9.  The transcript webhook answers 204 without a body in every case and
    never throws: a rejected signature, a missing body, a dropped event and a
    failure anywhere in finalize all end in the same acknowledgement.  Its text
    is trimmed before it is tested, so finalize never sees a blank text from
    it; and unless the outcome is a reply or a caught failure the world is
    exactly what it was. *)
Theorem transcription_always_acks `{JsonRuntime} (cfg : Config) (o : Oracle) (req : Webhook)
    (w : World) :
  exists (out : Outcome) (w' : World),
    twilioTranscription cfg o req w =
      (Ok ({| code := 204; headers := []; payload := NoBody |}, out), w') /\
    out <> Blank /\
    (out = Replied \/ (exists e, out = Failed e) \/ w' = w).
Proof.
  rewrite transcription_eq. cbv zeta.
  destruct (signatureOk cfg req); cbn [negb];
    [|eexists; eexists; split; [reflexivity|]; split; [discriminate|auto]].
  destruct (reqBody req) as [b|];
    [|eexists; eexists; split; [reflexivity|]; split; [discriminate|eauto]].
  destruct (truthy (firstField (b !! "CallSid") (b !! "callSid"))); cbn [negb];
    [|eexists; eexists; split; [reflexivity|]; split; [discriminate|auto]].
  destruct (isFinalEvent b); cbn [negb];
    [|eexists; eexists; split; [reflexivity|]; split; [discriminate|auto]].
  destruct (truthy (trim (parseTranscriptionData b))) eqn:Ht; cbn [negb];
    [|eexists; eexists; split; [reflexivity|]; split; [discriminate|auto]].
  destruct (finalize_cases cfg o (firstField (b !! "CallSid") (b !! "callSid"))
              (trim (parseTranscriptionData b)) w)
    as [[Hb _]|[E|[[w' E]|(e & w' & E)]]].
  - rewrite trim_idem in Hb. apply truthy_true_iff in Ht. contradiction.
  - rewrite E. eexists; eexists. split; [reflexivity|]. split; [discriminate|auto].
  - rewrite E. eexists; eexists. split; [reflexivity|]. split; [discriminate|auto].
  - rewrite E. eexists; eexists. split; [reflexivity|]. split; [discriminate|eauto].
Qed.

(** X10.  A transcript webhook reaches the outside only for an event that
    passed the signature gate, names a call, is final and has text once
    trimmed; the first call it then makes is the chat request, whose user
    text is the trimmed transcript.  Interim results never get there. *)
Theorem transcription_forwards_only_finals `{JsonRuntime} (cfg : Config) (o : Oracle)
    (req : Webhook) (w : World) :
  calls (snd (twilioTranscription cfg o req w)) <> calls w ->
  exists (b : Form) (rest : list Call),
    reqBody req = Some b /\
    signatureOk cfg req = true /\
    firstField (b !! "CallSid") (b !! "callSid") <> EmptyString /\
    isFinalEvent b = true /\
    trim (parseTranscriptionData b) <> EmptyString /\
    calls (snd (twilioTranscription cfg o req w)) =
      calls w ++ ChatRequest (chatModel cfg) (system_prompt cfg)
                   (trim (parseTranscriptionData b)) :: rest.
Proof.
  rewrite transcription_eq. cbv zeta.
  destruct (signatureOk cfg req); cbn [negb]; [|intros Hc; exfalso; apply Hc; reflexivity].
  destruct (reqBody req) as [b|]; [|intros Hc; exfalso; apply Hc; reflexivity].
  destruct (truthy (firstField (b !! "CallSid") (b !! "callSid"))) eqn:Hcs; cbn [negb];
    [|intros Hc; exfalso; apply Hc; reflexivity].
  destruct (isFinalEvent b) eqn:Hfin; cbn [negb]; [|intros Hc; exfalso; apply Hc; reflexivity].
  destruct (truthy (trim (parseTranscriptionData b))) eqn:Ht; cbn [negb];
    [|intros Hc; exfalso; apply Hc; reflexivity].
  pose proof (finalize_trace cfg o (firstField (b !! "CallSid") (b !! "callSid"))
                (trim (parseTranscriptionData b)) w) as Htr.
  destruct (finalizeUtterance cfg o _ _ w) as [[out|e] w']; cbn [snd] in *; intros Hc.
  all: destruct Htr as [Hsame|(rest & Hrest)]; [contradiction|].
  all: exists b, rest; repeat split; try reflexivity; try exact Hfin;
    try (apply truthy_true_iff; assumption); exact Hrest.
Qed.

Lemma transcription_forwards_only_finals_witness :
  let req := Sample.post (<[ "Final" := "true" ]>
               (<[ "TranscriptionText" := "  hello  " ]> {[ "CallSid" := "CA1" ]})) in
  exists (b : Form) (rest : list Call),
    reqBody req = Some b /\
    signatureOk Sample.cfg req = true /\
    firstField (b !! "CallSid") (b !! "callSid") <> EmptyString /\
    isFinalEvent b = true /\
    trim (@parseTranscriptionData JsonText.parse b) <> EmptyString /\
    calls (snd (@twilioTranscription JsonText.parse Sample.cfg (Sample.allWell 1000) req
                  Sample.world)) =
      calls Sample.world ++
        ChatRequest (chatModel Sample.cfg) (system_prompt Sample.cfg)
          (trim (@parseTranscriptionData JsonText.parse b)) :: rest.
Proof.
  apply (@transcription_forwards_only_finals JsonText.parse Sample.cfg (Sample.allWell 1000)
           (Sample.post (<[ "Final" := "true" ]>
              (<[ "TranscriptionText" := "  hello  " ]> {[ "CallSid" := "CA1" ]})))
           Sample.world).
  vm_compute. discriminate.
Defined.

(** The markup of the resume handler once trimmed. *)
Lemma resumeTwiml_eq (attrs : string) :
  resumeTwiml attrs =
  "<Response>" +:+ nl +:+
  sp 8 +:+ "<Start>" +:+ nl +:+
  sp 10 +:+ "<Transcription " +:+ attrs +:+ " />" +:+ nl +:+
  sp 8 +:+ "</Start>" +:+ nl +:+
  sp 8 +:+ "<Pause length=" +:+ dq +:+ "60" +:+ dq +:+ "/>" +:+ nl +:+
  sp 6 +:+ "</Response>".
Proof.
  unfold resumeTwiml, trim.
  match goal with
  | |- context [trimStart (nl +:+ sp 6 +:+ "<Response>" +:+ ?r)] =>
      change (trimStart (nl +:+ sp 6 +:+ "<Response>" +:+ r)) with ("<Response>" +:+ r)
  end.
  set (A := "<Response>" +:+ nl +:+ sp 8 +:+ "<Start>" +:+ nl +:+
            sp 10 +:+ "<Transcription " +:+ attrs).
  set (C := " />" +:+ nl +:+ sp 8 +:+ "</Start>" +:+ nl +:+
            sp 8 +:+ "<Pause length=" +:+ dq +:+ "60" +:+ dq +:+ "/>" +:+ nl +:+
            sp 6 +:+ "</Response>" +:+ nl +:+ sp 4).
  set (C' := " />" +:+ nl +:+ sp 8 +:+ "</Start>" +:+ nl +:+
             sp 8 +:+ "<Pause length=" +:+ dq +:+ "60" +:+ dq +:+ "/>" +:+ nl +:+
             sp 6 +:+ "</Response>").
  transitivity (trimEnd (A +:+ C)).
  { f_equal; try (unfold A, C; rewrite !append_assoc; reflexivity). }
  rewrite (trimEnd_app_lit A C C'); [| vm_compute; reflexivity | vm_compute; discriminate].
  unfold A, C'. rewrite ?append_assoc. reflexivity.
Qed.

(** X11.  The resume endpoint never greets and never touches the world: in any
    state, for a call greeted or not, its reply carries no [Play] and no [Say]
    element and the greeted set, the de-duplication map, the files and the
    trace are what they were.  With a valid signature (or verification off)
    the reply is the start-listening markup with status 200, which carries
    the [Start] element; otherwise it is the 403 refusal. *)
Theorem resume_never_greets (cfg : Config) (req : Webhook) (w : World) :
  let markup := resumeTwiml (buildTranscriptionAttrs cfg
                  (absoluteUrl (host cfg) "/twilio/transcription")) in
  let r := if signatureOk cfg req then textReply 200 "text/xml" markup
           else textReply 403 "text/plain" "Invalid Twilio signature" in
  twilioResume cfg req w = (Ok r, w) /\
  hasGreetingBlock r = false /\
  includes "<Start>" markup = true.
Proof.
  cbv zeta. unfold twilioResume, try_catch, ret.
  split; [destruct (signatureOk cfg req); reflexivity|]. split.
  - destruct (signatureOk cfg req); [|reflexivity].
    unfold hasGreetingBlock, textReply. cbn [payload]. rewrite resumeTwiml_eq.
    unfold buildTranscriptionAttrs. rewrite !append_assoc.
    apply orb_false_iff. split.
    + do 2 (simpl; rewrite includes_escapeXml). reflexivity.
    + do 2 (simpl; rewrite includes_escapeXml). reflexivity.
  - rewrite resumeTwiml_eq.
    apply (includes_app_r "<Start>" ("<Response>" +:+ nl +:+ sp 8)). apply includes_here.
Qed.

(** X12.  A request that fails the signature gate changes nothing and calls
    nobody, on all three webhooks; the call-start and resume endpoints answer
    403, while the transcript endpoint still answers 204. *)
Theorem unverified_request_is_inert `{JsonRuntime} (cfg : Config) (o : Oracle) (req : Webhook)
    (w : World) :
  signatureOk cfg req = false ->
  handle cfg o (CallStart req) w = (textReply 403 "text/plain" "Invalid Twilio signature", w) /\
  handle cfg o (Resume req) w = (textReply 403 "text/plain" "Invalid Twilio signature", w) /\
  handle cfg o (Transcript req) w = ({| code := 204; headers := []; payload := NoBody |}, w).
Proof.
  intros Hs. unfold handle. rewrite (voice_rejected cfg o req w Hs).
  rewrite transcription_eq. unfold twilioResume, try_catch, ret. rewrite Hs. auto.
Qed.

Lemma unverified_request_is_inert_witness :
  let req := Sample.post {[ "CallSid" := "CA1" ]} in
  @handle JsonText.parse Sample.cfgSigned (Sample.allWell 1000) (CallStart req) Sample.world =
    (textReply 403 "text/plain" "Invalid Twilio signature", Sample.world) /\
  @handle JsonText.parse Sample.cfgSigned (Sample.allWell 1000) (Resume req) Sample.world =
    (textReply 403 "text/plain" "Invalid Twilio signature", Sample.world) /\
  @handle JsonText.parse Sample.cfgSigned (Sample.allWell 1000) (Transcript req) Sample.world =
    ({| code := 204; headers := []; payload := NoBody |}, Sample.world).
Proof.
  apply (@unverified_request_is_inert JsonText.parse Sample.cfgSigned (Sample.allWell 1000)
           (Sample.post {[ "CallSid" := "CA1" ]}) Sample.world).
  reflexivity.
Defined.

(** ** The greeting cache *)

Lemma contentType_default (r : HttpResponse) :
  match contentType r with Some c => or_else c EmptyString | None => EmptyString end =
  default EmptyString (contentType r).
Proof. destruct (contentType r) as [c|]; simpl; [|reflexivity]. destruct c; reflexivity. Qed.

(** What [synthesizeWavStrict] does to the world and when it returns. *)
Lemma synthesize_run (o : Oracle) (txt model voice_ : string) (w : World) :
  let w1 := {| greeted := greeted w; recentByCall := recentByCall w; audio := audio w;
               calls := calls w ++ [SpeechRequest model voice_ txt] |} in
  (speechUsable o = true /\
   exists r, speech o = Some r /\ looksLikeWav (body r) = true /\
             synthesizeWavStrict o txt model voice_ w = (Ok (body r), w1)) \/
  (speechUsable o = false /\
   exists e, synthesizeWavStrict o txt model voice_ w = (Throw e, w1)).
Proof.
  cbv zeta. unfold speechUsable, synthesizeWavStrict, emit, bind, ret, throw.
  destruct (speech o) as [r|]; [|right; split; [reflexivity|eauto]].
  rewrite contentType_default.
  destruct (ok r); cbn [negb andb]; [|right; split; [reflexivity|eauto]].
  destruct (includes "audio" _); cbn [negb andb]; [|right; split; [reflexivity|eauto]].
  destruct (looksLikeWav (body r)) eqn:Hl; cbn [negb]; [|right; split; [reflexivity|eauto]].
  left. split; [reflexivity|]. exists r. auto.
Qed.

Lemma ensureGreetingWav_cached_aux (cfg : Config) (o : Oracle) (w : World) (buf : Buffer.t) :
  audio w !! "greeting.wav" = Some buf ->
  ensureGreetingWav cfg o w = (Ok (absoluteUrl (host cfg) "/audio/greeting.wav"), w).
Proof.
  intros Hf. unfold ensureGreetingWav, hasGreeting, bind, get_world, ret. rewrite Hf.
  reflexivity.
Qed.

(** X13.  When the greeting file is missing, the provider's answer passes the
    checks and the disk accepts the write, [ensureGreetingWav] makes one speech
    request for the configured greeting text, stores exactly the bytes
    received as [greeting.wav] and returns the URL; from then on every call
    returns the URL without a request and without a change. *)
Theorem ensureGreetingWav_generates_once (cfg : Config) (o : Oracle) (w : World) :
  audio w !! "greeting.wav" = None ->
  speechUsable o = true -> disk_ok o = true ->
  exists (r : HttpResponse) (w' : World),
    speech o = Some r /\ looksLikeWav (body r) = true /\
    ensureGreetingWav cfg o w = (Ok (absoluteUrl (host cfg) "/audio/greeting.wav"), w') /\
    audio w' = <["greeting.wav" := body r]> (audio w) /\
    calls w' = calls w ++
      [SpeechRequest (or_else (ttsModel cfg) "gpt-4o-mini-tts") (or_else (voice cfg) "coral")
         (or_else (greeting cfg) defaultGreeting)] /\
    greeted w' = greeted w /\ recentByCall w' = recentByCall w /\
    (forall o' : Oracle,
       ensureGreetingWav cfg o' w' = (Ok (absoluteUrl (host cfg) "/audio/greeting.wav"), w')).
Proof.
  intros Hf Hu Hd.
  destruct (synthesize_run o (or_else (greeting cfg) defaultGreeting)
              (or_else (ttsModel cfg) "gpt-4o-mini-tts") (or_else (voice cfg) "coral") w)
    as [(_ & r & Hr & Hl & Hs)|(Hu' & _)]; [|congruence].
  exists r. eexists. split; [exact Hr|]. split; [exact Hl|].
  split.
  { unfold ensureGreetingWav, hasGreeting, bind, get_world. rewrite Hf. cbn [negb].
    rewrite Hs. unfold saveGreeting, writeFileSync. rewrite Hd. unfold writeFile, ret.
    reflexivity. }
  cbn [audio calls greeted recentByCall]. repeat split.
  intros o'. apply (ensureGreetingWav_cached_aux cfg o' _ (body r)).
  cbn [audio]. apply lookup_insert_eq.
Qed.

Lemma ensureGreetingWav_generates_once_witness :
  exists (r : HttpResponse) (w' : World),
    speech (Sample.allWell 0) = Some r /\ looksLikeWav (body r) = true /\
    ensureGreetingWav Sample.cfg (Sample.allWell 0) Sample.world =
      (Ok (absoluteUrl (host Sample.cfg) "/audio/greeting.wav"), w') /\
    audio w' = <["greeting.wav" := body r]> (audio Sample.world) /\
    calls w' = calls Sample.world ++
      [SpeechRequest (or_else (ttsModel Sample.cfg) "gpt-4o-mini-tts")
         (or_else (voice Sample.cfg) "coral")
         (or_else (greeting Sample.cfg) defaultGreeting)] /\
    greeted w' = greeted Sample.world /\ recentByCall w' = recentByCall Sample.world /\
    (forall o' : Oracle,
       ensureGreetingWav Sample.cfg o' w' =
         (Ok (absoluteUrl (host Sample.cfg) "/audio/greeting.wav"), w')).
Proof.
  apply (ensureGreetingWav_generates_once Sample.cfg (Sample.allWell 0) Sample.world);
    reflexivity.
Defined.

(** X14.  When the greeting cannot be produced -- the file is missing and the
    provider's answer fails a check or the write fails -- the first call-start
    of a call is still answered 200, with a [Say] element that speaks the
    escaped greeting text in place of the [Play] element; the call is marked
    greeted all the same and one speech request has been made.  The audio
    directory is as it was when the answer failed a check (nothing is written
    then) and when the write failed before the file was opened; a write that
    failed part-way leaves the bytes it had written as [greeting.wav]. *)
Theorem greeting_failure_falls_back_to_say (cfg : Config) (o : Oracle) (req : Webhook)
    (w : World) :
  signatureOk cfg req = true ->
  callSidOf req <> EmptyString -> callSidOf req ∉ greeted w ->
  audio w !! "greeting.wav" = None ->
  speechUsable o && disk_ok o = false ->
  exists w' : World,
    twilioVoice cfg o req w =
      (Ok (textReply 200 "text/xml"
             (voiceTwiml
                ("<Say>" +:+ escapeXml (or_else (greeting cfg) defaultGreeting) +:+ "</Say>")
                (buildTranscriptionAttrs cfg (absoluteUrl (host cfg) "/twilio/transcription")))),
       w') /\
    greeted w' = {[ callSidOf req ]} ∪ greeted w /\
    calls w' = calls w ++
      [SpeechRequest (or_else (ttsModel cfg) "gpt-4o-mini-tts") (or_else (voice cfg) "coral")
         (or_else (greeting cfg) defaultGreeting)] /\
    audio w' =
      (if speechUsable o then
         match speech o, disk_left o with
         | Some r, Some n => <["greeting.wav" := take n (body r)]> (audio w)
         | _, _ => audio w
         end
       else audio w).
Proof.
  intros Hs Hc Hn Hf Hu.
  unfold twilioVoice, try_catch, bind, get_world, ret. rewrite Hs.
  fold (callSidOf req). cbn [negb].
  apply truthy_true_iff in Hc. rewrite Hc, (bool_decide_eq_false_2 _ Hn). cbn [negb andb].
  unfold addGreeted, ensureGreetingWav, hasGreeting, bind, get_world, ret.
  cbn [audio]. rewrite Hf. cbn [negb].
  match goal with
  | |- context [synthesizeWavStrict o ?t ?m ?v ?w0] =>
      destruct (synthesize_run o t m v w0) as [(Hu1 & r & Hr & Hl & Hrun)|(Hu1 & e & Hrun)];
      rewrite Hrun
  end.
  - rewrite Hu1 in Hu. cbn [andb] in Hu. rewrite Hu1, Hr.
    unfold saveGreeting, writeFileSync, writeFile, bind, ret, throw. rewrite Hu.
    destruct (disk_left o) as [n|];
      (eexists; split; [reflexivity|]); cbn [greeted audio calls]; auto.
  - rewrite Hu1. eexists. split; [reflexivity|]. cbn [greeted audio calls]. auto.
Qed.

Lemma greeting_failure_falls_back_to_say_witness :
  let req := Sample.post {[ "CallSid" := "CA1" ]} in
  let o := {| now := 0; chat := None; speech := Some (Sample.audioResponse Sample.wav);
              disk_ok := false; fresh_id := "id"; callUpdate := None;
              disk_left := Some 4%nat |} in
  exists w' : World,
    twilioVoice Sample.cfg o req Sample.world =
      (Ok (textReply 200 "text/xml"
             (voiceTwiml
                ("<Say>" +:+ escapeXml (or_else (greeting Sample.cfg) defaultGreeting) +:+ "</Say>")
                (buildTranscriptionAttrs Sample.cfg
                   (absoluteUrl (host Sample.cfg) "/twilio/transcription")))),
       w') /\
    greeted w' = {[ callSidOf req ]} ∪ greeted Sample.world /\
    calls w' = calls Sample.world ++
      [SpeechRequest (or_else (ttsModel Sample.cfg) "gpt-4o-mini-tts")
         (or_else (voice Sample.cfg) "coral")
         (or_else (greeting Sample.cfg) defaultGreeting)] /\
    audio w' = <["greeting.wav" := take 4 Sample.wav]> (audio Sample.world).
Proof.
  apply (greeting_failure_falls_back_to_say Sample.cfg
           {| now := 0; chat := None; speech := Some (Sample.audioResponse Sample.wav);
              disk_ok := false; fresh_id := "id"; callUpdate := None;
              disk_left := Some 4%nat |}
           (Sample.post {[ "CallSid" := "CA1" ]}) Sample.world); try reflexivity.
  - discriminate.
  - apply not_elem_of_empty.
Defined.

(** X28.  A greeting write that fails part-way is never repaired.  When the
    file is missing, the provider's answer passes the checks and the write
    stops after [n] bytes, [ensureGreetingWav] throws and leaves those [n]
    bytes as [greeting.wav]; from then on the file counts as the greeting:
    every later call returns its URL without a request to the speech provider
    and without writing anything. *)
Theorem partial_greeting_is_kept (cfg : Config) (o o' : Oracle) (w : World)
    (r : HttpResponse) (n : nat) :
  audio w !! "greeting.wav" = None ->
  speechUsable o = true -> speech o = Some r ->
  disk_ok o = false -> disk_left o = Some n ->
  exists w' : World,
    ensureGreetingWav cfg o w = (Throw StorageError, w') /\
    audio w' = <["greeting.wav" := take n (body r)]> (audio w) /\
    calls w' = calls w ++
      [SpeechRequest (or_else (ttsModel cfg) "gpt-4o-mini-tts") (or_else (voice cfg) "coral")
         (or_else (greeting cfg) defaultGreeting)] /\
    ensureGreetingWav cfg o' w' = (Ok (absoluteUrl (host cfg) "/audio/greeting.wav"), w').
Proof.
  intros Hf Hu Hr Hd Hn.
  destruct (synthesize_run o (or_else (greeting cfg) defaultGreeting)
              (or_else (ttsModel cfg) "gpt-4o-mini-tts") (or_else (voice cfg) "coral") w)
    as [(_ & r' & Hr' & _ & Hs)|(Hu' & _)]; [|congruence].
  rewrite Hr in Hr'. inversion Hr'; subst r'. clear Hr'.
  eexists. split.
  { unfold ensureGreetingWav, hasGreeting, bind, get_world. rewrite Hf. cbn [negb].
    rewrite Hs. unfold saveGreeting, writeFileSync, bind. rewrite Hd, Hn.
    unfold writeFile, throw. reflexivity. }
  cbn [audio calls]. split; [reflexivity|]. split; [reflexivity|].
  apply (ensureGreetingWav_cached_aux cfg o' _ (take n (body r))).
  cbn [audio]. apply lookup_insert_eq.
Qed.

Lemma partial_greeting_is_kept_witness :
  let o := {| now := 0; chat := None; speech := Some (Sample.audioResponse Sample.wav);
              disk_ok := false; fresh_id := "id"; callUpdate := None;
              disk_left := Some 4%nat |} in
  exists w' : World,
    ensureGreetingWav Sample.cfg o Sample.world = (Throw StorageError, w') /\
    audio w' = <["greeting.wav" := take 4 (body (Sample.audioResponse Sample.wav))]>
                 (audio Sample.world) /\
    calls w' = calls Sample.world ++
      [SpeechRequest (or_else (ttsModel Sample.cfg) "gpt-4o-mini-tts")
         (or_else (voice Sample.cfg) "coral")
         (or_else (greeting Sample.cfg) defaultGreeting)] /\
    ensureGreetingWav Sample.cfg (Sample.allWell 5000) w' =
      (Ok (absoluteUrl (host Sample.cfg) "/audio/greeting.wav"), w').
Proof.
  apply (partial_greeting_is_kept Sample.cfg
           {| now := 0; chat := None; speech := Some (Sample.audioResponse Sample.wav);
              disk_ok := false; fresh_id := "id"; callUpdate := None;
              disk_left := Some 4%nat |}
           (Sample.allWell 5000) Sample.world (Sample.audioResponse Sample.wav) 4);
    reflexivity.
Defined.

(** ** The signed string *)

Lemma sortedKeys_singleton (k v : string) : sortedKeys {[ k := v ]} = [k].
Proof. unfold sortedKeys. rewrite map_to_list_singleton. reflexivity. Qed.

Lemma toSign_singleton (url k v : string) :
  toSign url (Some {[ k := v ]}) = url +:+ k +:+ v.
Proof.
  unfold toSign, signedParams. rewrite sortedKeys_singleton. cbn [map concat_all].
  rewrite lookup_singleton_eq. cbn [default]. rewrite append_nil_r. reflexivity.
Qed.

(** X15.  The signed string puts no separator between a key and its value: a
    body with the single field [k ++ v1 = v2] and a body with the single field
    [k = v1 ++ v2] are signed as the same string, so the verifier gives the
    same verdict on both for the same URL, token and headers. *)
Theorem toSign_key_value_boundary (url k v1 v2 : string) :
  toSign url (Some {[ k +:+ v1 := v2 ]}) = toSign url (Some {[ k := v1 +:+ v2 ]}) /\
  forall (enabled : bool) (tok u : option string) (hdrs : Form),
    validateTwilioSignature enabled tok u hdrs (Some {[ k +:+ v1 := v2 ]}) =
    validateTwilioSignature enabled tok u hdrs (Some {[ k := v1 +:+ v2 ]}).
Proof.
  assert (E : forall u0 : string,
            toSign u0 (Some {[ k +:+ v1 := v2 ]}) = toSign u0 (Some {[ k := v1 +:+ v2 ]})).
  { intros u0. rewrite !toSign_singleton, !append_assoc. reflexivity. }
  split; [apply E|].
  intros enabled tok u hdrs. unfold validateTwilioSignature, computedSignature.
  rewrite E. reflexivity.
Qed.

(** ** Configuration *)

Lemma envOr_nonempty (env : Form) (k d : string) : d <> EmptyString -> envOr env k d <> EmptyString.
Proof.
  intros Hd. unfold envOr. destruct (env !! k) as [v|]; [|exact Hd].
  unfold or_else. destruct v; [exact Hd | discriminate].
Qed.

(** X16.  Signature verification is on unless the environment says otherwise
    in so many words: [loadConfig] turns it on when
    [TWILIO_VALIDATE_SIGNATURE] is unset, empty, or spells [true] in any
    letter case, and off for every other value -- [1], [yes] and [on]
    included. *)
Theorem loadConfig_validateSignature (env : Form) (fileCfg : FileConfig) :
  validateSignature (loadConfig env fileCfg) = true <->
  env !! "TWILIO_VALIDATE_SIGNATURE" = None \/
  env !! "TWILIO_VALIDATE_SIGNATURE" = Some EmptyString \/
  exists v, env !! "TWILIO_VALIDATE_SIGNATURE" = Some v /\ toLowerCase v = "true".
Proof.
  unfold loadConfig. cbn [validateSignature]. unfold envOr.
  destruct (env !! "TWILIO_VALIDATE_SIGNATURE") as [v|].
  - destruct v as [|c v].
    + split; [auto | reflexivity].
    + cbn [or_else truthy]. rewrite String.eqb_eq. split.
      * intros Hv. right. right. eauto.
      * intros [Hn|[He|(v' & Hv & Hl)]]; [discriminate|discriminate|].
        inversion Hv; subst. exact Hl.
  - split; [auto | reflexivity].
Qed.

Lemma loadConfig_validateSignature_witness :
  validateSignature
    (loadConfig {[ "TWILIO_VALIDATE_SIGNATURE" := "yes" ]}
       {| file_system_prompt := None; file_max_response_chars := None;
          file_language := None |}) <> true.
Proof.
  intros H.
  apply (loadConfig_validateSignature {[ "TWILIO_VALIDATE_SIGNATURE" := "yes" ]}
           {| file_system_prompt := None; file_max_response_chars := None;
              file_language := None |}) in H.
  destruct H as [H|[H|(v & Hv & Hl)]]; try discriminate H.
  vm_compute in Hv. inversion Hv; subst. vm_compute in Hl. discriminate Hl.
Defined.

(** X17.  A configuration built by [loadConfig] never has an empty greeting,
    chat model, speech model or voice, so the fallbacks the handlers apply to
    them never fire; the response cap it sets is the one finalize uses unless
    the file says zero, which means 600; and nothing in the file changes a
    setting read from the environment. *)
Theorem loadConfig_defaults (env : Form) (fileCfg fileCfg' : FileConfig) :
  let cfg := loadConfig env fileCfg in
  greeting cfg <> EmptyString /\ chatModel cfg <> EmptyString /\
  ttsModel cfg <> EmptyString /\ voice cfg <> EmptyString /\
  or_else (greeting cfg) defaultGreeting = greeting cfg /\
  or_else (ttsModel cfg) "gpt-4o-mini-tts" = ttsModel cfg /\
  or_else (voice cfg) "coral" = voice cfg /\
  responseCap cfg =
    match file_max_response_chars fileCfg with
    | Some n => if n =? 0 then 600 else n
    | None => 600
    end /\
  (host cfg, greeting cfg, validateSignature cfg, accountSid cfg, authToken cfg, apiKey cfg,
   chatModel cfg, ttsModel cfg, voice cfg) =
  (let c' := loadConfig env fileCfg' in
   (host c', greeting c', validateSignature c', accountSid c', authToken c', apiKey c',
    chatModel c', ttsModel c', voice c')).
Proof.
  cbv zeta. unfold loadConfig.
  cbn [greeting chatModel ttsModel voice max_response_chars host validateSignature accountSid
       authToken apiKey].
  assert (G : envOr env "GREETING_TEXT" "Hello! How can I help?" <> EmptyString)
    by (apply envOr_nonempty; discriminate).
  assert (C : envOr env "OPENAI_CHAT_MODEL" "gpt-4.1-mini" <> EmptyString)
    by (apply envOr_nonempty; discriminate).
  assert (T : envOr env "OPENAI_TTS_MODEL" "gpt-4o-mini-tts" <> EmptyString)
    by (apply envOr_nonempty; discriminate).
  assert (V : envOr env "OPENAI_TTS_VOICE" "coral" <> EmptyString)
    by (apply envOr_nonempty; discriminate).
  repeat split; try assumption.
  - unfold or_else. apply truthy_true_iff in G. rewrite G. reflexivity.
  - unfold or_else. apply truthy_true_iff in T. rewrite T. reflexivity.
  - unfold or_else. apply truthy_true_iff in V. rewrite V. reflexivity.
  - unfold responseCap. cbn [max_response_chars].
    destruct (file_max_response_chars fileCfg) as [n|]; reflexivity.
Qed.

(** ** Finalize, step by step *)

(** The shapes a finalize can leave behind: nothing; the chat request alone;
    the chat and speech requests; these and what a failed write left of the
    artifact; or both requests, the saved artifact and the call update. *)
Lemma finalize_shape (cfg : Config) (o : Oracle) (callSid txt : string) (w : World) :
  let w' := snd (finalizeUtterance cfg o callSid txt w) in
  let chatReq := ChatRequest (chatModel cfg) (system_prompt cfg) txt in
  let speechReq := fun answer =>
    SpeechRequest (ttsModel cfg) (voice cfg) (slice 0 (responseCap cfg) answer) in
  (calls w' = calls w /\ audio w' = audio w) \/
  (calls w' = calls w ++ [chatReq] /\ audio w' = audio w) \/
  (exists answer, calls w' = calls w ++ [chatReq; speechReq answer] /\ audio w' = audio w) \/
  (exists answer r n,
     speech o = Some r /\ looksLikeWav (body r) = true /\
     disk_ok o = false /\ disk_left o = Some n /\
     calls w' = calls w ++ [chatReq; speechReq answer] /\
     audio w' = <[fresh_id o +:+ ".wav" := take n (body r)]> (audio w)) \/
  (exists answer r url,
     speech o = Some r /\ looksLikeWav (body r) = true /\ disk_ok o = true /\
     calls w' = calls w ++
       [chatReq; speechReq answer;
        CallUpdate url
          (redirectTwiml (host cfg)
             (absoluteUrl (host cfg) ("/audio/" +:+ fresh_id o +:+ ".wav")))] /\
     audio w' = <[fresh_id o +:+ ".wav" := body r]> (audio w)).
Proof.
  cbv zeta. unfold_pipeline.
  destruct (truthy (trim txt)); cbn [negb]; [|left; auto].
  destruct (shouldProcess (now o) callSid txt (recentByCall w)) as [[|] m]; cbn [negb];
    [|left; auto].
  cbv beta iota.
  destruct (chat o) as [c|]; cbv beta iota; [|right; left; auto].
  destruct (chat_ok c); cbn [negb]; cbv beta iota; [|right; left; auto].
  destruct (chat_content c) as [[s|]|]; cbv beta iota; [| |right; left; auto].
  all: destruct (speech o) as [r|]; cbv beta iota;
    [|right; right; left; eexists; cbn [calls audio snd]; rewrite <- app_assoc; auto].
  all: destruct (ok r); cbn [negb]; cbv beta iota;
    [|right; right; left; eexists; cbn [calls audio snd]; rewrite <- app_assoc; auto].
  all: destruct (includes "audio" _); cbn [negb]; cbv beta iota;
    [|right; right; left; eexists; cbn [calls audio snd]; rewrite <- app_assoc; auto].
  all: destruct (looksLikeWav (body r)) eqn:Hl; cbn [negb]; cbv beta iota;
    [|right; right; left; eexists; cbn [calls audio snd]; rewrite <- app_assoc; auto].
  all: destruct (disk_ok o) eqn:Hd; cbv beta iota.
  all: try (destruct (disk_left o) as [n|] eqn:Hn; cbv beta iota;
    [ right; right; right; left; eexists; exists r, n; cbn [calls audio snd];
      rewrite <- app_assoc; repeat split; first [reflexivity | exact Hl]
    | right; right; left; eexists; cbn [calls audio snd]; rewrite <- app_assoc; auto ]).
  all: right; right; right; right.
  all: destruct (callUpdate o) as [[okk st]|]; cbv beta iota; [destruct okk; cbn [negb]|].
  all: eexists; exists r; eexists; cbn [calls audio snd]; rewrite <- !app_assoc;
    repeat split; first [reflexivity | exact Hl].
Qed.







Lemma callUpdates_app (a b : list Call) :
  callUpdates (a ++ b) = (callUpdates a + callUpdates b)%nat.
Proof.
  induction a as [|c a IH]; simpl; [reflexivity|]. destruct c; simpl; rewrite IH; reflexivity.
Qed.

(** X19.  One finalize updates the live call at most once, and only after the
    reply audio has passed the container check and been written in full.
    Either no call update is made, and then the audio directory is unchanged
    but for what a write that failed part-way left under the drawn name; or
    exactly one is made, as the last call, and the artifact it plays is on
    disk with the bytes the speech provider sent -- also when the update itself
    is then refused, in which case the artifact stays. *)
Theorem finalize_redirects_only_saved (cfg : Config) (o : Oracle) (callSid txt : string)
    (w : World) :
  let w' := snd (finalizeUtterance cfg o callSid txt w) in
  (callUpdates (calls w') = callUpdates (calls w) /\
   (audio w' = audio w \/
    exists (r : HttpResponse) (n : nat),
      speech o = Some r /\ disk_ok o = false /\ disk_left o = Some n /\
      audio w' = <[fresh_id o +:+ ".wav" := take n (body r)]> (audio w))) \/
  (callUpdates (calls w') = S (callUpdates (calls w)) /\
   exists (r : HttpResponse) (url : string),
     speech o = Some r /\ looksLikeWav (body r) = true /\ disk_ok o = true /\
     audio w' !! (fresh_id o +:+ ".wav") = Some (body r) /\
     last (calls w') =
       Some (CallUpdate url
               (playThenRedirect
                  (absoluteUrl (host cfg) ("/audio/" +:+ fresh_id o +:+ ".wav"))
                  (absoluteUrl (host cfg) "/twilio/voice")))).
Proof.
  cbv zeta.
  destruct (finalize_shape cfg o callSid txt w)
    as [[Hc Ha]|[[Hc Ha]|[(a & Hc & Ha)|[(a & r & n & Hr & _ & Hd & Hn & Hc & Ha)
       |(a & r & u & Hr & Hl & Hd & Hc & Ha)]]]];
    rewrite Hc, Ha.
  - left. auto.
  - left. rewrite callUpdates_app. simpl. split; [lia|auto].
  - left. rewrite callUpdates_app. simpl. split; [lia|auto].
  - left. rewrite callUpdates_app. simpl. split; [lia|]. right. exists r, n. auto.
  - right. rewrite callUpdates_app. simpl. split; [lia|].
    exists r, u. split; [exact Hr|]. split; [exact Hl|]. split; [exact Hd|].
    split; [apply lookup_insert_eq|].
    rewrite redirectTwiml_eq.
    change [?x; ?y; ?z] with ([x; y] ++ [z]). rewrite app_assoc, last_snoc. reflexivity.
Qed.

Lemma includes_dotdot_wav (id : string) :
  includes "." id = false -> includes ".." (id +:+ ".wav") = false.
Proof.
  induction id as [|c id IH]; [reflexivity|].
  intros H. rewrite includes_cons in H. apply orb_false_iff in H as [Hc Hi].
  cbn [String.append]. rewrite includes_cons, (IH Hi), orb_false_r.
  cbn [startsWith] in *. rewrite andb_true_r in Hc. rewrite Hc. reflexivity.
Qed.

Lemma endsWith_app (p a : string) : endsWith p (a +:+ p) = true.
Proof.
  induction a as [|c a IH]; cbn [String.append].
  - destruct p; simpl; [reflexivity|]. rewrite Ascii.eqb_refl, String.eqb_refl. reflexivity.
  - cbn [endsWith]. rewrite IH. apply orb_true_r.
Qed.

Lemma finalize_replied_audio (cfg : Config) (o : Oracle) (callSid txt : string)
    (w w' : World) :
  finalizeUtterance cfg o callSid txt w = (Ok Replied, w') ->
  exists r : HttpResponse,
    speech o = Some r /\ audio w' = <[fresh_id o +:+ ".wav" := body r]> (audio w).
Proof.
  intros Hf. unfold_pipeline.
  destruct (truthy (trim txt)); simpl in Hf; [|discriminate].
  destruct (shouldProcess (now o) callSid txt (recentByCall w)) as [b m].
  destruct b; simpl in Hf; [|discriminate].
  break_oracle_in Hf; try discriminate.
  all: inversion Hf; subst; clear Hf; eexists; split; reflexivity.
Qed.

(** X20.  The reply can be fetched where the caller is sent: after a finalize
    that ends with the reply redirected, and for a drawn id without a dot (as
    the ids of [saveWav] are), a GET of [/audio/<id>.wav] -- the path of the
    URL placed in the markup -- is answered with status 200 and exactly the
    bytes the speech provider returned. *)
Theorem reply_artifact_is_served (cfg : Config) (o : Oracle) (callSid txt : string)
    (w w' : World) :
  finalizeUtterance cfg o callSid txt w = (Ok Replied, w') ->
  includes "." (fresh_id o) = false ->
  exists r : HttpResponse,
    speech o = Some r /\
    let reply := serveAudio (audio w')
                   {| method := GET; file := fresh_id o +:+ ".wav"; range := None |} in
    code reply = 200 /\ payload reply = Bytes (body r).
Proof.
  intros Hf Hdot. destruct (finalize_replied_audio cfg o callSid txt w w' Hf) as (r & Hr & Ha).
  exists r. split; [exact Hr|]. cbv zeta.
  unfold serveAudio. cbn [file method range].
  rewrite (includes_dotdot_wav _ Hdot), endsWith_app.
  assert (Ht : truthy (fresh_id o +:+ ".wav") = true) by (destruct (fresh_id o); reflexivity).
  rewrite Ht, Ha, lookup_insert_eq. split; reflexivity.
Qed.

Lemma reply_artifact_is_served_witness :
  exists r : HttpResponse,
    speech (Sample.allWell 1000) = Some r /\
    let reply :=
      serveAudio
        (audio (snd (finalizeUtterance Sample.cfg (Sample.allWell 1000) "CA1" "hello"
                       Sample.world)))
        {| method := GET; file := fresh_id (Sample.allWell 1000) +:+ ".wav"; range := None |} in
    code reply = 200 /\ payload reply = Bytes (body r).
Proof.
  apply (reply_artifact_is_served Sample.cfg (Sample.allWell 1000) "CA1" "hello" Sample.world);
    reflexivity.
Defined.

(** ** The gate across calls and texts *)

(** X21.  The gate keeps calls apart: a decision for one call leaves the entry
    of every other call as it was, and the answer given to another call is the
    same whether or not this one was asked first. *)
Theorem shouldProcess_isolated (c c' txt txt' : string) (t t' : Z) (m : gmap string Recent) :
  c <> c' ->
  snd (shouldProcess t c txt m) !! c' = m !! c' /\
  fst (shouldProcess t' c' txt' (snd (shouldProcess t c txt m))) =
    fst (shouldProcess t' c' txt' m).
Proof.
  intros Hne.
  assert (E : snd (shouldProcess t c txt m) !! c' = m !! c').
  { unfold shouldProcess. destruct (m !! c) as [p|]; [destruct (_ && _)|]; cbn [snd];
      rewrite ?lookup_insert_ne by exact Hne; reflexivity. }
  split; [exact E|]. unfold shouldProcess at 1 3. cbv zeta. rewrite E. 
  destruct (m !! c') as [p|]; [destruct (_ && _)|]; reflexivity.
Qed.

Lemma shouldProcess_isolated_witness :
  snd (shouldProcess 1000 "CA1" "hello" {[ "CA2" := {| text := "hello"; ts := 900 |} ]})
    !! "CA2" = ({[ "CA2" := {| text := "hello"; ts := 900 |} ]} : gmap string Recent) !! "CA2" /\
  fst (shouldProcess 1200 "CA2" "hello"
         (snd (shouldProcess 1000 "CA1" "hello" {[ "CA2" := {| text := "hello"; ts := 900 |} ]}))) =
    fst (shouldProcess 1200 "CA2" "hello" {[ "CA2" := {| text := "hello"; ts := 900 |} ]}).
Proof.
  apply (shouldProcess_isolated "CA1" "CA2" "hello" "hello" 1000 1200). discriminate.
Defined.

Lemma shouldProcess_stores_text (t : Z) (c txt : string) (m : gmap string Recent) :
  exists ts0, snd (shouldProcess t c txt m) !! c = Some {| text := txt; ts := ts0 |}.
Proof.
  unfold shouldProcess. destruct (m !! c) as [p|] eqn:E.
  - destruct (String.eqb_spec (text p) txt) as [Ht|Ht]; cbn [andb].
    + destruct (t - ts p <? 5000); cbn [snd].
      * exists (ts p). rewrite E. destruct p; simpl in *; subst; reflexivity.
      * exists t. apply lookup_insert_eq.
    + exists t. apply lookup_insert_eq.
  - exists t. apply lookup_insert_eq.
Qed.

(** X22.  The gate remembers one text per call, the last one it saw.  Whatever
    it held before and whatever the clock says, once it has been asked about a
    text, a different text for the same call passes, and the first text then
    passes again: only immediate repetitions are suppressed. *)
Theorem shouldProcess_last_text_only (c a b : string) (t1 t2 t3 : Z) (m : gmap string Recent) :
  a <> b ->
  let m1 := snd (shouldProcess t1 c a m) in
  let m2 := snd (shouldProcess t2 c b m1) in
  fst (shouldProcess t2 c b m1) = true /\
  fst (shouldProcess t3 c a m2) = true.
Proof.
  intros Hne. cbv zeta.
  destruct (shouldProcess_stores_text t1 c a m) as (s1 & H1).
  assert (A : fst (shouldProcess t2 c b (snd (shouldProcess t1 c a m))) = true).
  { unfold shouldProcess at 1. cbv zeta. rewrite H1. cbn [text].
    destruct (String.eqb_spec a b); [contradiction|]. reflexivity. }
  split; [exact A|].
  rewrite (shouldProcess_true_insert _ _ _ _ A).
  unfold shouldProcess. rewrite lookup_insert_eq. cbn [text].
  destruct (String.eqb_spec b a); [congruence|]. reflexivity.
Qed.

Lemma shouldProcess_last_text_only_witness :
  let m1 := snd (shouldProcess 1000 "CA1" "yes" ∅) in
  let m2 := snd (shouldProcess 1001 "CA1" "no" m1) in
  fst (shouldProcess 1001 "CA1" "no" m1) = true /\
  fst (shouldProcess 1002 "CA1" "yes" m2) = true.
Proof.
  apply (shouldProcess_last_text_only "CA1" "yes" "no" 1000 1001 1002 ∅). discriminate.
Defined.

(** ** Nothing is ever forgotten *)

Lemma grows_refl (w : World) : grows w w.
Proof. unfold grows. repeat split; try reflexivity. exists []. rewrite app_nil_r. reflexivity. Qed.

Lemma grows_trans (a b c : World) : grows a b -> grows b c -> grows a c.
Proof.
  intros (G1 & R1 & A1 & n1 & C1) (G2 & R2 & A2 & n2 & C2). unfold grows.
  split; [set_solver|]. split; [set_solver|]. split; [set_solver|].
  exists (n1 ++ n2). rewrite C2, C1, app_assoc. reflexivity.
Qed.

Lemma growing_ret {A} (a : A) : Growing (ret a).
Proof. intros w. apply grows_refl. Qed.

Lemma growing_throw {A} (e : Exn) : Growing (@throw A e).
Proof. intros w. apply grows_refl. Qed.

Lemma growing_bind {A B} (m : M A) (k : A -> M B) :
  Growing m -> (forall a, Growing (k a)) -> Growing (bind m k).
Proof.
  intros Hm Hk w. unfold bind. specialize (Hm w).
  destruct (m w) as [[a|e] w1]; cbn [snd] in *; [|exact Hm].
  eapply grows_trans; [exact Hm | apply Hk].
Qed.

Lemma growing_try {A} (m : M A) (h : Exn -> M A) :
  Growing m -> (forall e, Growing (h e)) -> Growing (try_catch m h).
Proof.
  intros Hm Hh w. unfold try_catch. specialize (Hm w).
  destruct (m w) as [[a|e] w1]; cbn [snd] in *; [exact Hm|].
  eapply grows_trans; [exact Hm | apply Hh].
Qed.

Lemma growing_get : Growing get_world.
Proof. intros w. apply grows_refl. Qed.

Lemma growing_emit (c : Call) : Growing (emit c).
Proof. intros w. unfold grows, emit. cbn. repeat split; try reflexivity. eauto. Qed.

Lemma growing_writeFile (name : string) (content : Buffer.t) : Growing (writeFile name content).
Proof.
  intros w. unfold grows, writeFile. cbn. repeat split; try reflexivity.
  - rewrite dom_insert_L. set_solver.
  - exists []. rewrite app_nil_r. reflexivity.
Qed.

Lemma growing_addGreeted (c : string) : Growing (addGreeted c).
Proof.
  intros w. unfold grows, addGreeted. cbn. repeat split; try reflexivity.
  - set_solver.
  - exists []. rewrite app_nil_r. reflexivity.
Qed.

Lemma growing_gate (t : Z) (c txt : string) : Growing (gate t c txt).
Proof.
  intros w. unfold grows, gate, shouldProcess.
  destruct (recentByCall w !! c) as [p|]; [destruct (_ && _)|]; cbn;
    repeat split; try reflexivity; try (rewrite dom_insert_L; set_solver);
    exists []; rewrite app_nil_r; reflexivity.
Qed.

Lemma growing_chatReply (o : Oracle) (a b c : string) : Growing (chatReply o a b c).
Proof.
  unfold chatReply. apply growing_bind; [apply growing_emit|]. intros _.
  destruct (chat o) as [r|]; [|apply growing_throw].
  destruct (negb (chat_ok r)); [apply growing_throw|].
  destruct (chat_content r) as [[s|]|]; first [apply growing_ret | apply growing_throw].
Qed.

Lemma growing_synthesize (o : Oracle) (a b c : string) : Growing (synthesizeWavStrict o a b c).
Proof.
  unfold synthesizeWavStrict. apply growing_bind; [apply growing_emit|]. intros _.
  destruct (speech o) as [r|]; [|apply growing_throw].
  repeat match goal with |- context [if ?x then _ else _] => destruct x end;
    first [apply growing_ret | apply growing_throw].
Qed.

Lemma growing_writeFileSync (o : Oracle) (name : string) (content : Buffer.t) :
  Growing (writeFileSync o name content).
Proof.
  unfold writeFileSync. destruct (disk_ok o); [apply growing_writeFile|].
  apply growing_bind; [|intros _; apply growing_throw].
  destruct (disk_left o); [apply growing_writeFile | apply growing_ret].
Qed.

Lemma growing_saveWav (o : Oracle) (buf : Buffer.t) : Growing (saveWav o buf).
Proof.
  unfold saveWav.
  apply growing_bind; [apply growing_writeFileSync|]. intros _. apply growing_ret.
Qed.

Lemma growing_redirect (cfg : Config) (o : Oracle) (a b c : string) :
  Growing (redirectCallToPlay cfg o a b c).
Proof.
  unfold redirectCallToPlay. apply growing_bind; [apply growing_emit|]. intros _.
  destruct (callUpdate o) as [[okk st]|]; [|apply growing_throw].
  destruct (negb okk); first [apply growing_ret | apply growing_throw].
Qed.

Lemma growing_ensureGreeting (cfg : Config) (o : Oracle) : Growing (ensureGreetingWav cfg o).
Proof.
  unfold ensureGreetingWav. apply growing_bind; [apply growing_get|]. intros w0.
  apply growing_bind; [|intros _; apply growing_ret].
  destruct (negb (hasGreeting w0)); [|apply growing_ret].
  apply growing_bind; [apply growing_synthesize|]. intros buf.
  unfold saveGreeting. apply growing_writeFileSync.
Qed.

Lemma growing_finalize (cfg : Config) (o : Oracle) (c txt : string) :
  Growing (finalizeUtterance cfg o c txt).
Proof.
  unfold finalizeUtterance. destruct (negb (truthy (trim txt))); [apply growing_ret|].
  apply growing_bind; [apply growing_gate|]. intros admitted.
  destruct (negb admitted); [apply growing_ret|].
  apply growing_bind; [apply growing_chatReply|]. intros answer.
  apply growing_bind; [apply growing_synthesize|]. intros buf.
  apply growing_bind; [apply growing_saveWav|]. intros id.
  apply growing_bind; [apply growing_redirect|]. intros _. apply growing_ret.
Qed.

Lemma growing_voice (cfg : Config) (o : Oracle) (req : Webhook) : Growing (twilioVoice cfg o req).
Proof.
  unfold twilioVoice. apply growing_try; [|intros _; apply growing_ret].
  destruct (negb (signatureOk cfg req)); [apply growing_ret|].
  apply growing_bind; [apply growing_get|]. intros w0.
  apply growing_bind.
  { destruct (_ && _); [apply growing_addGreeted | apply growing_ret]. }
  intros _. apply growing_bind; [|intros g; apply growing_ret].
  destruct (_ && _); [|apply growing_ret].
  apply growing_try; [|intros _; apply growing_ret].
  apply growing_bind; [apply growing_ensureGreeting|]. intros u. apply growing_ret.
Qed.

Lemma growing_transcription `{JsonRuntime} (cfg : Config) (o : Oracle) (req : Webhook) :
  Growing (twilioTranscription cfg o req).
Proof.
  unfold twilioTranscription. apply growing_bind; [|intros out; apply growing_ret].
  apply growing_try; [|intros e; apply growing_ret].
  destruct (negb (signatureOk cfg req)); [apply growing_ret|].
  destruct (reqBody req) as [b|]; [|apply growing_throw].
  repeat match goal with |- context [if ?x then _ else _] => destruct x end;
    first [apply growing_ret | apply growing_finalize].
Qed.

Lemma growing_handle `{JsonRuntime} (cfg : Config) (o : Oracle) (ev : Event) (w : World) :
  grows w (snd (handle cfg o ev w)).
Proof.
  destruct ev as [req|req|req|req]; unfold handle.
  - pose proof (growing_voice cfg o req w) as G.
    destruct (twilioVoice cfg o req w) as [[r|e] w']; exact G.
  - unfold twilioResume, try_catch, ret.
    destruct (negb (signatureOk cfg req)); apply grows_refl.
  - pose proof (growing_transcription cfg o req w) as G.
    destruct (twilioTranscription cfg o req w) as [[[r out]|e] w']; exact G.
  - apply grows_refl.
Qed.

(** X23.  Over any sequence of requests the state only grows: an identifier
    once greeted stays greeted, a call once entered in the de-duplication map
    keeps an entry, a file once written to the audio directory stays, and the
    trace of outside calls is only extended at its end.  Nothing in the
    handlers evicts, deletes or rewrites history. *)
Theorem run_only_grows `{JsonRuntime} (cfg : Config) (evs : list (Oracle * Event)) (w : World) :
  let w' := snd (run cfg evs w) in
  greeted w ⊆ greeted w' /\
  dom (recentByCall w) ⊆ dom (recentByCall w') /\
  dom (audio w) ⊆ dom (audio w') /\
  exists new : list Call, calls w' = calls w ++ new.
Proof.
  cbv zeta. change (grows w (snd (run cfg evs w))).
  revert w. induction evs as [|[o ev] rest IH]; intros w; [apply grows_refl|].
  rewrite run_cons. cbn [snd].
  eapply grows_trans; [apply growing_handle | apply IH].
Qed.

(** ** The provider adapters and the debug endpoints *)

(** X24.  [chatReply] makes exactly one request, with the model, the system
    prompt and the user text it was given, and changes nothing else, whether
    it returns or throws; what it returns is trimmed -- an answer of white
    space, or a response without content, comes back as the empty string. *)
Theorem chatReply_contract (o : Oracle) (model system user : string) (w : World) :
  exists res : Res string,
    chatReply o model system user w =
      (res, {| greeted := greeted w; recentByCall := recentByCall w; audio := audio w;
               calls := calls w ++ [ChatRequest model system user] |}) /\
    match res with
    | Ok t =>
        trim t = t /\
        exists r, chat o = Some r /\ chat_ok r = true /\
          (chat_content r = Some None /\ t = EmptyString \/
           exists c, chat_content r = Some (Some c) /\ t = trim c)
    | Throw e =>
        (chat o = None /\ e = TransportError) \/
        exists r, chat o = Some r /\
          (chat_ok r = false /\ e = ChatError (chat_status r) \/
           chat_ok r = true /\ chat_content r = None /\ e = ChatMalformed)
    end.
Proof.
  unfold chatReply, emit, bind, ret, throw.
  destruct (chat o) as [r|] eqn:Hc.
  2: { eexists. split; [reflexivity|]. left. auto. }
  destruct (chat_ok r) eqn:Hk; cbn [negb].
  2: { eexists. split; [reflexivity|]. right. exists r. auto. }
  destruct (chat_content r) as [[c|]|] eqn:Hcc.
  - eexists. split; [reflexivity|]. rewrite or_else_empty. split; [apply trim_idem|].
    exists r. repeat split; try assumption. right. eauto.
  - eexists. split; [reflexivity|]. split; [reflexivity|].
    exists r. repeat split; try assumption. left. auto.
  - eexists. split; [reflexivity|]. right. exists r. split; [reflexivity|]. right. auto.
Qed.

(** X25.  The debug round trip through the providers never throws and sits
    beside the call flow: it makes the chat request for the posted text (or
    for its stock sentence when none is posted) without asking the
    de-duplication gate, sends the answer to the speech provider uncut, and
    never updates a call nor touches the greeted set or the de-duplication
    map.  It answers 200 exactly when it reports success, and then the URL it
    reports names a file that holds the bytes the speech provider sent; when
    it answers 500 the audio directory is unchanged, but for what a write that
    failed part-way left under the drawn name. *)
Theorem debugTestOpenai_beside_call_flow (cfg : Config) (o : Oracle) (req : Webhook)
    (w : World) :
  exists (d : DebugReply) (w' : World) (rest : list Call),
    debugTestOpenai cfg o req w = (Ok d, w') /\
    greeted w' = greeted w /\ recentByCall w' = recentByCall w /\
    calls w' = calls w ++
      ChatRequest (chatModel cfg) (system_prompt cfg) (debugUserText (reqBody req)) :: rest /\
    callUpdates rest = O /\
    (rest = [] \/
     exists t, rest = [SpeechRequest (ttsModel cfg) (voice cfg) t] /\
       fst (chatReply o (chatModel cfg) (system_prompt cfg) (debugUserText (reqBody req)) w)
         = Ok t) /\
    ((dok d = true /\ dcode d = 200 /\
      durl d = Some (absoluteUrl (host cfg) ("/audio/" +:+ fresh_id o +:+ ".wav")) /\
      exists r, speech o = Some r /\ audio w' !! (fresh_id o +:+ ".wav") = Some (body r)) \/
     (dok d = false /\ dcode d = 500 /\ durl d = None /\
      (audio w' = audio w \/
       exists (r : HttpResponse) (n : nat),
         speech o = Some r /\ disk_ok o = false /\ disk_left o = Some n /\
         audio w' = <[fresh_id o +:+ ".wav" := take n (body r)]> (audio w)))).
Proof.
  unfold debugTestOpenai, try_catch, chatReply, synthesizeWavStrict, saveWav, writeFileSync,
    writeFile, emit, bind, ret, throw.
  destruct (chat o) as [c|]; cbv beta iota.
  2: { eexists; eexists; exists []. split; [reflexivity|]. cbn.
       do 4 (split; [reflexivity|]). split; [left; reflexivity|]. right. auto. }
  destruct (chat_ok c); cbn [negb]; cbv beta iota.
  2: { eexists; eexists; exists []. split; [reflexivity|]. cbn.
       do 4 (split; [reflexivity|]). split; [left; reflexivity|]. right. auto. }
  destruct (chat_content c) as [[s|]|]; cbv beta iota.
  3: { eexists; eexists; exists []. split; [reflexivity|]. cbn.
       do 4 (split; [reflexivity|]). split; [left; reflexivity|]. right. auto. }
  all: destruct (speech o) as [r|]; cbv beta iota;
    [destruct (ok r); cbn [negb]; cbv beta iota;
     [destruct (includes "audio" _); cbn [negb]; cbv beta iota;
      [destruct (looksLikeWav (body r)); cbn [negb]; cbv beta iota;
       [destruct (disk_ok o); cbv beta iota;
        [|destruct (disk_left o) as [n|]; cbv beta iota]| ]| ]| ]| ].
  all: eexists; eexists; eexists; (split; [reflexivity|]);
    cbn [greeted recentByCall calls audio dok dcode durl fst];
    rewrite <- ?app_assoc; (split; [reflexivity|]); (split; [reflexivity|]);
    (split; [reflexivity|]); (split; [reflexivity|]).
  all: split; [ right; eexists; split; reflexivity | ].
  all: first
    [ left; repeat split; eexists; split; [reflexivity | apply lookup_insert_eq]
    | right; do 3 (split; [reflexivity|]); left; reflexivity
    | right; do 3 (split; [reflexivity|]); right; eexists; eexists;
      repeat split; reflexivity ].
Qed.

(** X26.  The debug greeting endpoint never throws.  It answers 200 with the
    greeting URL only when [greeting.wav] is then in the audio directory, and
    500 only when the file was missing and the synthesis or the write failed;
    the directory is then unchanged, but for what a write that failed part-way
    left as [greeting.wav]. *)
Theorem debugGenerateGreeting_status (cfg : Config) (o : Oracle) (w : World) :
  exists (d : DebugReply) (w' : World),
    debugGenerateGreeting cfg o w = (Ok d, w') /\
    ((dcode d = 200 /\ dok d = true /\
      durl d = Some (absoluteUrl (host cfg) "/audio/greeting.wav") /\
      hasGreeting w' = true) \/
     (dcode d = 500 /\ dok d = false /\ durl d = None /\
      hasGreeting w = false /\ speechUsable o && disk_ok o = false /\
      (audio w' = audio w \/
       exists (r : HttpResponse) (n : nat),
         speech o = Some r /\ disk_ok o = false /\ disk_left o = Some n /\
         audio w' = <["greeting.wav" := take n (body r)]> (audio w)))).
Proof.
  unfold debugGenerateGreeting, try_catch, bind, ret.
  destruct (audio w !! "greeting.wav") as [buf|] eqn:Hf.
  { rewrite (ensureGreetingWav_cached_aux cfg o w buf Hf).
    eexists; eexists. split; [reflexivity|]. left. cbn. repeat split.
    unfold hasGreeting. rewrite Hf. reflexivity. }
  unfold ensureGreetingWav, hasGreeting, bind, get_world, ret. rewrite Hf. cbn [negb].
  match goal with
  | |- context [synthesizeWavStrict o ?t ?m ?v ?w0] =>
      destruct (synthesize_run o t m v w0) as [(Hu1 & r & Hr & Hl & Hrun)|(Hu1 & e & Hrun)];
      rewrite Hrun
  end.
  - unfold saveGreeting, writeFileSync, writeFile, bind, ret, throw. rewrite Hu1.
    destruct (disk_ok o) eqn:Hd.
    + eexists; eexists. split; [reflexivity|]. left. cbn. repeat split.
      rewrite lookup_insert_eq. reflexivity.
    + destruct (disk_left o) as [n|] eqn:Hn.
      * eexists; eexists. split; [reflexivity|]. right. cbn.
        do 5 (split; [reflexivity|]). right. exists r, n. auto.
      * eexists; eexists. split; [reflexivity|]. right. cbn.
        do 5 (split; [reflexivity|]). left. reflexivity.
  - rewrite Hu1. eexists; eexists. split; [reflexivity|]. right. cbn.
    do 5 (split; [reflexivity|]). left. reflexivity.
Qed.
